(** * Vaani signaling relay (src/server.js): presence registry, rooms, relay

    A shallow embedding of the Socket.IO event handlers of [src/server.js].
    The two module-level objects [users] and [rooms] become fields of an
    explicit [State]; every handler is a function from the state before the
    event to the state after it together with the list of effects (emits and
    timers) it issued, in program order.

    Conventions.
    - A JavaScript plain object with string keys is an association list in
      insertion order (the order of [Object.keys] / [Object.values] for keys
      that are not array indices).
    - A JavaScript [Set] of strings is a duplicate-free list in insertion
      order.
    - A client-supplied payload field is [option string]: [None] is
      [undefined] (field missing), [Some s] a string.  Truthiness is the
      JavaScript one: [undefined] and the empty string are falsy.
    - [new Date()] is an integer number of milliseconds handed to the
      handler by the environment.
    - The verified credential carries a string [userId] (section 6 of the
      specification) and optional [username] / [user.username].
    - Socket ids are assigned by the transport; they are never names of
      [Object.prototype] properties.  Room ids come from clients, so the
      prototype chain of [rooms] is modelled. *)

From Stdlib Require Import String List Bool ZArith Lia Arith.
Import ListNotations.
Local Open Scope string_scope.
Local Open Scope list_scope.

Set Implicit Arguments.

(** ** JavaScript values and operators *)

Module JS.

Definition value := option string.

Definition truthy_str (s : string) : bool := negb (s =? "").

Definition truthy (v : value) : bool :=
  match v with
  | Some s => truthy_str s
  | None => false
  end.

(** [a || d] where [d] is a string. *)
Definition or_else (a : value) (d : string) : string :=
  match a with
  | Some s => if truthy_str s then s else d
  | None => d
  end.

(** [String(v)], the name under which a value addresses a room. *)
Definition to_string (v : value) : string :=
  match v with
  | Some s => s
  | None => "undefined"
  end.

(** [s === v] for a string [s]. *)
Definition strict_eq (s : string) (v : value) : bool :=
  match v with
  | Some x => s =? x
  | None => false
  end.

(** Names that every plain object inherits from [Object.prototype]. *)
Definition object_prototype_keys : list string :=
  [ "constructor"; "__defineGetter__"; "__defineSetter__"; "hasOwnProperty";
    "__lookupGetter__"; "__lookupSetter__"; "isPrototypeOf";
    "propertyIsEnumerable"; "toString"; "valueOf"; "__proto__";
    "toLocaleString" ].

Definition inherited (k : string) : bool :=
  existsb (String.eqb k) object_prototype_keys.

End JS.

(** ** Plain objects used as maps *)

Section Obj.
Variable V : Type.

Definition obj := list (string * V).

Definition obj_keys (o : obj) : list string := map fst o.
Definition obj_values (o : obj) : list V := map snd o.

Fixpoint obj_get (o : obj) (k : string) : option V :=
  match o with
  | [] => None
  | (k', v) :: t => if k' =? k then Some v else obj_get t k
  end.

(** [o[k] = v]: an existing key keeps its position. *)
Fixpoint obj_set (o : obj) (k : string) (v : V) : obj :=
  match o with
  | [] => [(k, v)]
  | (k', v') :: t =>
      if k' =? k then (k, v) :: t else (k', v') :: obj_set t k v
  end.

(** [delete o[k]]. *)
Definition obj_delete (o : obj) (k : string) : obj :=
  filter (fun kv => negb (fst kv =? k)) o.

End Obj.

(** ** [Set] of strings *)

Definition sset := list string.

Definition set_has (s : sset) (x : string) : bool := existsb (String.eqb x) s.

Definition set_add (s : sset) (x : string) : sset :=
  if set_has s x then s else s ++ [x].

Definition set_delete (s : sset) (x : string) : sset :=
  filter (fun y => negb (y =? x)) s.

Definition set_size (s : sset) : nat := length s.

(** ** Data model *)

(** The decoded token, [socket.user]. *)
Record Claims := mkClaims {
  c_userId : string;
  c_username : JS.value;          (* socket.user.username *)
  c_user_username : JS.value      (* socket.user.user?.username *)
}.

Record Socket := mkSocket {
  id : string;
  user : Claims
}.

Inductive Status := online | offline.

Definition Status_eqb (a b : Status) : bool :=
  match a, b with
  | online, online | offline, offline => true
  | _, _ => false
  end.

(** A value of [users]. *)
Record Session := mkSession {
  socketId : string;
  userId : string;
  username : string;
  status : Status;
  lastActive : Z;
  preferredLanguage : string
}.

Definition set_status (u : Session) (s : Status) : Session :=
  mkSession (socketId u) (userId u) (username u) s (lastActive u)
            (preferredLanguage u).

Definition set_lastActive (u : Session) (t : Z) : Session :=
  mkSession (socketId u) (userId u) (username u) (status u) t
            (preferredLanguage u).

Definition set_preferredLanguage (u : Session) (l : string) : Session :=
  mkSession (socketId u) (userId u) (username u) (status u) (lastActive u) l.

(** The chat message built by the [sendMessage] handler. *)
Record Message := mkMessage {
  senderId : string;
  senderName : JS.value;
  content : JS.value;
  timestamp : Z;
  m_roomId : JS.value
}.

(** An element of the [existingParticipants] list. *)
Record Participant := mkParticipant {
  p_socketId : string;
  p_userId : JS.value;
  p_username : JS.value
}.

(** Outbound events with their payloads. *)
Inductive Event :=
| userStatusChange (userId : string) (st : Status)
| languagePreferenceUpdated (language : string) (success : bool)
| userJoinedRoom (userId : string) (username : JS.value) (roomId : string)
| userLeftRoom (userId : string) (username : JS.value) (roomId : string)
| receiveMessage (m : Message)
| messageSent (success : bool) (m : Message)
| incomingCall (from : string) (fromName : JS.value) (offer : JS.value)
               (callType : JS.value) (roomId : JS.value)
| incomingCallDelivered (to : JS.value) (socketId : string)
| userUnavailable (to : JS.value)
| userJoinedGroupCall (userId : string) (username : JS.value)
                      (socketId : string)
| userLeftGroupCall (userId : string) (username : JS.value)
                    (socketId : string)
| existingParticipants (callRoomId : string) (ps : list Participant).

(** Where an emit is addressed. *)
Inductive Dest :=
| ToSocket (sid : string)                      (* socket.emit *)
| IoTo (room : string)                         (* io.to(room).emit *)
| SocketTo (sender : string) (room : string)   (* socket.to(room).emit *)
| Broadcast (sender : string).                 (* socket.broadcast.emit *)

Inductive Effect :=
| Emit (d : Dest) (e : Event)
| SetTimeout (ms : Z) (sid : string).
  (* setTimeout of the deferred-deletion callback closed over socket [sid] *)

(** Server state: the two module-level objects and the part of the
    transport the handlers read. *)
Record State := mkState {
  users : obj Session;
  rooms : obj sset;
  sockets : list string;        (* keys of io.sockets.sockets: open channels *)
  adapter : obj sset            (* transport room groups: room -> socket ids *)
}.

Definition init : State := mkState [] [] [] [].

Definition with_users (st : State) (us : obj Session) : State :=
  mkState us (rooms st) (sockets st) (adapter st).

Definition with_rooms (st : State) (rs : obj sset) : State :=
  mkState (users st) rs (sockets st) (adapter st).

Definition with_adapter (st : State) (a : obj sset) : State :=
  mkState (users st) (rooms st) (sockets st) a.

Definition with_sockets (st : State) (l : list string) : State :=
  mkState (users st) (rooms st) l (adapter st).

(** ** Transport operations called by the handlers *)

Definition members (a : obj sset) (room : string) : sset :=
  match obj_get a room with
  | Some s => s
  | None => []
  end.

(** [socket.join(room)] *)
Definition socket_join (sid room : string) (st : State) : State :=
  with_adapter st (obj_set (adapter st) room (set_add (members (adapter st) room) sid)).

(** [socket.leave(room)]: the group disappears with its last member. *)
Definition socket_leave (sid room : string) (st : State) : State :=
  match obj_get (adapter st) room with
  | Some s =>
      let s' := set_delete s sid in
      with_adapter st
        (match s' with
         | [] => obj_delete (adapter st) room
         | _ => obj_set (adapter st) room s'
         end)
  | None => st
  end.

(** [io.sockets.sockets.get(sid)] is defined. *)
Definition is_live (st : State) (sid : string) : bool :=
  existsb (String.eqb sid) (sockets st).

(** ** The registry *)

(** [findUserByUserId]: [Object.values(users).find(user => user.userId === userId)]. *)
Definition findUserByUserId (us : obj Session) (uid : JS.value) : option Session :=
  find (fun u => JS.strict_eq (userId u) uid) (obj_values us).

(** The resolved display name, line 148. *)
Definition resolve_username (c : Claims) : string :=
  JS.or_else (c_username c) (JS.or_else (c_user_username c) "Unknown").

(** [Object.keys(users).forEach(sid => { if (users[sid].userId === userId &&
    sid !== socket.id) delete users[sid]; })] *)
Definition cleanup_step (uid sock : string) (us : obj Session) (sid : string)
  : obj Session :=
  match obj_get us sid with
  | Some u =>
      if (userId u =? uid) && negb (sid =? sock) then obj_delete us sid else us
  | None => us
  end.

Definition cleanup_old (uid sock : string) (us : obj Session) : obj Session :=
  fold_left (cleanup_step uid sock) (obj_keys us) us.

Definition new_session (socket : Socket) (now : Z) : Session :=
  mkSession (id socket) (c_userId (user socket)) (resolve_username (user socket))
            online now "en".

(** The body of [io.on('connection', ...)] up to the registration of the
    event handlers. *)
Definition on_connection (socket : Socket) (now : Z) (st : State)
  : State * list Effect :=
  let userId := c_userId (user socket) in
  let us1 := cleanup_old userId (id socket) (users st) in
  let us2 := obj_set us1 (id socket) (new_session socket now) in
  (with_users st us2,
   [Emit (Broadcast (id socket)) (userStatusChange userId online)]).

(** ** Event payloads *)

Record LanguageData := mkLanguageData {
  language : JS.value
}.

Record SendMessageData := mkSendMessageData {
  receiverId : JS.value;
  sm_content : JS.value;
  sm_roomId : JS.value
}.

Record CallUserData := mkCallUserData {
  to : JS.value;
  offer : JS.value;
  callType : JS.value;
  cu_roomId : JS.value
}.

Record JoinGroupCallData := mkJoinGroupCallData {
  callRoomId : string;
  joinUserId : JS.value           (* the payload's own [userId] field *)
}.

(** ** Handlers *)

(** [socket.on('updateLanguagePreference', ...)] for a payload that can be
    destructured; [updateLanguagePreference_listener] below adds the event
    that carries no payload. *)
Definition on_updateLanguagePreference (socket : Socket) (data : LanguageData)
  (st : State) : State * list Effect :=
  match language data, obj_get (users st) (id socket) with
  | Some l, Some u =>
      if JS.truthy_str l then
        (with_users st (obj_set (users st) (id socket) (set_preferredLanguage u l)),
         [Emit (ToSocket (id socket)) (languagePreferenceUpdated l true)])
      else (st, [])
  | _, _ => (st, [])
  end.

(** How a handler that dereferences [rooms[roomId]] ends: it returns, or a
    [TypeError] leaves it after the side effects already made. *)
Inductive Completion :=
| Returned (st : State) (out : list Effect)
| Threw (st : State) (out : list Effect).

Definition state_of (c : Completion) : State :=
  match c with
  | Returned st _ | Threw st _ => st
  end.

Definition out_of (c : Completion) : list Effect :=
  match c with
  | Returned _ out | Threw _ out => out
  end.

(** [rooms[roomId]] read through the prototype chain. *)
Inductive RoomRef :=
| OwnRoom (s : sset)       (* a Set stored by joinRoom *)
| ProtoValue               (* a value inherited from Object.prototype: truthy, not a Set *)
| NoRoom.                  (* undefined *)

Definition rooms_ref (rs : obj sset) (roomId : string) : RoomRef :=
  match obj_get rs roomId with
  | Some s => OwnRoom s
  | None => if JS.inherited roomId then ProtoValue else NoRoom
  end.

(** [socket.on('joinRoom', ...)] *)
Definition on_joinRoom (socket : Socket) (roomId : string) (st : State)
  : Completion :=
  let userId := c_userId (user socket) in
  let st1 := socket_join (id socket) roomId st in
  (* if (!rooms[roomId]) rooms[roomId] = new Set(); *)
  let rs1 :=
    match rooms_ref (rooms st1) roomId with
    | NoRoom => obj_set (rooms st1) roomId []
    | _ => rooms st1
    end in
  (* rooms[roomId].add(userId); *)
  match rooms_ref rs1 roomId with
  | OwnRoom s =>
      Returned (with_rooms st1 (obj_set rs1 roomId (set_add s userId)))
        [Emit (SocketTo (id socket) roomId)
              (userJoinedRoom userId (c_username (user socket)) roomId)]
  | _ => Threw (with_rooms st1 rs1) []
  end.

(** [socket.on('leaveRoom', ...)] *)
Definition on_leaveRoom (socket : Socket) (roomId : string) (st : State)
  : Completion :=
  let userId := c_userId (user socket) in
  let st1 := socket_leave (id socket) roomId st in
  let emit := [Emit (SocketTo (id socket) roomId)
                    (userLeftRoom userId (c_username (user socket)) roomId)] in
  match rooms_ref (rooms st1) roomId with
  | OwnRoom s =>
      let s' := set_delete s userId in
      let rs1 := obj_set (rooms st1) roomId s' in
      let rs2 := if set_size s' =? 0 then obj_delete rs1 roomId else rs1 in
      Returned (with_rooms st1 rs2) emit
  | ProtoValue => Threw st1 []
  | NoRoom => Returned st1 emit
  end%nat.

(** [socket.on('sendMessage', ...)] *)
Definition on_sendMessage (socket : Socket) (data : SendMessageData) (now : Z)
  (st : State) : State * list Effect :=
  let userId := c_userId (user socket) in
  let message :=
    mkMessage userId (c_username (user socket)) (sm_content data) now
              (sm_roomId data) in
  let relay :=
    if JS.truthy (receiverId data) then
      match findUserByUserId (users st) (receiverId data) with
      | Some receiverUser =>
          [Emit (IoTo (socketId receiverUser)) (receiveMessage message)]
      | None => []
      end
    else if JS.truthy (sm_roomId data) then
      [Emit (SocketTo (id socket) (JS.to_string (sm_roomId data)))
            (receiveMessage message)]
    else [] in
  (st, relay ++ [Emit (ToSocket (id socket)) (messageSent true message)]).

(** [socket.on('callUser', ...)] *)
Definition on_callUser (socket : Socket) (data : CallUserData) (st : State)
  : State * list Effect :=
  let userId := c_userId (user socket) in
  let fromName := c_username (user socket) in
  if JS.truthy (cu_roomId data) then
    (st, [Emit (SocketTo (id socket) (JS.to_string (cu_roomId data)))
               (incomingCall userId fromName (offer data) (callType data)
                             (cu_roomId data))])
  else
    match findUserByUserId (users st) (to data) with
    | Some toUser =>
        if is_live st (socketId toUser) then
          (st, [Emit (IoTo (socketId toUser))
                     (incomingCall userId fromName (offer data)
                                   (callType data) None);
                Emit (ToSocket (id socket))
                     (incomingCallDelivered (to data) (socketId toUser))])
        else
          (with_users st (obj_delete (users st) (socketId toUser)),
           [Emit (ToSocket (id socket)) (userUnavailable (to data))])
    | None => (st, [])
    end.

(** [sid => ({ socketId: sid, userId: users[sid]?.userId,
    username: users[sid]?.username })] *)
Definition participant_of (us : obj Session) (sid : string) : Participant :=
  mkParticipant sid
    (option_map userId (obj_get us sid))
    (option_map username (obj_get us sid)).

(** [socket.on('joinGroupCall', ...)].  The promise returned by
    [io.in(callRoomId).allSockets()] holds the member set read when it is
    called, and its continuation runs before the next event is handled, so
    the continuation is part of the handler. *)
Definition on_joinGroupCall (socket : Socket) (data : JoinGroupCallData)
  (st : State) : State * list Effect :=
  let userId := c_userId (user socket) in
  let st1 := socket_join (id socket) (callRoomId data) st in
  let sockets := members (adapter st1) (callRoomId data) in
  let participants :=
    filter (fun p => JS.truthy (p_userId p))
      (map (participant_of (users st1))
         (filter (fun sid => negb (sid =? id socket)) sockets)) in
  (st1,
   [Emit (SocketTo (id socket) (callRoomId data))
         (userJoinedGroupCall (JS.or_else (joinUserId data) userId)
                              (c_username (user socket)) (id socket));
    Emit (ToSocket (id socket))
         (existingParticipants (callRoomId data) participants)]).

(** [socket.on('leaveGroupCall', ...)] *)
Definition on_leaveGroupCall (socket : Socket) (callRoomId : string)
  (st : State) : State * list Effect :=
  (socket_leave (id socket) callRoomId st,
   [Emit (SocketTo (id socket) callRoomId)
         (userLeftGroupCall (c_userId (user socket)) (c_username (user socket))
                            (id socket))]).

(** The room loop of the disconnect handler:
    [Object.keys(rooms).forEach(roomId => { if (rooms[roomId]?.has(userId))
    { rooms[roomId].delete(userId); if (rooms[roomId].size === 0) delete
    rooms[roomId]; } })] *)
Definition remove_from_room (userId : string) (rs : obj sset) (roomId : string)
  : obj sset :=
  match obj_get rs roomId with
  | Some s =>
      if set_has s userId then
        let s' := set_delete s userId in
        let rs1 := obj_set rs roomId s' in
        if (set_size s' =? 0)%nat then obj_delete rs1 roomId else rs1
      else rs
  | None => rs
  end.

Definition remove_from_rooms (userId : string) (rs : obj sset) : obj sset :=
  fold_left (remove_from_room userId) (obj_keys rs) rs.

Definition five_minutes : Z := 5 * 60 * 1000.

(** [socket.on('disconnect', ...)] *)
Definition on_disconnect (socket : Socket) (now : Z) (st : State)
  : State * list Effect :=
  let userId := c_userId (user socket) in
  match obj_get (users st) (id socket) with
  | Some u =>
      let u1 := set_status u offline in
      let u2 := set_lastActive u1 now in
      (with_rooms (with_users st (obj_set (users st) (id socket) u2))
                  (remove_from_rooms userId (rooms st)),
       [Emit (Broadcast (id socket)) (userStatusChange userId offline);
        SetTimeout five_minutes (id socket)])
  | None => (st, [])
  end.

(** The callback handed to [setTimeout] by the disconnect handler of the
    socket [sid]. *)
Definition deletion_timer (sid : string) (st : State) : State :=
  match obj_get (users st) sid with
  | Some u =>
      if Status_eqb (status u) offline
      then with_users st (obj_delete (users st) sid)
      else st
  | None => st
  end.

(** The callback of [setInterval]: the periodic sweep. *)
Definition sweep_step (st : State) (us : obj Session) (socketId : string)
  : obj Session :=
  if is_live st socketId then us else obj_delete us socketId.

Definition sweep (st : State) : State :=
  with_users st (fold_left (sweep_step st) (obj_keys (users st)) (users st)).

(** ** The transport around the handlers

    The transport adds a channel to [io.sockets.sockets] (and to the group
    named by its own id) before it raises [connection], and has removed it
    from there and from every group when it raises [disconnect]. *)

Definition transport_open (sid : string) (st : State) : State :=
  socket_join sid sid (with_sockets st (set_add (sockets st) sid)).

Definition transport_close (sid : string) (st : State) : State :=
  with_adapter (with_sockets st (set_delete (sockets st) sid))
    (filter (fun rs => negb (set_size (snd rs) =? 0)%nat)
       (map (fun rs => (fst rs, set_delete (snd rs) sid)) (adapter st))).

(** Channels an emit is delivered to. *)
Definition recipients (st : State) (d : Dest) : list string :=
  match d with
  | ToSocket sid => [sid]
  | IoTo room => members (adapter st) room
  | SocketTo sender room =>
      filter (fun sid => negb (sid =? sender)) (members (adapter st) room)
  | Broadcast sender => filter (fun sid => negb (sid =? sender)) (sockets st)
  end.

(** Events of [out] that reach channel [sid], in order. *)
Fixpoint received (st : State) (out : list Effect) (sid : string)
  : list Event :=
  match out with
  | [] => []
  | Emit d e :: t =>
      if existsb (String.eqb sid) (recipients st d)
      then e :: received st t sid
      else received st t sid
  | SetTimeout _ _ :: t => received st t sid
  end.

(** ** Runs *)

Inductive Input :=
| Connection (socket : Socket) (now : Z)
| UpdateLanguagePreference (socket : Socket) (data : LanguageData)
| JoinRoom (socket : Socket) (roomId : string)
| LeaveRoom (socket : Socket) (roomId : string)
| SendMessage (socket : Socket) (data : SendMessageData) (now : Z)
| CallUser (socket : Socket) (data : CallUserData)
| JoinGroupCall (socket : Socket) (data : JoinGroupCallData)
| LeaveGroupCall (socket : Socket) (callRoomId : string)
| Disconnect (socket : Socket) (now : Z)
| DeletionTimer (sid : string)
| Sweep.

Definition step (st : State) (i : Input) : State * list Effect :=
  match i with
  | Connection socket now => on_connection socket now (transport_open (id socket) st)
  | UpdateLanguagePreference socket data => on_updateLanguagePreference socket data st
  | JoinRoom socket roomId =>
      let c := on_joinRoom socket roomId st in (state_of c, out_of c)
  | LeaveRoom socket roomId =>
      let c := on_leaveRoom socket roomId st in (state_of c, out_of c)
  | SendMessage socket data now => on_sendMessage socket data now st
  | CallUser socket data => on_callUser socket data st
  | JoinGroupCall socket data => on_joinGroupCall socket data st
  | LeaveGroupCall socket callRoomId => on_leaveGroupCall socket callRoomId st
  | Disconnect socket now => on_disconnect socket now (transport_close (id socket) st)
  | DeletionTimer sid => (deletion_timer sid st, [])
  | Sweep => (sweep st, [])
  end.

Definition run (st : State) (inputs : list Input) : State :=
  fold_left (fun s i => fst (step s i)) inputs st.

(** ** Vocabulary of the properties *)

(** What a loop over [Object.keys(o)] that rewrites or deletes the entry
    under the current key computes. *)
Definition obj_filter_map (V : Type) (f : string -> V -> option V) (o : obj V)
  : obj V :=
  flat_map (fun kv => match f (fst kv) (snd kv) with
                      | Some v' => [(fst kv, v')]
                      | None => []
                      end) o.

(** Sessions of the registry held for a user id. *)
Definition sessions_of (us : obj Session) (uid : string) : list Session :=
  filter (fun u => userId u =? uid) (obj_values us).

(** Every entry of [users] is stored under its own [socketId]. *)
Definition keyed_by_socketId (us : obj Session) : Prop :=
  forall k u, In (k, u) us -> socketId u = k.

Definition users_wf (us : obj Session) : Prop :=
  NoDup (obj_keys us) /\ keyed_by_socketId us.

(** Invariant I1. *)
Definition one_session_per_user (us : obj Session) : Prop :=
  forall k1 u1 k2 u2,
    In (k1, u1) us -> In (k2, u2) us -> userId u1 = userId u2 -> k1 = k2.

(** An admission: the socket and the time of its [connection] event. *)
Definition Admission := (Socket * Z)%type.

Definition admissions (l : list Admission) : list Input :=
  map (fun a => Connection (fst a) (snd a)) l.

Definition last_admission (uid : string) (l : list Admission)
  : option Admission :=
  find (fun a => c_userId (user (fst a)) =? uid) (rev l).

(** Entries the connection handler keeps before it registers [sock]. *)
Definition survives_admission (uid sock : string) (kv : string * Session)
  : bool :=
  negb ((userId (snd kv) =? uid) && negb (fst kv =? sock)).

(** The message the [sendMessage] handler of [socket] builds at time [now]. *)
Definition message_of (socket : Socket) (data : SendMessageData) (now : Z)
  : Message :=
  mkMessage (c_userId (user socket)) (c_username (user socket))
            (sm_content data) now (sm_roomId data).

(** Invariant I2. *)
Definition rooms_nonempty (rs : obj sset) : Prop :=
  forall roomId s, In (roomId, s) rs -> s <> [].

(** A channel known to the registry under a truthy user id. *)
Definition resolves (us : obj Session) (sid : string) : bool :=
  match obj_get us sid with
  | Some u => JS.truthy_str (userId u)
  | None => false
  end.

(** What the disconnect handler does to one room. *)
Definition without_member (userId : string) (_ : string) (s : sset)
  : option sset :=
  if set_has s userId then
    match set_delete s userId with
    | [] => None
    | s' => Some s'
    end
  else Some s.

(** The session of a disconnected connection, as the handler leaves it. *)
Definition gone_offline (u : Session) (now : Z) : Session :=
  set_lastActive (set_status u offline) now.

(** Inputs after which the session stored under the closed connection [sid]
    of user [uid] is still in the registry: everything but the deletion
    timer of [sid], an admission for [uid] (or reusing [sid]), the periodic
    sweep, a direct call to [uid], and events of the closed connection
    itself. *)
Definition leaves_session (sid uid : string) (i : Input) : bool :=
  match i with
  | Connection s _ => negb (id s =? sid) && negb (c_userId (user s) =? uid)
  | UpdateLanguagePreference s _ => negb (id s =? sid)
  | Disconnect s _ => negb (id s =? sid)
  | DeletionTimer k => negb (k =? sid)
  | Sweep => false
  | CallUser s d => JS.truthy (cu_roomId d) || negb (JS.strict_eq uid (to d))
  | _ => true
  end.

(** The two evictions named by the disconnect-cleanup property of the
    specification: the deletion timer of [sid] and an admission for [uid]. *)
Definition timer_or_readmission (sid uid : string) (i : Input) : bool :=
  match i with
  | Connection s _ => c_userId (user s) =? uid
  | DeletionTimer k => k =? sid
  | _ => false
  end.

(** [us'] comes from [us] by deleting entries and by rewriting fields other
    than [socketId] and [userId]. *)
Definition registry_update (us us' : obj Session) : Prop :=
  NoDup (obj_keys us') /\
  forall k u', In (k, u') us' ->
               exists u, In (k, u) us /\ socketId u' = socketId u /\
                         userId u' = userId u.

(** ** Sample connections *)

Definition alice1 : Socket := mkSocket "s1" (mkClaims "alice" (Some "Alice") None).
Definition bob1 : Socket := mkSocket "s2" (mkClaims "bob" (Some "Bob") None).
Definition alice2 : Socket := mkSocket "s3" (mkClaims "alice" (Some "Alice") None).
(** A credential without any username. *)
Definition carol1 : Socket := mkSocket "s4" (mkClaims "carol" None None).

Definition alice_and_bob : State :=
  run init [Connection alice1 100; Connection bob1 200].

Definition three_online : State :=
  run init [Connection alice1 100; Connection bob1 200; Connection carol1 300].

(** Alice and Bob in the group call [call-1], Carol online. *)
Definition in_call : State :=
  run three_online
      [JoinGroupCall alice1 (mkJoinGroupCallData "call-1" None);
       JoinGroupCall bob1 (mkJoinGroupCallData "call-1" None)].

(** Alice connected twice: [s3] superseded [s1]. *)
Definition alice_reconnected : State :=
  run init [Connection alice1 100; Connection alice2 200].

(** Alice and Bob in the chat room [lobby], Alice alone in [solo]. *)
Definition chatting : State :=
  run alice_and_bob
      [JoinRoom alice1 "lobby"; JoinRoom bob1 "lobby"; JoinRoom alice1 "solo"].

(** ** Signalling relays

    The remaining handlers read the registry and emit; none of them writes
    [users] or [rooms].  Their events are kept apart from [Event]. *)

Inductive Signal :=
| userTyping (userId : string) (username : JS.value) (isTyping : option bool)
| callAnswered (from : string) (answer : JS.value) (roomId : JS.value)
| iceCandidate (from : string) (candidate : JS.value) (roomId : JS.value)
| incomingCallAck (from : string) (callSessionId : JS.value)
| callEnded (from : string) (roomId : JS.value)
| groupCallOffer (fromSocketId fromUserId : string) (fromUsername : JS.value)
                 (offer : JS.value) (callRoomId : JS.value)
| groupCallAnswer (fromSocketId fromUserId : string) (fromUsername : JS.value)
                  (answer : JS.value) (callRoomId : JS.value)
| groupCallIceCandidate (fromSocketId fromUserId : string)
                        (candidate : JS.value) (callRoomId : JS.value)
| participantSpeaking (userId : string) (username : JS.value)
                      (isSpeaking : option bool).

Definition Relay := list (Dest * Signal).

Record TypingData := mkTypingData {
  ty_receiverId : JS.value;
  ty_roomId : JS.value;
  isTyping : option bool
}.

Record AnswerCallData := mkAnswerCallData {
  ac_to : JS.value;
  answer : JS.value;
  ac_roomId : JS.value
}.

Record IceCandidateData := mkIceCandidateData {
  ic_to : JS.value;
  candidate : JS.value;
  ic_roomId : JS.value
}.

Record IncomingCallAckData := mkIncomingCallAckData {
  ack_from : JS.value;
  callSessionId : JS.value
}.

Record EndCallData := mkEndCallData {
  ec_to : JS.value;
  ec_roomId : JS.value
}.

(** Payload of [groupCallOffer], [groupCallAnswer] and
    [groupCallIceCandidate]; [gc_body] is the offer, the answer or the
    candidate. *)
Record GroupCallData := mkGroupCallData {
  targetSocketId : string;
  gc_body : JS.value;
  gc_callRoomId : JS.value
}.

Record SpeakingData := mkSpeakingData {
  sp_callRoomId : string;
  isSpeaking : option bool
}.

(** [socket.on('typing', ...)] *)
Definition on_typing (socket : Socket) (data : TypingData) (st : State)
  : Relay :=
  let userId := c_userId (user socket) in
  let ev := userTyping userId (c_username (user socket)) (isTyping data) in
  if JS.truthy (ty_receiverId data) then
    match findUserByUserId (users st) (ty_receiverId data) with
    | Some receiverUser => [(IoTo (socketId receiverUser), ev)]
    | None => []
    end
  else if JS.truthy (ty_roomId data) then
    [(SocketTo (id socket) (JS.to_string (ty_roomId data)), ev)]
  else [].

(** [socket.on('answerCall', ...)] *)
Definition on_answerCall (socket : Socket) (data : AnswerCallData) (st : State)
  : Relay :=
  let userId := c_userId (user socket) in
  if JS.truthy (ac_roomId data) then
    [(SocketTo (id socket) (JS.to_string (ac_roomId data)),
      callAnswered userId (answer data) (ac_roomId data))]
  else
    match findUserByUserId (users st) (ac_to data) with
    | Some toUser =>
        [(IoTo (socketId toUser), callAnswered userId (answer data) None)]
    | None => []
    end.

(** [socket.on('iceCandidate', ...)] *)
Definition on_iceCandidate (socket : Socket) (data : IceCandidateData)
  (st : State) : Relay :=
  let userId := c_userId (user socket) in
  if JS.truthy (ic_roomId data) then
    [(SocketTo (id socket) (JS.to_string (ic_roomId data)),
      iceCandidate userId (candidate data) (ic_roomId data))]
  else
    match findUserByUserId (users st) (ic_to data) with
    | Some toUser =>
        [(IoTo (socketId toUser), iceCandidate userId (candidate data) None)]
    | None => []
    end.

(** [socket.on('incomingCallAck', ...)] *)
Definition on_incomingCallAck (socket : Socket) (data : IncomingCallAckData)
  (st : State) : Relay :=
  match findUserByUserId (users st) (ack_from data) with
  | Some callerUser =>
      [(IoTo (socketId callerUser),
        incomingCallAck (c_userId (user socket)) (callSessionId data))]
  | None => []
  end.

(** [socket.on('endCall', ...)] *)
Definition on_endCall (socket : Socket) (data : EndCallData) (st : State)
  : Relay :=
  let userId := c_userId (user socket) in
  if JS.truthy (ec_roomId data) then
    [(SocketTo (id socket) (JS.to_string (ec_roomId data)),
      callEnded userId (ec_roomId data))]
  else
    match findUserByUserId (users st) (ec_to data) with
    | Some toUser => [(IoTo (socketId toUser), callEnded userId None)]
    | None => []
    end.

(** [socket.on('groupCallOffer', ...)] *)
Definition on_groupCallOffer (socket : Socket) (data : GroupCallData) : Relay :=
  [(IoTo (targetSocketId data),
    groupCallOffer (id socket) (c_userId (user socket))
                   (c_username (user socket)) (gc_body data)
                   (gc_callRoomId data))].

(** [socket.on('groupCallAnswer', ...)] *)
Definition on_groupCallAnswer (socket : Socket) (data : GroupCallData) : Relay :=
  [(IoTo (targetSocketId data),
    groupCallAnswer (id socket) (c_userId (user socket))
                    (c_username (user socket)) (gc_body data)
                    (gc_callRoomId data))].

(** [socket.on('groupCallIceCandidate', ...)] *)
Definition on_groupCallIceCandidate (socket : Socket) (data : GroupCallData)
  : Relay :=
  [(IoTo (targetSocketId data),
    groupCallIceCandidate (id socket) (c_userId (user socket)) (gc_body data)
                          (gc_callRoomId data))].

(** [socket.on('groupCallSpeaking', ...)] *)
Definition on_groupCallSpeaking (socket : Socket) (data : SpeakingData)
  : Relay :=
  [(SocketTo (id socket) (sp_callRoomId data),
    participantSpeaking (c_userId (user socket)) (c_username (user socket))
                        (isSpeaking data))].

(** The user id a signal names as its sender. *)
Definition signal_sender (e : Signal) : string :=
  match e with
  | userTyping u _ _ | callAnswered u _ _ | iceCandidate u _ _
  | incomingCallAck u _ | callEnded u _
  | groupCallOffer _ u _ _ _ | groupCallAnswer _ u _ _ _
  | groupCallIceCandidate _ u _ _ | participantSpeaking u _ _ => u
  end.

(** The display name a signal carries, if its kind has one. *)
Definition signal_username (e : Signal) : option JS.value :=
  match e with
  | userTyping _ n _ | groupCallOffer _ _ n _ _ | groupCallAnswer _ _ n _ _
  | participantSpeaking _ n _ => Some n
  | _ => None
  end.

(** The connection id a group-call signal names as its origin. *)
Definition signal_socket (e : Signal) : option string :=
  match e with
  | groupCallOffer s _ _ _ _ | groupCallAnswer s _ _ _ _
  | groupCallIceCandidate s _ _ _ => Some s
  | _ => None
  end.

Definition is_room_broadcast (d : Dest) : bool :=
  match d with
  | SocketTo _ _ => true
  | _ => false
  end.

(** ** Authentication middleware ([io.use])

    [jwt.verify] is the token verifier, a parameter: [None] when it
    throws. *)

(** [s.split(sep)] for a one-character separator. *)
Fixpoint split_on (sep : Ascii.ascii) (s : string) : list string :=
  match s with
  | EmptyString => [EmptyString]
  | String c t =>
      if Ascii.eqb c sep then EmptyString :: split_on sep t
      else match split_on sep t with
           | h :: r => String c h :: r
           | [] => [String c EmptyString]
           end
  end.

Record Handshake := mkHandshake {
  auth_token : JS.value;        (* socket.handshake.auth?.token *)
  authorization : JS.value      (* socket.handshake.headers?.authorization *)
}.

(** [auth?.token || headers?.authorization?.split(' ')[1]] *)
Definition handshake_token (h : Handshake) : JS.value :=
  if JS.truthy (auth_token h) then auth_token h
  else match authorization h with
       | Some a => nth_error (split_on Ascii.Space a) 1
       | None => None
       end.

Inductive AuthOutcome :=
| AuthError (message : string)          (* next(new Error(message)) *)
| Authenticated (decoded : Claims).     (* socket.user = decoded; next() *)

Definition no_token_message : string :=
  "Authentication error: No token provided".

Definition invalid_token_message : string :=
  "Authentication error: Invalid token".

Section Middleware.
Variable jwt_verify : string -> option Claims.

Definition authenticate (h : Handshake) : AuthOutcome :=
  if JS.truthy (handshake_token h) then
    match jwt_verify (JS.to_string (handshake_token h)) with
    | Some decoded => Authenticated decoded
    | None => AuthError invalid_token_message
    end
  else AuthError no_token_message.

End Middleware.

(** A string without a space. *)
Fixpoint spaceless (s : string) : bool :=
  match s with
  | EmptyString => true
  | String c t => negb (Ascii.eqb c Ascii.Space) && spaceless t
  end.

(** ** The API-route server (src/app/api/socket/route.js)

    The route keeps a registry of its own.  Its sessions may hold an
    undefined [preferredLanguage], so they get a record of their own; the
    decoded claims, the sockets and the emitted events are those above. *)

Module Route.

Record Session := mkSession {
  socketId : string;
  userId : string;
  username : string;
  status : Status;
  lastActive : Z;
  preferredLanguage : JS.value
}.

Record State := mkState {
  users : obj Session;
  sockets : list string         (* keys of io.sockets.sockets *)
}.

Definition init : State := mkState [] [].

(** [Object.keys(users).forEach(sid => { if (users[sid].userId === userId &&
    sid !== socket.id) delete users[sid]; })] *)
Definition cleanup_step (uid sock : string) (us : obj Session) (sid : string)
  : obj Session :=
  match obj_get us sid with
  | Some u =>
      if (userId u =? uid) && negb (sid =? sock) then obj_delete us sid else us
  | None => us
  end.

Definition cleanup_old (uid sock : string) (us : obj Session) : obj Session :=
  fold_left (cleanup_step uid sock) (obj_keys us) us.

Definition new_session (socket : Socket) (now : Z) : Session :=
  mkSession (id socket) (c_userId (user socket)) (resolve_username (user socket))
            online now (Some "en").

(** [io.on('connection', ...)] up to the registration of the handlers. *)
Definition on_connection (socket : Socket) (now : Z) (st : State)
  : State * list Effect :=
  let userId := c_userId (user socket) in
  let us1 := cleanup_old userId (id socket) (users st) in
  (mkState (obj_set us1 (id socket) (new_session socket now)) (sockets st),
   [Emit (Broadcast (id socket)) (userStatusChange userId online)]).

(** [socket.on('disconnect', ...)] *)
Definition on_disconnect (socket : Socket) (st : State)
  : State * list Effect :=
  match obj_get (users st) (id socket) with
  | Some _ =>
      (mkState (obj_delete (users st) (id socket)) (sockets st),
       [Emit (Broadcast (id socket))
             (userStatusChange (c_userId (user socket)) offline)])
  | None => (st, [])
  end.

(** [socket.on('updateLanguagePreference', ...)] *)
Definition on_updateLanguagePreference (socket : Socket) (data : LanguageData)
  (st : State) : State :=
  match obj_get (users st) (id socket) with
  | Some u =>
      mkState (obj_set (users st) (id socket)
                 (mkSession (socketId u) (userId u) (username u) (status u)
                            (lastActive u) (language data)))
              (sockets st)
  | None => st
  end.

(** The callback of [setInterval]. *)
Definition sweep_step (st : State) (us : obj Session) (socketId : string)
  : obj Session :=
  if existsb (String.eqb socketId) (sockets st) then us
  else obj_delete us socketId.

Definition sweep (st : State) : State :=
  mkState (fold_left (sweep_step st) (obj_keys (users st)) (users st))
          (sockets st).

Inductive Input :=
| Connection (socket : Socket) (now : Z)
| UpdateLanguagePreference (socket : Socket) (data : LanguageData)
| Disconnect (socket : Socket)
| Sweep.

(** As above, the transport opens the channel before [connection] and has
    closed it when it raises [disconnect]. *)
Definition step (st : State) (i : Input) : State :=
  match i with
  | Connection socket now =>
      fst (on_connection socket now
             (mkState (users st) (set_add (sockets st) (id socket))))
  | UpdateLanguagePreference socket data =>
      on_updateLanguagePreference socket data st
  | Disconnect socket =>
      fst (on_disconnect socket
             (mkState (users st) (set_delete (sockets st) (id socket))))
  | Sweep => sweep st
  end.

Definition run (st : State) (inputs : list Input) : State :=
  fold_left step inputs st.

End Route.

(** ** An event without payload

    The listener of [updateLanguagePreference] applied to whatever the
    client sent.  [None] is an event without payload ([undefined] or
    [null]): [const { language } = data] then throws a [TypeError] before
    anything else runs.  Every other payload is destructured; one without a
    [language] property has [language data = None]. *)
Definition updateLanguagePreference_listener (socket : Socket)
  (payload : option LanguageData) (st : State) : Completion :=
  match payload with
  | None => Threw st []
  | Some data =>
      Returned (fst (on_updateLanguagePreference socket data st))
               (snd (on_updateLanguagePreference socket data st))
  end.

(** * Properties *)

Unset Implicit Arguments.

(** ** Objects and sets *)

Section ObjFacts.
Variable V : Type.
Implicit Types (o : obj V) (k : string) (v : V).

Lemma obj_get_In o k v : obj_get o k = Some v -> In (k, v) o.
Proof.
  induction o as [|[k' v'] t IH]; simpl; [discriminate|].
  destruct (String.eqb_spec k' k) as [->|_].
  - intros [= ->]. now left.
  - intros H. right. auto.
Qed.

Lemma obj_get_None o k : obj_get o k = None <-> ~ In k (obj_keys o).
Proof.
  induction o as [|[k' v'] t IH]; simpl; [tauto|].
  destruct (String.eqb_spec k' k) as [->|Hne].
  - split; [discriminate | intros H; exfalso; auto].
  - rewrite IH. tauto.
Qed.

Lemma In_obj_get o k v :
  NoDup (obj_keys o) -> In (k, v) o -> obj_get o k = Some v.
Proof.
  induction o as [|[k' v'] t IH]; simpl; [tauto|].
  intros Hnd [[= -> ->]|Hin].
  - now rewrite String.eqb_refl.
  - inversion Hnd as [|? ? Hni Hnd']; subst.
    destruct (String.eqb_spec k' k) as [->|_]; [|auto].
    exfalso. apply Hni. unfold obj_keys.
    change k with (fst (k, v)). now apply in_map.
Qed.

Lemma In_keys o k v : In (k, v) o -> In k (obj_keys o).
Proof. intros H. change k with (fst (k, v)). now apply in_map. Qed.

Lemma obj_get_app_fresh o1 o2 k :
  ~ In k (obj_keys o1) -> obj_get (o1 ++ o2) k = obj_get o2 k.
Proof.
  induction o1 as [|[k' v'] t IH]; simpl; [reflexivity|].
  intros Hni. destruct (String.eqb_spec k' k) as [->|_]; [tauto|].
  apply IH. tauto.
Qed.

Lemma obj_delete_fresh o k : ~ In k (obj_keys o) -> obj_delete o k = o.
Proof.
  induction o as [|[k' v'] t IH]; simpl; [reflexivity|].
  intros Hni. destruct (String.eqb_spec k' k) as [->|_]; [tauto|].
  simpl. f_equal. apply IH. tauto.
Qed.

Lemma obj_delete_app o1 o2 k :
  obj_delete (o1 ++ o2) k = obj_delete o1 k ++ obj_delete o2 k.
Proof. apply filter_app. Qed.

Lemma obj_delete_middle o1 o2 k v :
  ~ In k (obj_keys o1) -> ~ In k (obj_keys o2) ->
  obj_delete (o1 ++ (k, v) :: o2) k = o1 ++ o2.
Proof.
  intros H1 H2. rewrite obj_delete_app. simpl.
  rewrite String.eqb_refl. simpl.
  change (filter (fun kv : string * V => negb (fst kv =? k)) o2)
    with (obj_delete o2 k).
  now rewrite !obj_delete_fresh.
Qed.

Lemma obj_set_middle o1 o2 k v v' :
  ~ In k (obj_keys o1) ->
  obj_set (o1 ++ (k, v) :: o2) k v' = o1 ++ (k, v') :: o2.
Proof.
  induction o1 as [|[k' w] t IH]; simpl.
  - now rewrite String.eqb_refl.
  - intros Hni. destruct (String.eqb_spec k' k) as [->|_]; [tauto|].
    f_equal. apply IH. tauto.
Qed.

Lemma obj_set_fresh o k v :
  ~ In k (obj_keys o) -> obj_set o k v = o ++ [(k, v)].
Proof.
  induction o as [|[k' w] t IH]; simpl; [reflexivity|].
  intros Hni. destruct (String.eqb_spec k' k) as [->|_]; [tauto|].
  f_equal. apply IH. tauto.
Qed.

Lemma obj_keys_set o k v :
  obj_keys (obj_set o k v) =
  if existsb (String.eqb k) (obj_keys o) then obj_keys o
  else obj_keys o ++ [k].
Proof.
  induction o as [|[k' w] t IH]; simpl; [reflexivity|].
  rewrite (String.eqb_sym k k').
  destruct (String.eqb_spec k' k) as [->|_]; simpl; [reflexivity|].
  rewrite IH. now destruct (existsb (String.eqb k) (obj_keys t)).
Qed.

Lemma existsb_eqb_In (l : list string) k :
  existsb (String.eqb k) l = true <-> In k l.
Proof.
  rewrite existsb_exists. split.
  - intros [x [Hin Heq]]. apply String.eqb_eq in Heq. now subst.
  - intros Hin. exists k. split; [assumption | apply String.eqb_refl].
Qed.

Lemma NoDup_keys_set o k v :
  NoDup (obj_keys o) -> NoDup (obj_keys (obj_set o k v)).
Proof.
  intros Hnd. rewrite obj_keys_set.
  destruct (existsb (String.eqb k) (obj_keys o)) eqn:E; [assumption|].
  apply NoDup_app; [assumption | repeat constructor; simpl; tauto |].
  intros x Hx [<-|[]].
  apply existsb_eqb_In in Hx. congruence.
Qed.

Lemma NoDup_keys_filter (p : string * V -> bool) o :
  NoDup (obj_keys o) -> NoDup (obj_keys (filter p o)).
Proof.
  induction o as [|[k' w] t IH]; simpl; [trivial|].
  intros Hnd. inversion Hnd as [|? ? Hni Hnd']; subst.
  destruct (p (k', w)); simpl; [|auto].
  constructor; [|auto].
  intros Hin. apply Hni. unfold obj_keys in *.
  apply in_map_iff in Hin as [[a b] [Hfst Hin]].
  apply filter_In in Hin as [Hin _].
  apply in_map_iff. now exists (a, b).
Qed.

Lemma NoDup_keys_delete o k :
  NoDup (obj_keys o) -> NoDup (obj_keys (obj_delete o k)).
Proof. apply NoDup_keys_filter. Qed.

Lemma In_obj_set o k v k0 v0 :
  NoDup (obj_keys o) ->
  In (k, v) (obj_set o k0 v0) <->
  (k = k0 /\ v = v0) \/ (k <> k0 /\ In (k, v) o).
Proof.
  induction o as [|[k' w] t IH]; simpl; intros Hnd.
  - split.
    + intros [[= <- <-]|[]]. now left.
    + intros [[-> ->]|[_ []]]. now left.
  - inversion Hnd as [|? ? Hni Hnd']; subst.
    destruct (String.eqb_spec k' k0) as [->|Hne]; simpl.
    + split.
      * intros [[= <- <-]|Hin]; [now left|].
        right. split; [|now right].
        intros ->. apply Hni. eapply In_keys; eauto.
      * intros [[-> ->]|[Hk [[= -> ->]|Hin]]]; [now left| congruence| now right].
    + rewrite (IH Hnd'). split.
      * intros [[= -> ->]|[[-> ->]|[Hk Hin]]]; auto.
      * intros [[-> ->]|[Hk [[= -> ->]|Hin]]]; auto.
Qed.

Lemma obj_get_set_same o k v : obj_get (obj_set o k v) k = Some v.
Proof.
  induction o as [|[k' w] t IH]; simpl.
  - now rewrite String.eqb_refl.
  - destruct (String.eqb_spec k' k) as [->|Hne]; simpl.
    + now rewrite String.eqb_refl.
    + destruct (String.eqb_spec k' k); [contradiction | assumption].
Qed.

Lemma obj_get_set_other o k v k' :
  k' <> k -> obj_get (obj_set o k v) k' = obj_get o k'.
Proof.
  intros Hne. induction o as [|[k1 w] t IH]; simpl.
  - destruct (String.eqb_spec k k'); [congruence | reflexivity].
  - destruct (String.eqb_spec k1 k) as [->|Hne1]; simpl.
    + destruct (String.eqb_spec k k'); [congruence | reflexivity].
    + now rewrite IH.
Qed.

Lemma obj_get_delete_same o k : obj_get (obj_delete o k) k = None.
Proof.
  apply obj_get_None. unfold obj_delete, obj_keys.
  intros Hin. apply in_map_iff in Hin as [[a b] [Hfst Hin]].
  apply filter_In in Hin as [_ Hp]. simpl in *. subst.
  now rewrite String.eqb_refl in Hp.
Qed.

Lemma obj_get_delete_other o k k' :
  k' <> k -> obj_get (obj_delete o k) k' = obj_get o k'.
Proof.
  intros Hne. induction o as [|[k1 w] t IH]; simpl; [reflexivity|].
  destruct (String.eqb_spec k1 k) as [->|Hne1]; simpl.
  - destruct (String.eqb_spec k k'); [congruence | assumption].
  - now rewrite IH.
Qed.

Lemma In_obj_delete o k k0 v :
  In (k, v) (obj_delete o k0) <-> In (k, v) o /\ k <> k0.
Proof.
  unfold obj_delete. rewrite filter_In. simpl.
  destruct (String.eqb_spec k k0); simpl; intuition congruence.
Qed.

(** A loop over the keys of an object that, at each key, replaces or deletes
    that entry alone, is a pass over the entries. *)
Lemma fold_keys_spec (stp : obj V -> string -> obj V)
      (f : string -> V -> option V) :
  (forall o1 k v o2,
      ~ In k (obj_keys o1) -> ~ In k (obj_keys o2) ->
      stp (o1 ++ (k, v) :: o2) k =
      o1 ++ match f k v with Some v' => [(k, v')] | None => [] end ++ o2) ->
  forall o, NoDup (obj_keys o) ->
       fold_left stp (obj_keys o) o = obj_filter_map f o.
Proof.
  intros Hstp o Hnd.
  enough (G : forall todo done,
             NoDup (obj_keys (done ++ todo)) ->
             fold_left stp (obj_keys todo) (done ++ todo) =
             done ++ obj_filter_map f todo)
    by apply (G o []), Hnd.
  induction todo as [|[k v] t IH]; intros done Hd; simpl.
  - reflexivity.
  - unfold obj_keys in Hd. rewrite map_app in Hd. simpl in Hd.
    pose proof (NoDup_remove_2 _ _ _ Hd) as Hni.
    pose proof (NoDup_remove_1 _ _ _ Hd) as Hd'.
    rewrite in_app_iff in Hni.
    rewrite Hstp by tauto.
    destruct (f k v) as [v'|]; simpl.
    + change (done ++ (k, v') :: t) with (done ++ [(k, v')] ++ t).
      rewrite app_assoc. rewrite IH.
      * now rewrite <- app_assoc.
      * unfold obj_keys. rewrite <- app_assoc, map_app. simpl. assumption.
    + apply IH. unfold obj_keys. now rewrite map_app.
Qed.

End ObjFacts.

(** ** Admission (the connection handler) *)

Lemma cleanup_old_filter uid sock us :
  NoDup (obj_keys us) ->
  cleanup_old uid sock us = filter (survives_admission uid sock) us.
Proof.
  intros Hnd. unfold cleanup_old.
  rewrite (@fold_keys_spec _ (cleanup_step uid sock)
             (fun k v => if (userId v =? uid) && negb (k =? sock)
                         then None else Some v)).
  - clear Hnd. induction us as [|[k v] t IH]; simpl; [reflexivity|].
    unfold survives_admission at 1. simpl.
    destruct ((userId v =? uid) && negb (k =? sock)); simpl; now rewrite IH.
  - intros o1 k v o2 H1 H2. unfold cleanup_step.
    rewrite obj_get_app_fresh by assumption. simpl. rewrite String.eqb_refl.
    destruct ((userId v =? uid) && negb (k =? sock)).
    + now apply obj_delete_middle.
    + reflexivity.
  - assumption.
Qed.

Lemma on_connection_users socket now st :
  NoDup (obj_keys (users st)) ->
  users (fst (on_connection socket now st)) =
  obj_set (filter (survives_admission (c_userId (user socket)) (id socket))
                  (users st))
          (id socket) (new_session socket now).
Proof. intros Hnd. simpl. now rewrite cleanup_old_filter. Qed.

Lemma on_connection_NoDup socket now st :
  NoDup (obj_keys (users st)) ->
  NoDup (obj_keys (users (fst (on_connection socket now st)))).
Proof.
  intros Hnd. rewrite on_connection_users by assumption.
  now apply NoDup_keys_set, NoDup_keys_filter.
Qed.

(** The entries of the registry after an admission. *)
Lemma In_on_connection socket now st k u :
  NoDup (obj_keys (users st)) ->
  In (k, u) (users (fst (on_connection socket now st))) <->
  (k = id socket /\ u = new_session socket now) \/
  (k <> id socket /\ userId u <> c_userId (user socket) /\ In (k, u) (users st)).
Proof.
  intros Hnd. rewrite on_connection_users by assumption.
  rewrite In_obj_set by now apply NoDup_keys_filter.
  rewrite filter_In. unfold survives_admission. simpl.
  destruct (String.eqb_spec (userId u) (c_userId (user socket)));
    destruct (String.eqb_spec k (id socket)); simpl; intuition congruence.
Qed.

Lemma users_transport_open sid st : users (transport_open sid st) = users st.
Proof. reflexivity. Qed.

Lemma run_app st l1 l2 : run st (l1 ++ l2) = run (run st l1) l2.
Proof. apply fold_left_app. Qed.

Lemma run_admissions_NoDup l : forall st,
  NoDup (obj_keys (users st)) ->
  NoDup (obj_keys (users (run st (admissions l)))).
Proof.
  induction l as [|a l IH]; intros st Hnd; simpl; [assumption|].
  apply IH.
  apply (@on_connection_NoDup _ _ (transport_open (id (fst a)) st)).
  exact Hnd.
Qed.

(** Among entries with distinct keys, those of one user all stored under one
    key are at most one. *)
Lemma sessions_of_le_1 us uid k0 :
  NoDup (obj_keys us) ->
  (forall k u, In (k, u) us -> userId u = uid -> k = k0) ->
  (length (sessions_of us uid) <= 1)%nat.
Proof.
  unfold sessions_of, obj_values.
  induction us as [|[k u] t IH]; simpl; intros Hnd Hk; [lia|].
  inversion Hnd as [|? ? Hni Hnd']; subst.
  destruct (String.eqb_spec (userId u) uid) as [He|_]; simpl.
  - assert (k = k0) by (apply (Hk k u); auto). subst k.
    assert (Hnone : filter (fun u0 => userId u0 =? uid) (map snd t) = []).
    { destruct (filter _ (map snd t)) as [|x rest] eqn:E; [reflexivity|].
      exfalso.
      assert (Hx : In x (filter (fun u0 => userId u0 =? uid) (map snd t)))
        by (rewrite E; now left).
      apply filter_In in Hx as [Hx Hp]. apply String.eqb_eq in Hp.
      apply in_map_iff in Hx as [[k' u'] [Hsnd Hin]]. simpl in Hsnd. subst u'.
      apply Hni. rewrite <- (Hk k' x); [eapply In_keys; eauto | now right | assumption]. }
    rewrite Hnone. simpl. lia.
  - apply IH; [assumption|]. intros k1 u1 Hin. apply Hk. now right.
Qed.

Lemma findUserByUserId_unique us uid k0 u0 :
  In (k0, u0) us -> userId u0 = uid ->
  (forall k u, In (k, u) us -> userId u = uid -> u = u0) ->
  findUserByUserId us (Some uid) = Some u0.
Proof.
  intros Hin Hu Huniq. unfold findUserByUserId.
  destruct (find _ _) as [u|] eqn:E.
  - apply find_some in E as [Hv Hp]. simpl in Hp. apply String.eqb_eq in Hp.
    unfold obj_values in Hv. apply in_map_iff in Hv as [[k u'] [<- Hin']].
    f_equal. eapply Huniq; eauto.
  - exfalso. eapply find_none with (x := u0) in E.
    + simpl in E. rewrite Hu, String.eqb_refl in E. discriminate.
    + unfold obj_values. apply in_map_iff. now exists (k0, u0).
Qed.

(** What the registry holds for [uid] after a run of admissions whose last
    one for [uid] is [a]. *)
Lemma last_admission_entries uid l : forall st a,
  NoDup (obj_keys (users st)) ->
  NoDup (map (fun a => id (fst a)) l) ->
  last_admission uid l = Some a ->
  let us := users (run st (admissions l)) in
  In (id (fst a), new_session (fst a) (snd a)) us /\
  forall k u, In (k, u) us -> userId u = uid ->
              k = id (fst a) /\ u = new_session (fst a) (snd a).
Proof.
  induction l as [|x l IH] using rev_ind; intros st a Hnd Hids Hlast.
  - discriminate.
  - unfold last_admission in Hlast. rewrite rev_unit in Hlast. simpl in Hlast.
    unfold admissions. rewrite map_app, run_app. simpl.
    fold (admissions l).
    pose proof (@run_admissions_NoDup l st Hnd) as Hnd'.
    rewrite map_app in Hids. simpl in Hids.
    set (st' := transport_open (id (fst x)) (run st (admissions l))).
    assert (Hnd'' : NoDup (obj_keys (users st'))) by exact Hnd'.
    destruct (String.eqb_spec (c_userId (user (fst x))) uid) as [He|Hne].
    + injection Hlast as <-. split.
      * apply In_on_connection; auto.
      * intros k u Hin Hu. apply In_on_connection in Hin; [|assumption].
        destruct Hin as [[-> ->]|[_ [Hneq _]]]; [auto | congruence].
    + assert (Ha : In a l).
      { apply find_some in Hlast as [Hin _]. now apply in_rev. }
      assert (Hid : id (fst a) <> id (fst x)).
      { intros Heq. apply NoDup_remove_2 in Hids. apply Hids.
        rewrite app_nil_r. rewrite <- Heq.
        apply in_map_iff. now exists a. }
      assert (Hids' : NoDup (map (fun a => id (fst a)) l)).
      { apply NoDup_remove_1 in Hids. now rewrite app_nil_r in Hids. }
      destruct (IH st a Hnd Hids' Hlast) as [Hin Huniq].
      assert (Hua : c_userId (user (fst a)) = uid).
      { apply find_some in Hlast as [_ Hp]. now apply String.eqb_eq. }
      split.
      * apply In_on_connection; [assumption|]. right.
        repeat split; [assumption | simpl; congruence | exact Hin].
      * intros k u Hk Hu. apply In_on_connection in Hk; [|assumption].
        destruct Hk as [[-> ->]|[_ [_ Hk]]].
        -- simpl in Hu. congruence.
        -- now apply Huniq.
Qed.

(** C1. After an admission the registry holds the registrant's new session
    under its connection id together with exactly the former entries of other
    users stored under other connection ids; and after any run of admissions
    over distinct connection ids, the registry holds at most one session for
    a user id [uid] and [findUserByUserId] returns the session created by the
    most recent admission for [uid]. *)
Theorem register_most_recent_wins :
  forall (st : State) (l : list Admission) (uid : string) (a : Admission),
    NoDup (obj_keys (users st)) ->
    NoDup (map (fun a => id (fst a)) l) ->
    last_admission uid l = Some a ->
    (forall socket now k u,
        In (k, u) (users (fst (on_connection socket now st))) <->
        (k = id socket /\ u = new_session socket now) \/
        (k <> id socket /\ userId u <> c_userId (user socket) /\
         In (k, u) (users st))) /\
    (length (sessions_of (users (run st (admissions l))) uid) <= 1)%nat /\
    findUserByUserId (users (run st (admissions l))) (Some uid) =
    Some (new_session (fst a) (snd a)).
Proof.
  intros st l uid a Hnd Hids Hlast.
  destruct (last_admission_entries uid l st a Hnd Hids Hlast) as [Hin Huniq].
  split; [|split].
  - intros socket now k u. now apply In_on_connection.
  - apply sessions_of_le_1 with (k0 := id (fst a)).
    + now apply run_admissions_NoDup.
    + intros k u Hk Hu. now apply (Huniq k u).
  - apply findUserByUserId_unique with (k0 := id (fst a)).
    + exact Hin.
    + apply find_some in Hlast as [_ Hp]. now apply String.eqb_eq.
    + intros k u Hk Hu. now apply (Huniq k u).
Qed.

Lemma register_most_recent_wins_witness :
  (length (sessions_of
             (users (run init (admissions [(alice1, 1%Z); (bob1, 2%Z); (alice2, 3%Z)])))
             "alice") <= 1)%nat /\
  findUserByUserId
    (users (run init (admissions [(alice1, 1%Z); (bob1, 2%Z); (alice2, 3%Z)])))
    (Some "alice") = Some (new_session alice2 3).
Proof.
  apply (register_most_recent_wins init
           [(alice1, 1%Z); (bob1, 2%Z); (alice2, 3%Z)] "alice" (alice2, 3%Z)).
  - constructor.
  - repeat constructor; simpl; intuition discriminate.
  - reflexivity.
Defined.

(** ** Chat messages *)

Lemma findUserByUserId_In us v u :
  findUserByUserId us v = Some u ->
  exists k, In (k, u) us /\ JS.strict_eq (userId u) v = true.
Proof.
  unfold findUserByUserId, obj_values. intros H.
  apply find_some in H as [Hin Hp].
  apply in_map_iff in Hin as [[k u'] [Hsnd Hin]]. simpl in Hsnd. subst u'.
  now exists k.
Qed.

(** With one session per user, the lookup for the user of a stored session
    returns that session. *)
Lemma findUserByUserId_stored us sid off :
  users_wf us -> one_session_per_user us ->
  obj_get us sid = Some off ->
  findUserByUserId us (Some (userId off)) = Some off.
Proof.
  intros [Hnd Hkey] Huniq Hget.
  apply findUserByUserId_unique with (k0 := sid).
  - now apply obj_get_In.
  - reflexivity.
  - intros k u Hin Hu.
    assert (k = sid) by (apply (Huniq k u sid off); auto using obj_get_In).
    subst k. pose proof (In_obj_get _ _ _ _ Hnd Hin). congruence.
Qed.



(** The envelope carries the authenticated user id and the relay time,
    whatever the payload holds. *)
Lemma sendMessage_envelope socket data now st e d :
  In (Emit d e) (snd (on_sendMessage socket data now st)) ->
  exists m, (e = receiveMessage m \/ e = messageSent true m) /\
            senderId m = c_userId (user socket) /\
            timestamp m = now /\
            senderName m = c_username (user socket).
Proof.
  unfold on_sendMessage. simpl. rewrite in_app_iff.
  intros [Hin|[[= <- <-]|[]]].
  - exists (message_of socket data now).
    destruct (JS.truthy (receiverId data)).
    + destruct (findUserByUserId _ _); [|contradiction].
      destruct Hin as [[= <- <-]|[]]. auto.
    + destruct (JS.truthy (sm_roomId data)); [|contradiction].
      destruct Hin as [[= <- <-]|[]]. auto.
  - exists (message_of socket data now). auto.
Qed.

(** C9 (divergence). For a credential without a username the registry stores
    the display name ["Unknown"], while the relayed envelope carries an
    undefined [senderName]: the handler reads [socket.user.username], not the
    resolved name. *)
Theorem sendMessage_senderName_not_resolved :
  findUserByUserId (users three_online) (Some "carol") =
    Some (mkSession "s4" "carol" "Unknown" online 300 "en") /\
  snd (on_sendMessage carol1 (mkSendMessageData (Some "bob") (Some "hi") None)
                      500 three_online) =
  [Emit (IoTo "s2")
        (receiveMessage (mkMessage "carol" None (Some "hi") 500 None));
   Emit (ToSocket "s4")
        (messageSent true (mkMessage "carol" None (Some "hi") 500 None))].
Proof. split; reflexivity. Qed.

(** ** Direct calls *)

(** Deleting the key of a stored session removes that session and nothing
    else. *)
Lemma delete_own_key us u0 k0 :
  users_wf us -> In (k0, u0) us ->
  forall k u, In (k, u) (obj_delete us (socketId u0)) <->
              In (k, u) us /\ u <> u0.
Proof.
  intros [Hnd Hkey] Hin0 k u. rewrite In_obj_delete.
  pose proof (Hkey _ _ Hin0) as Hk0.
  split; intros [Hin Hne]; split; try assumption.
  - intros ->. apply Hne. rewrite Hk0.
    pose proof (Hkey _ _ Hin). congruence.
  - intros ->. apply Hne. rewrite Hk0 in Hin.
    pose proof (In_obj_get _ _ _ _ Hnd Hin) as E1.
    pose proof (In_obj_get _ _ _ _ Hnd Hin0) as E2. congruence.
Qed.

Lemma set_has_true s x : set_has s x = true <-> In x s.
Proof. apply existsb_eqb_In. Qed.

Lemma received_call_pair st target sender call delivered sid :
  received st [Emit (IoTo target) call; Emit (ToSocket sender) delivered] sid =
  (if set_has (members (adapter st) target) sid then [call] else []) ++
  (if sid =? sender then [delivered] else []).
Proof.
  cbn [received recipients existsb]. rewrite orb_false_r. unfold set_has.
  destruct (existsb (String.eqb sid) (members (adapter st) target));
    destruct (sid =? sender); reflexivity.
Qed.

(** C3 (as amended). A [callUser] without room id.  If the target resolves
    to a session whose channel is live, the handler changes nothing and
    emits one [incomingCall] to the transport group named by the session's
    connection id and one [incomingCallDelivered] to the sender: every
    member of that group receives exactly the one [incomingCall], nobody
    else receives one, so the target's connection receives it exactly when
    it is a member of the group of its own id; the sender receives
    [incomingCallDelivered] in either case and nobody else does.  If the
    session's channel is not live, the sender alone receives
    [userUnavailable], and that session, and no other, is removed from the
    registry.  If no session resolves, nothing is emitted and nothing
    changes. *)
Theorem callUser_direct_delivery :
  forall (socket : Socket) (data : CallUserData) (st : State),
    JS.truthy (cu_roomId data) = false ->
    users_wf (users st) ->
    let st' := fst (on_callUser socket data st) in
    let out := snd (on_callUser socket data st) in
    let call := incomingCall (c_userId (user socket)) (c_username (user socket))
                             (offer data) (callType data) None in
    match findUserByUserId (users st) (to data) with
    | Some toUser =>
        let delivered := incomingCallDelivered (to data) (socketId toUser) in
        if is_live st (socketId toUser) then
          st' = st /\
          out = [Emit (IoTo (socketId toUser)) call;
                 Emit (ToSocket (id socket)) delivered] /\
          (forall sid,
              received st' out sid =
              (if set_has (members (adapter st) (socketId toUser)) sid
               then [call] else []) ++
              (if sid =? id socket then [delivered] else [])) /\
          (forall sid, In call (received st' out sid) <->
                       In sid (members (adapter st) (socketId toUser))) /\
          (In (socketId toUser) (members (adapter st) (socketId toUser)) ->
           socketId toUser <> id socket ->
           received st' out (socketId toUser) = [call]) /\
          (forall sid, In delivered (received st' out sid) <-> sid = id socket)
        else
          out = [Emit (ToSocket (id socket)) (userUnavailable (to data))] /\
          (forall sid,
              received st' out sid =
              if sid =? id socket then [userUnavailable (to data)] else []) /\
          (forall k u, In (k, u) (users st') <->
                       In (k, u) (users st) /\ u <> toUser) /\
          rooms st' = rooms st
    | None => on_callUser socket data st = (st, [])
    end.
Proof.
  intros socket data st Hroom Hwf st' out call.
  unfold st', out, on_callUser. rewrite Hroom.
  destruct (findUserByUserId (users st) (to data)) as [toUser|] eqn:Hfind;
    [|reflexivity].
  cbv zeta. destruct (is_live st (socketId toUser)).
  - cbn [fst snd].
    assert (Hrec : forall sid,
               received st [Emit (IoTo (socketId toUser)) call;
                            Emit (ToSocket (id socket))
                                 (incomingCallDelivered (to data)
                                                        (socketId toUser))]
                        sid =
               (if set_has (members (adapter st) (socketId toUser)) sid
                then [call] else []) ++
               (if sid =? id socket
                then [incomingCallDelivered (to data) (socketId toUser)]
                else [])) by (intros; apply received_call_pair).
    split; [reflexivity|]. split; [reflexivity|]. split; [exact Hrec|].
    split; [|split].
    + intros sid. fold call. rewrite Hrec.
      destruct (set_has (members (adapter st) (socketId toUser)) sid) eqn:E.
      * split; [intros _; now apply set_has_true | intros _; now left].
      * split.
        -- intros H. simpl in H. destruct (sid =? id socket); simpl in H.
           ++ destruct H as [H|[]]. unfold call in H. discriminate H.
           ++ destruct H.
        -- intros H. apply set_has_true in H. congruence.
    + intros Hmem Hne. fold call. rewrite Hrec.
      apply set_has_true in Hmem. rewrite Hmem.
      destruct (String.eqb_spec (socketId toUser) (id socket));
        [contradiction | reflexivity].
    + intros sid. fold call. rewrite Hrec.
      destruct (String.eqb_spec sid (id socket)) as [->|Hne].
      * split; [reflexivity|]. intros _. apply in_or_app. right. now left.
      * split; [|contradiction]. intros H. apply in_app_or in H.
        destruct H as [H|[]].
        destruct (set_has (members (adapter st) (socketId toUser)) sid);
          [|destruct H].
        destruct H as [H|[]]. unfold call in H. discriminate H.
  - cbn [fst snd users rooms with_users].
    split; [reflexivity|]. split; [|split; [|reflexivity]].
    + intros sid. cbn [received recipients existsb].
      rewrite orb_false_r. reflexivity.
    + apply findUserByUserId_In in Hfind as [k0 [Hin0 _]].
      now apply delete_own_key with (k0 := k0).
Qed.

Lemma alice_and_bob_wf : users_wf (users alice_and_bob).
Proof.
  split.
  - repeat constructor; simpl; intuition discriminate.
  - intros k u [[= <- <-]|[[= <- <-]|[]]]; reflexivity.
Qed.

Lemma callUser_direct_delivery_witness :
  received alice_and_bob
    (snd (on_callUser alice1
            (mkCallUserData (Some "bob") (Some "sdp") (Some "video") None)
            alice_and_bob)) "s2" =
    [incomingCall "alice" (Some "Alice") (Some "sdp") (Some "video") None] /\
  snd (on_callUser alice1
         (mkCallUserData (Some "bob") (Some "sdp") (Some "video") None)
         (with_sockets alice_and_bob ["s1"])) =
    [Emit (ToSocket "s1") (userUnavailable (Some "bob"))].
Proof.
  split.
  - apply (callUser_direct_delivery alice1
             (mkCallUserData (Some "bob") (Some "sdp") (Some "video") None)
             alice_and_bob eq_refl alice_and_bob_wf).
    + simpl. auto.
    + discriminate.
  - apply (callUser_direct_delivery alice1
             (mkCallUserData (Some "bob") (Some "sdp") (Some "video") None)
             (with_sockets alice_and_bob ["s1"]) eq_refl alice_and_bob_wf).
Defined.

(** C3 (counterexample). Bob is registered and his channel is open, but he
    has left the transport group named by his own connection id
    ([leaveRoom] with that id).  Alice's direct call resolves him and takes
    the live branch: Bob's connection receives nothing, and Alice is told
    [incomingCallDelivered] all the same. *)
Lemma callUser_delivered_without_delivery :
  let st := run init [Connection alice1 100; Connection bob1 200;
                      LeaveRoom bob1 "s2"] in
  let out := snd (on_callUser alice1
                    (mkCallUserData (Some "bob") (Some "sdp") (Some "video") None)
                    st) in
  findUserByUserId (users st) (Some "bob") =
    Some (mkSession "s2" "bob" "Bob" online 200 "en") /\
  is_live st "s2" = true /\
  received st out "s2" = [] /\
  received st out "s1" = [incomingCallDelivered (Some "bob") "s2"].
Proof. repeat split. Qed.

(** ** Language preference *)

(** C8 (as amended). Whatever the client sent with
    [updateLanguagePreference]: when the payload is absent, or has no
    [language], or an empty one, the registry is left as it was and nothing
    is sent, not even the acknowledgement (without payload the listener
    ends in the [TypeError] of the destructuring, with a payload it
    returns); when [language] is a non-empty string and a session is stored
    for the sender's connection, the listener returns, that session's
    [preferredLanguage] is [language], no other entry changes, and the only
    emit is the [languagePreferenceUpdated] acknowledgement to the
    sender. *)
Theorem updateLanguagePreference_listener_guarded :
  forall (socket : Socket) (payload : option LanguageData) (st : State),
    (payload = None ->
     updateLanguagePreference_listener socket payload st = Threw st []) /\
    (forall data, payload = Some data -> JS.truthy (language data) = false ->
     updateLanguagePreference_listener socket payload st = Returned st []) /\
    (match payload with
     | Some data => JS.truthy (language data) = false
     | None => True
     end ->
     state_of (updateLanguagePreference_listener socket payload st) = st /\
     out_of (updateLanguagePreference_listener socket payload st) = []) /\
    (forall data l u,
        payload = Some data ->
        language data = Some l -> JS.truthy_str l = true ->
        obj_get (users st) (id socket) = Some u ->
        exists st',
          updateLanguagePreference_listener socket payload st =
            Returned st'
              [Emit (ToSocket (id socket)) (languagePreferenceUpdated l true)] /\
          obj_get (users st') (id socket) = Some (set_preferredLanguage u l) /\
          (forall k, k <> id socket ->
                     obj_get (users st') k = obj_get (users st) k) /\
          rooms st' = rooms st).
Proof.
  intros socket payload st.
  assert (Hfalsy : forall data, JS.truthy (language data) = false ->
                   on_updateLanguagePreference socket data st = (st, [])).
  { intros data Hl. unfold on_updateLanguagePreference.
    destruct (language data) as [l|]; simpl in Hl; [|reflexivity].
    rewrite Hl. now destruct (obj_get (users st) (id socket)). }
  split; [|split; [|split]].
  - intros ->. reflexivity.
  - intros data -> Hl. unfold updateLanguagePreference_listener.
    now rewrite (Hfalsy data Hl).
  - destruct payload as [data|]; [|intros _; split; reflexivity].
    intros Hl. unfold updateLanguagePreference_listener.
    rewrite (Hfalsy data Hl). split; reflexivity.
  - intros data l u -> Hl Ht Hget.
    exists (with_users st (obj_set (users st) (id socket)
                                   (set_preferredLanguage u l))).
    unfold updateLanguagePreference_listener, on_updateLanguagePreference.
    rewrite Hl, Hget, Ht. cbn [fst snd users rooms with_users].
    split; [reflexivity|]. split; [apply obj_get_set_same|].
    split; [|reflexivity].
    intros k Hk. now apply obj_get_set_other.
Qed.

Lemma updateLanguagePreference_listener_guarded_witness :
  updateLanguagePreference_listener alice1 None alice_and_bob =
    Threw alice_and_bob [] /\
  updateLanguagePreference_listener alice1 (Some (mkLanguageData None))
                                    alice_and_bob =
    Returned alice_and_bob [] /\
  exists st',
    updateLanguagePreference_listener alice1 (Some (mkLanguageData (Some "hi")))
                                      alice_and_bob =
      Returned st' [Emit (ToSocket "s1") (languagePreferenceUpdated "hi" true)] /\
    obj_get (users st') "s1" =
      Some (mkSession "s1" "alice" "Alice" online 100 "hi").
Proof.
  split; [|split].
  - apply (proj1 (updateLanguagePreference_listener_guarded alice1 None
                    alice_and_bob) eq_refl).
  - apply (proj1 (proj2 (updateLanguagePreference_listener_guarded alice1
                           (Some (mkLanguageData None)) alice_and_bob))
                 (mkLanguageData None) eq_refl eq_refl).
  - destruct (proj2 (proj2 (proj2 (updateLanguagePreference_listener_guarded
                alice1 (Some (mkLanguageData (Some "hi"))) alice_and_bob)))
              (mkLanguageData (Some "hi")) "hi"
              (mkSession "s1" "alice" "Alice" online 100 "en")
              eq_refl eq_refl eq_refl eq_refl) as [st' [H1 [H2 _]]].
    exists st'. split; [exact H1 | exact H2].
Defined.

(** C8 (counterexample). For a registered sender and a payload without
    [language], no [languagePreferenceUpdated] is sent to the sender. *)
Lemma updateLanguagePreference_missing_language_no_ack :
  ~ exists l b,
      In (Emit (ToSocket (id alice1)) (languagePreferenceUpdated l b))
         (snd (on_updateLanguagePreference alice1 (mkLanguageData None)
                                           alice_and_bob)).
Proof. intros [l [b H]]. exact H. Qed.

(** ** Group calls *)

Lemma In_set_add s x y : In y (set_add s x) <-> In y s \/ y = x.
Proof.
  unfold set_add. destruct (set_has s x) eqn:E.
  - apply existsb_eqb_In in E. split; [auto | intros [H| ->]; assumption].
  - rewrite in_app_iff. simpl. intuition.
Qed.

Lemma members_socket_join sid room st :
  members (adapter (socket_join sid room st)) room =
  set_add (members (adapter st) room) sid.
Proof. unfold socket_join, members at 1. simpl. now rewrite obj_get_set_same. Qed.

(** C5 (as amended). [joinGroupCall] adds the joiner's connection to the
    transport's group of the call room and leaves [rooms] and [users] as they
    were. *)
Theorem joinGroupCall_transport_only :
  forall (socket : Socket) (data : JoinGroupCallData) (st : State),
    In (id socket)
       (members (adapter (fst (on_joinGroupCall socket data st)))
                (callRoomId data)) /\
    rooms (fst (on_joinGroupCall socket data st)) = rooms st /\
    users (fst (on_joinGroupCall socket data st)) = users st.
Proof.
  intros socket data st. split; [|split; reflexivity].
  change (fst (on_joinGroupCall socket data st))
    with (socket_join (id socket) (callRoomId data) st).
  rewrite members_socket_join. apply In_set_add. now right.
Qed.

(** C5 (counterexample). After Alice joins the group call [call-1], the
    shared [rooms] object has no entry for the call room, hence no member
    set holding her user id. *)
Lemma joinGroupCall_not_in_rooms :
  ~ exists s,
      obj_get (rooms (fst (on_joinGroupCall alice1
                             (mkJoinGroupCallData "call-1" None) alice_and_bob)))
              "call-1" = Some s /\ In "alice" s.
Proof. intros [s [H _]]. discriminate H. Qed.

Lemma filter_others_set_add (ms : sset) sid :
  filter (fun x => negb (x =? sid)) (set_add ms sid) =
  filter (fun x => negb (x =? sid)) ms.
Proof.
  unfold set_add. destruct (set_has ms sid); [reflexivity|].
  rewrite filter_app. simpl. rewrite String.eqb_refl. simpl.
  apply app_nil_r.
Qed.

Lemma truthy_participant us sid :
  JS.truthy (p_userId (participant_of us sid)) = resolves us sid.
Proof. unfold participant_of, resolves. simpl. now destruct (obj_get us sid). Qed.

Lemma participants_filter us self (ms : sset) :
  filter (fun p => JS.truthy (p_userId p))
    (map (participant_of us) (filter (fun sid => negb (sid =? self)) ms)) =
  map (participant_of us)
    (filter (fun sid => negb (sid =? self) && resolves us sid) ms).
Proof.
  induction ms as [|x t IH]; [reflexivity|].
  cbn [filter]. destruct (negb (x =? self)); cbn [andb map filter];
    [|assumption].
  rewrite truthy_participant. destruct (resolves us x); cbn [map];
    now rewrite IH.
Qed.

Lemma map_socketId_participants us (l : list string) :
  map p_socketId (map (participant_of us) l) = l.
Proof. rewrite map_map. simpl. apply map_id. Qed.

Lemma existsb_eqb_filter_others (l : list string) sid self :
  existsb (String.eqb sid) (filter (fun x => negb (x =? self)) l) =
  existsb (String.eqb sid) l && negb (sid =? self).
Proof.
  induction l as [|x t IH]; simpl; [reflexivity|].
  destruct (String.eqb_spec x self) as [->|Hne]; simpl.
  - rewrite IH. destruct (String.eqb_spec sid self); simpl.
    + now rewrite !andb_false_r.
    + reflexivity.
  - rewrite IH. destruct (String.eqb_spec sid x) as [->|]; simpl.
    + destruct (String.eqb_spec x self); [contradiction | reflexivity].
    + reflexivity.
Qed.

(** The snapshot and the announcement of [joinGroupCall] in a state whose
    group is duplicate-free and whose registry has one session per user. *)
Lemma joinGroupCall_snapshot_from :
  forall (socket : Socket) (data : JoinGroupCallData) (st : State),
    let ms := members (adapter st) (callRoomId data) in
    let st' := fst (on_joinGroupCall socket data st) in
    let out := snd (on_joinGroupCall socket data st) in
    let joined :=
      userJoinedGroupCall (JS.or_else (joinUserId data) (c_userId (user socket)))
                          (c_username (user socket)) (id socket) in
    NoDup ms ->
    one_session_per_user (users st) ->
    exists ps,
      out = [Emit (SocketTo (id socket) (callRoomId data)) joined;
             Emit (ToSocket (id socket))
                  (existingParticipants (callRoomId data) ps)] /\
      ps = map (participant_of (users st))
             (filter (fun sid => negb (sid =? id socket) &&
                                 resolves (users st) sid) ms) /\
      (forall sid, In sid (map p_socketId ps) <->
                   In sid ms /\ sid <> id socket /\
                   resolves (users st) sid = true) /\
      NoDup (map p_socketId ps) /\
      (forall p, In p ps -> p_socketId p <> id socket) /\
      (forall p u, In p ps -> obj_get (users st) (id socket) = Some u ->
                   p_userId p <> Some (userId u)) /\
      (JS.truthy (joinUserId data) = false ->
       joined = userJoinedGroupCall (c_userId (user socket))
                                    (c_username (user socket)) (id socket)) /\
      (forall sid, In sid ms -> sid <> id socket ->
                   received st' out sid = [joined]) /\
      received st' out (id socket) =
        [existingParticipants (callRoomId data) ps].
Proof.
  intros socket data st ms st' out joined Hnd Huniq.
  set (keep := fun sid => negb (sid =? id socket) && resolves (users st) sid).
  exists (map (participant_of (users st)) (filter keep ms)).
  assert (Hmem : members (adapter st') (callRoomId data) = set_add ms (id socket))
    by apply members_socket_join.
  assert (Hkeep : forall sid, In sid (filter keep ms) <->
                  In sid ms /\ sid <> id socket /\ resolves (users st) sid = true).
  { intros sid. rewrite filter_In. unfold keep.
    destruct (String.eqb_spec sid (id socket)); simpl;
      destruct (resolves (users st) sid); intuition congruence. }
  assert (Hout : snd (on_joinGroupCall socket data st) =
                 [Emit (SocketTo (id socket) (callRoomId data)) joined;
                  Emit (ToSocket (id socket))
                       (existingParticipants (callRoomId data)
                          (map (participant_of (users st)) (filter keep ms)))]).
  { unfold on_joinGroupCall. cbn [snd]. cbv zeta.
    rewrite members_socket_join, filter_others_set_add.
    change (users (socket_join (id socket) (callRoomId data) st))
      with (users st).
    now rewrite participants_filter. }
  split; [exact Hout|]. split; [reflexivity|].
  rewrite map_socketId_participants.
  split; [exact Hkeep|].
  split; [now apply NoDup_filter|].
  split.
  { intros p Hp. apply in_map_iff in Hp as [sid [<- Hin]]. simpl.
    now apply Hkeep in Hin. }
  split.
  { intros p u Hp Hself. apply in_map_iff in Hp as [sid [<- Hin]].
    apply Hkeep in Hin as [_ [Hne Hres]]. unfold participant_of. simpl.
    unfold resolves in Hres.
    destruct (obj_get (users st) sid) as [u'|] eqn:Hsid; [|discriminate].
    simpl. intros [= Heq]. apply Hne.
    apply (Huniq sid u' (id socket) u); auto using obj_get_In. }
  split.
  { intros Hj. unfold joined. f_equal. unfold JS.or_else.
    destruct (joinUserId data) as [j|]; [|reflexivity].
    simpl in Hj. now rewrite Hj. }
  split.
  - intros sid Hin Hne. unfold out. rewrite Hout.
    cbn [received recipients].
    rewrite Hmem, existsb_eqb_filter_others.
    assert (E1 : existsb (String.eqb sid) (set_add ms (id socket)) = true).
    { apply existsb_eqb_In, In_set_add. now left. }
    rewrite E1. cbn [existsb].
    destruct (String.eqb_spec sid (id socket)); [contradiction|].
    reflexivity.
  - unfold out. rewrite Hout. cbn [received recipients].
    rewrite Hmem, existsb_eqb_filter_others.
    cbn [existsb]. rewrite String.eqb_refl, andb_false_r. reflexivity.
Qed.

Ltac sample_entries :=
  repeat match goal with
         | H : _ \/ _ |- _ => destruct H as [H|H]
         | H : False |- _ => destruct H
         | H : (_, _) = (_, _) |- _ => injection H as <- <-
         end.

(** ** Disconnect of a superseded connection *)

(** An admission removes what the registry held under an older connection
    of the same user. *)
Lemma superseded_entry_evicted (old new : Socket) (t : Z) (st : State) :
  NoDup (obj_keys (users st)) ->
  id old <> id new ->
  c_userId (user old) = c_userId (user new) ->
  (forall u, obj_get (users st) (id old) = Some u ->
             userId u = c_userId (user old)) ->
  obj_get (users (fst (on_connection new t st))) (id old) = None.
Proof.
  intros Hnd Hid Huid Hown.
  destruct (obj_get (users (fst (on_connection new t st))) (id old))
    as [u|] eqn:E; [|reflexivity].
  exfalso. apply obj_get_In in E. apply In_on_connection in E; [|assumption].
  destruct E as [[E _]|[_ [Hne Hin]]]; [contradiction|].
  apply Hne. rewrite <- Huid. apply Hown. now apply In_obj_get.
Qed.

(** C10. When the registry has no entry under the disconnecting connection,
    the disconnect handler returns the state it was given and issues no
    effect: no broadcast, no timer, no change to [rooms] or [users]; so every
    lookup by user id answers as before. *)
Theorem disconnect_evicted_noop :
  forall (socket : Socket) (now : Z) (st : State),
    obj_get (users st) (id socket) = None ->
    on_disconnect socket now st = (st, []) /\
    snd (step st (Disconnect socket now)) = [] /\
    users (fst (step st (Disconnect socket now))) = users st /\
    rooms (fst (step st (Disconnect socket now))) = rooms st /\
    forall uid,
      findUserByUserId (users (fst (step st (Disconnect socket now)))) uid =
      findUserByUserId (users st) uid.
Proof.
  intros socket now st Hnone.
  assert (H : forall s, users s = users st ->
                        on_disconnect socket now s = (s, [])).
  { intros s Hs. unfold on_disconnect. now rewrite Hs, Hnone. }
  split; [now apply H|].
  cbn [step]. rewrite H by reflexivity. repeat split; reflexivity.
Qed.

Lemma disconnect_evicted_noop_witness :
  on_disconnect alice1 900 alice_reconnected = (alice_reconnected, []) /\
  findUserByUserId
    (users (fst (step alice_reconnected (Disconnect alice1 900))))
    (Some "alice") = Some (mkSession "s3" "alice" "Alice" online 200 "en").
Proof.
  destruct (disconnect_evicted_noop alice1 900 alice_reconnected eq_refl)
    as [H1 [_ [_ [_ H5]]]].
  split; [exact H1 | rewrite H5; reflexivity].
Defined.

(** ** Rooms never stay empty *)

Section FilterMap.
Variable V : Type.
Variable f : string -> V -> option V.

Lemma In_obj_filter_map (o : obj V) k v' :
  In (k, v') (obj_filter_map f o) <->
  exists v, In (k, v) o /\ f k v = Some v'.
Proof.
  unfold obj_filter_map. rewrite in_flat_map. split.
  - intros [[k0 v] [Hin Hf]]. simpl in Hf.
    destruct (f k0 v) as [w|] eqn:E; [|contradiction].
    destruct Hf as [[= -> ->]|[]]. now exists v.
  - intros [v [Hin Hf]]. exists (k, v). split; [assumption|].
    simpl. rewrite Hf. now left.
Qed.

Lemma NoDup_keys_filter_map (o : obj V) :
  NoDup (obj_keys o) -> NoDup (obj_keys (obj_filter_map f o)).
Proof.
  induction o as [|[k v] t IH]; simpl; intros Hnd; [constructor|].
  inversion Hnd as [|? ? Hni Hnd']; subst.
  destruct (f k v) as [w|]; simpl; [|auto].
  constructor; [|auto].
  intros Hin. apply Hni. unfold obj_keys in Hin.
  apply in_map_iff in Hin as [[k' w'] [Hk Hin]]. simpl in Hk. subst k'.
  apply In_obj_filter_map in Hin as [v0 [Hin _]].
  eapply In_keys; eauto.
Qed.

End FilterMap.

Lemma set_has_In s x : set_has s x = true <-> In x s.
Proof. apply existsb_eqb_In. Qed.

Lemma In_set_delete s x y : In y (set_delete s x) <-> In y s /\ y <> x.
Proof.
  unfold set_delete. rewrite filter_In.
  destruct (String.eqb_spec y x); simpl; intuition congruence.
Qed.

Lemma set_add_nonempty s x : set_add s x <> [].
Proof.
  intros E. assert (H : In x (set_add s x)) by (apply In_set_add; now right).
  now rewrite E in H.
Qed.

Lemma set_size_0 (s : sset) : (set_size s =? 0)%nat = true <-> s = [].
Proof. destruct s; simpl; split; congruence. Qed.

Lemma remove_from_rooms_spec uid rs :
  NoDup (obj_keys rs) ->
  remove_from_rooms uid rs = obj_filter_map (without_member uid) rs.
Proof.
  intros Hnd. unfold remove_from_rooms.
  apply fold_keys_spec; [|assumption].
  intros o1 k s o2 H1 H2. unfold remove_from_room, without_member.
  rewrite obj_get_app_fresh by assumption. simpl. rewrite String.eqb_refl.
  destruct (set_has s uid); [|reflexivity].
  rewrite obj_set_middle by assumption.
  destruct (set_delete s uid) as [|y s'] eqn:E; simpl.
  - now apply obj_delete_middle.
  - reflexivity.
Qed.

(** The invariant carried through a run: distinct room keys, no empty room. *)
Lemma rooms_inv_remove uid rs :
  NoDup (obj_keys rs) /\ rooms_nonempty rs ->
  NoDup (obj_keys (remove_from_rooms uid rs)) /\
  rooms_nonempty (remove_from_rooms uid rs).
Proof.
  intros [Hnd Hne]. rewrite remove_from_rooms_spec by assumption. split.
  - now apply NoDup_keys_filter_map.
  - intros r s Hin. apply In_obj_filter_map in Hin as [s0 [Hin Hf]].
    unfold without_member in Hf. destruct (set_has s0 uid).
    + destruct (set_delete s0 uid); [discriminate|].
      injection Hf as <-. discriminate.
    + injection Hf as <-. eauto.
Qed.

Lemma rooms_inv_set rs roomId s :
  s <> [] ->
  NoDup (obj_keys rs) /\ rooms_nonempty rs ->
  NoDup (obj_keys (obj_set rs roomId s)) /\
  rooms_nonempty (obj_set rs roomId s).
Proof.
  intros Hs [Hnd Hne]. split; [now apply NoDup_keys_set|].
  intros r x Hin. apply In_obj_set in Hin; [|assumption].
  destruct Hin as [[_ ->]|[_ Hin]]; eauto.
Qed.

Lemma on_joinRoom_rooms socket roomId st :
  rooms (state_of (on_joinRoom socket roomId st)) =
  match obj_get (rooms st) roomId with
  | Some s => obj_set (rooms st) roomId (set_add s (c_userId (user socket)))
  | None =>
      if JS.inherited roomId then rooms st
      else obj_set (obj_set (rooms st) roomId []) roomId
                   (set_add [] (c_userId (user socket)))
  end.
Proof.
  unfold on_joinRoom, rooms_ref. cbv zeta.
  change (rooms (socket_join (id socket) roomId st)) with (rooms st).
  destruct (obj_get (rooms st) roomId) as [s|] eqn:Hget.
  - simpl. rewrite Hget. reflexivity.
  - destruct (JS.inherited roomId) eqn:Hproto.
    + simpl. rewrite Hget. reflexivity.
    + rewrite obj_get_set_same. reflexivity.
Qed.

Lemma rooms_inv_joinRoom socket roomId st :
  NoDup (obj_keys (rooms st)) /\ rooms_nonempty (rooms st) ->
  NoDup (obj_keys (rooms (state_of (on_joinRoom socket roomId st)))) /\
  rooms_nonempty (rooms (state_of (on_joinRoom socket roomId st))).
Proof.
  intros Hinv. rewrite on_joinRoom_rooms.
  destruct (obj_get (rooms st) roomId) as [s|] eqn:Hget.
  - apply rooms_inv_set; [apply set_add_nonempty | assumption].
  - destruct (JS.inherited roomId) eqn:Hproto; [exact Hinv|].
    destruct Hinv as [Hnd Hne].
    split; [now apply NoDup_keys_set, NoDup_keys_set|].
    intros r x Hin.
    apply In_obj_set in Hin; [|now apply NoDup_keys_set].
    destruct Hin as [[_ ->]|[Hr Hin]]; [apply set_add_nonempty|].
    apply In_obj_set in Hin; [|assumption].
    destruct Hin as [[Hr' _]|[_ Hin]]; [contradiction | eauto].
Qed.

Lemma rooms_socket_leave sid room st :
  rooms (socket_leave sid room st) = rooms st.
Proof. unfold socket_leave. now destruct (obj_get (adapter st) room). Qed.

Lemma users_socket_leave sid room st :
  users (socket_leave sid room st) = users st.
Proof. unfold socket_leave. now destruct (obj_get (adapter st) room). Qed.

Lemma on_leaveRoom_rooms socket roomId st :
  rooms (state_of (on_leaveRoom socket roomId st)) =
  match obj_get (rooms st) roomId with
  | Some s =>
      match set_delete s (c_userId (user socket)) with
      | [] => obj_delete (obj_set (rooms st) roomId []) roomId
      | s' => obj_set (rooms st) roomId s'
      end
  | None => rooms st
  end.
Proof.
  unfold on_leaveRoom, rooms_ref. cbv zeta. rewrite rooms_socket_leave.
  destruct (obj_get (rooms st) roomId) as [s|] eqn:Hget.
  - cbn [state_of rooms with_rooms].
    now destruct (set_delete s (c_userId (user socket))).
  - destruct (JS.inherited roomId); cbn [state_of];
      now rewrite rooms_socket_leave.
Qed.

Lemma rooms_inv_leaveRoom socket roomId st :
  NoDup (obj_keys (rooms st)) /\ rooms_nonempty (rooms st) ->
  NoDup (obj_keys (rooms (state_of (on_leaveRoom socket roomId st)))) /\
  rooms_nonempty (rooms (state_of (on_leaveRoom socket roomId st))).
Proof.
  intros Hinv. rewrite on_leaveRoom_rooms.
  destruct (obj_get (rooms st) roomId) as [s|] eqn:Hget; [|exact Hinv].
  destruct (set_delete s (c_userId (user socket))) as [|y s'] eqn:Hdel.
  - destruct Hinv as [Hnd Hne]. split.
    + now apply NoDup_keys_delete, NoDup_keys_set.
    + intros r x Hin. apply In_obj_delete in Hin as [Hin Hr].
      apply In_obj_set in Hin; [|assumption].
      destruct Hin as [[Hr' _]|[_ Hin]]; [contradiction | eauto].
  - apply rooms_inv_set; [discriminate | assumption].
Qed.

Lemma rooms_on_connection socket now st :
  rooms (fst (on_connection socket now st)) = rooms st.
Proof. reflexivity. Qed.

Lemma rooms_on_updateLanguagePreference socket data st :
  rooms (fst (on_updateLanguagePreference socket data st)) = rooms st.
Proof.
  unfold on_updateLanguagePreference.
  destruct (language data) as [l|]; [|reflexivity].
  destruct (obj_get (users st) (id socket)); [|reflexivity].
  now destruct (JS.truthy_str l).
Qed.

Lemma rooms_on_callUser socket data st :
  rooms (fst (on_callUser socket data st)) = rooms st.
Proof.
  unfold on_callUser. destruct (JS.truthy (cu_roomId data)); [reflexivity|].
  destruct (findUserByUserId (users st) (to data)) as [u|]; [|reflexivity].
  now destruct (is_live st (socketId u)).
Qed.

Lemma rooms_inv_step st i :
  NoDup (obj_keys (rooms st)) /\ rooms_nonempty (rooms st) ->
  NoDup (obj_keys (rooms (fst (step st i)))) /\
  rooms_nonempty (rooms (fst (step st i))).
Proof.
  intros Hinv. destruct i as [s t|s d|s r|s r|s d t|s d|s d|s r|s t|k|];
    cbn [step fst].
  - exact Hinv.
  - now rewrite rooms_on_updateLanguagePreference.
  - now apply rooms_inv_joinRoom.
  - now apply rooms_inv_leaveRoom.
  - exact Hinv.
  - now rewrite rooms_on_callUser.
  - exact Hinv.
  - unfold on_leaveGroupCall. cbn [fst]. now rewrite rooms_socket_leave.
  - unfold on_disconnect.
    change (users (transport_close (id s) st)) with (users st).
    change (rooms (transport_close (id s) st)) with (rooms st).
    destruct (obj_get (users st) (id s)); cbn [fst rooms with_rooms].
    + now apply rooms_inv_remove.
    + exact Hinv.
  - unfold deletion_timer. destruct (obj_get (users st) k) as [u|]; [|exact Hinv].
    now destruct (Status_eqb (status u) offline).
  - exact Hinv.
Qed.

Lemma rooms_inv_run inputs : forall st,
  NoDup (obj_keys (rooms st)) /\ rooms_nonempty (rooms st) ->
  NoDup (obj_keys (rooms (run st inputs))) /\
  rooms_nonempty (rooms (run st inputs)).
Proof.
  induction inputs as [|i l IH]; intros st Hinv; [exact Hinv|].
  simpl. apply IH. now apply rooms_inv_step.
Qed.

(** C7. After any sequence of events handled from the initial state (in
    particular any sequence of [joinRoom], [leaveRoom] and [disconnect]),
    every entry of [rooms] has at least one member. *)
Theorem rooms_never_empty :
  forall (inputs : list Input) (roomId : string) (s : sset),
    In (roomId, s) (rooms (run init inputs)) -> s <> [].
Proof.
  intros inputs.
  apply (rooms_inv_run inputs init). split.
  - constructor.
  - intros r s [].
Qed.

Lemma rooms_never_empty_witness :
  rooms (run init [Connection alice1 100; Connection bob1 200;
                   JoinRoom alice1 "lobby"; JoinRoom bob1 "lobby";
                   JoinRoom alice1 "solo"; LeaveRoom bob1 "solo";
                   LeaveRoom alice1 "solo"; Disconnect alice1 900]) =
    [("lobby", ["bob"])] /\
  ["bob"] <> [].
Proof.
  split; [reflexivity|].
  apply (rooms_never_empty
           [Connection alice1 100; Connection bob1 200;
            JoinRoom alice1 "lobby"; JoinRoom bob1 "lobby";
            JoinRoom alice1 "solo"; LeaveRoom bob1 "solo";
            LeaveRoom alice1 "solo"; Disconnect alice1 900] "lobby").
  simpl. auto.
Defined.

(** ** Disconnect and the retained offline session *)

Lemma registry_update_wf us us' :
  users_wf us -> one_session_per_user us -> registry_update us us' ->
  users_wf us' /\ one_session_per_user us'.
Proof.
  intros [Hnd Hkey] Huniq [Hnd' Hsub]. split; [split; [assumption|]|].
  - intros k u' Hin. destruct (Hsub _ _ Hin) as [u [Hu [Hs _]]].
    rewrite Hs. now apply Hkey.
  - intros k1 u1 k2 u2 H1 H2 Hu.
    destruct (Hsub _ _ H1) as [v1 [Hv1 [_ E1]]].
    destruct (Hsub _ _ H2) as [v2 [Hv2 [_ E2]]].
    apply (Huniq k1 v1 k2 v2); congruence.
Qed.

Lemma registry_update_delete us k :
  NoDup (obj_keys us) -> registry_update us (obj_delete us k).
Proof.
  intros Hnd. split; [now apply NoDup_keys_delete|].
  intros k' u' Hin. apply In_obj_delete in Hin as [Hin _]. now exists u'.
Qed.

Lemma registry_update_set us k u u' :
  NoDup (obj_keys us) -> obj_get us k = Some u ->
  socketId u' = socketId u -> userId u' = userId u ->
  registry_update us (obj_set us k u').
Proof.
  intros Hnd Hget Hs Hu. split; [now apply NoDup_keys_set|].
  intros k' v Hin. apply In_obj_set in Hin; [|assumption].
  destruct Hin as [[-> ->]|[_ Hin]].
  - exists u. auto using obj_get_In.
  - now exists v.
Qed.

Lemma registry_update_refl us : NoDup (obj_keys us) -> registry_update us us.
Proof. intros Hnd. split; [assumption|]. intros k u Hin. now exists u. Qed.

Lemma sweep_spec st :
  NoDup (obj_keys (users st)) ->
  users (sweep st) = filter (fun kv => is_live st (fst kv)) (users st).
Proof.
  intros Hnd. unfold sweep. cbn [users with_users].
  rewrite (fold_keys_spec _ (sweep_step st)
             (fun k v => if is_live st k then Some v else None)).
  - generalize (users st) as us.
    induction us as [|[k v] t IH]; simpl; [reflexivity|].
    destruct (is_live st k); simpl; now rewrite IH.
  - intros o1 k v o2 H1 H2. unfold sweep_step.
    destruct (is_live st k); [reflexivity|].
    now apply obj_delete_middle.
  - assumption.
Qed.

Lemma registry_update_filter us (p : string * Session -> bool) :
  NoDup (obj_keys us) -> registry_update us (filter p us).
Proof.
  intros Hnd. split; [now apply NoDup_keys_filter|].
  intros k u Hin. apply filter_In in Hin as [Hin _]. now exists u.
Qed.

Lemma on_connection_wf socket now st :
  users_wf (users st) -> one_session_per_user (users st) ->
  users_wf (users (fst (on_connection socket now st))) /\
  one_session_per_user (users (fst (on_connection socket now st))).
Proof.
  intros [Hnd Hkey] Huniq. split; [split|].
  - now apply on_connection_NoDup.
  - intros k u Hin. apply In_on_connection in Hin; [|assumption].
    destruct Hin as [[-> ->]|[_ [_ Hin]]]; [reflexivity | now apply Hkey].
  - intros k1 u1 k2 u2 H1 H2 Hu.
    apply In_on_connection in H1; [|assumption].
    apply In_on_connection in H2; [|assumption].
    destruct H1 as [[-> ->]|[_ [N1 H1]]]; destruct H2 as [[-> ->]|[_ [N2 H2]]].
    + reflexivity.
    + simpl in Hu. congruence.
    + simpl in Hu. congruence.
    + now apply (Huniq k1 u1 k2 u2).
Qed.

Lemma users_on_joinRoom socket roomId st :
  users (state_of (on_joinRoom socket roomId st)) = users st.
Proof.
  unfold on_joinRoom. cbv zeta.
  now destruct (rooms_ref _ roomId).
Qed.

Lemma users_on_leaveRoom socket roomId st :
  users (state_of (on_leaveRoom socket roomId st)) = users st.
Proof.
  unfold on_leaveRoom. cbv zeta.
  destruct (rooms_ref _ roomId); cbn [state_of users with_rooms];
    now rewrite users_socket_leave.
Qed.

(** Every handler keeps the registry well keyed and with one session per
    user. *)
Lemma step_registry_update st i :
  users_wf (users st) -> one_session_per_user (users st) ->
  users_wf (users (fst (step st i))) /\
  one_session_per_user (users (fst (step st i))).
Proof.
  intros Hwf Huniq. pose proof Hwf as [Hnd Hkey].
  assert (Hsame : users_wf (users st) /\ one_session_per_user (users st))
    by now split.
  destruct i as [s t|s d|s r|s r|s d t|s d|s d|s r|s t|k|]; cbn [step fst].
  - now apply (on_connection_wf s t (transport_open (id s) st)).
  - apply (registry_update_wf (users st)); try assumption.
    unfold on_updateLanguagePreference.
    destruct (language d) as [l|]; [|now apply registry_update_refl].
    destruct (obj_get (users st) (id s)) as [u|] eqn:Hget;
      [|now apply registry_update_refl].
    destruct (JS.truthy_str l); [|now apply registry_update_refl].
    now apply registry_update_set with (u := u).
  - now rewrite users_on_joinRoom.
  - now rewrite users_on_leaveRoom.
  - exact Hsame.
  - apply (registry_update_wf (users st)); try assumption.
    unfold on_callUser.
    destruct (JS.truthy (cu_roomId d)); [now apply registry_update_refl|].
    destruct (findUserByUserId (users st) (to d)) as [u|];
      [|now apply registry_update_refl].
    destruct (is_live st (socketId u)); [now apply registry_update_refl|].
    now apply registry_update_delete.
  - exact Hsame.
  - unfold on_leaveGroupCall. cbn [fst]. now rewrite users_socket_leave.
  - apply (registry_update_wf (users st)); try assumption.
    unfold on_disconnect.
    change (users (transport_close (id s) st)) with (users st).
    destruct (obj_get (users st) (id s)) as [u|] eqn:Hget;
      [|now apply registry_update_refl].
    now apply registry_update_set with (u := u).
  - apply (registry_update_wf (users st)); try assumption.
    unfold deletion_timer.
    destruct (obj_get (users st) k) as [u|]; [|now apply registry_update_refl].
    destruct (Status_eqb (status u) offline);
      [now apply registry_update_delete | now apply registry_update_refl].
  - apply (registry_update_wf (users st)); try assumption.
    rewrite sweep_spec by assumption. now apply registry_update_filter.
Qed.

Lemma run_registry_wf inputs : forall st,
  users_wf (users st) -> one_session_per_user (users st) ->
  users_wf (users (run st inputs)) /\
  one_session_per_user (users (run st inputs)).
Proof.
  induction inputs as [|i l IH]; intros st Hwf Huniq; [now split|].
  simpl. destruct (step_registry_update st i Hwf Huniq). now apply IH.
Qed.

(** Invariant I1 and the keying of the registry hold in every state reached
    from the initial one. *)
Lemma reachable_registry_wf inputs :
  users_wf (users (run init inputs)) /\
  one_session_per_user (users (run init inputs)).
Proof.
  apply run_registry_wf.
  - split; [constructor | intros k u []].
  - intros k1 u1 k2 u2 [].
Qed.

Lemma negb_eqb_true a b : negb (a =? b) = true <-> a <> b.
Proof. destruct (String.eqb_spec a b); simpl; intuition congruence. Qed.

(** One input that is none of the evicting ones leaves the stored session
    where it is. *)
Lemma step_keeps_session st i sid uid off :
  users_wf (users st) -> one_session_per_user (users st) ->
  obj_get (users st) sid = Some off -> userId off = uid ->
  leaves_session sid uid i = true ->
  obj_get (users (fst (step st i))) sid = Some off.
Proof.
  intros [Hnd Hkey] Huniq Hget Hoff Hi.
  destruct i as [s t|s d|s r|s r|s d t|s d|s d|s r|s t|k|];
    cbn [step fst]; cbn [leaves_session] in Hi.
  - apply andb_true_iff in Hi as [H1 H2].
    apply negb_eqb_true in H1, H2.
    apply In_obj_get.
    + now apply (on_connection_NoDup s t (transport_open (id s) st)).
    + apply In_on_connection; [exact Hnd|]. right.
      repeat split; [congruence | congruence |].
      now apply obj_get_In.
  - apply negb_eqb_true in Hi. unfold on_updateLanguagePreference.
    destruct (language d) as [l|]; [|assumption].
    destruct (obj_get (users st) (id s)) as [u|]; [|assumption].
    destruct (JS.truthy_str l); [|assumption].
    cbn [fst users with_users]. rewrite obj_get_set_other; congruence.
  - now rewrite users_on_joinRoom.
  - now rewrite users_on_leaveRoom.
  - assumption.
  - unfold on_callUser.
    destruct (JS.truthy (cu_roomId d)); [assumption|]. simpl in Hi.
    destruct (findUserByUserId (users st) (to d)) as [u|] eqn:Hfind;
      [|assumption].
    destruct (is_live st (socketId u)); [assumption|].
    cbn [fst users with_users].
    rewrite obj_get_delete_other; [assumption|].
    intros Hsid.
    apply findUserByUserId_In in Hfind as [k0 [Hin Heq]].
    pose proof (Hkey _ _ Hin) as Hk0.
    assert (u = off).
    { rewrite Hk0 in Hsid. subst k0.
      pose proof (In_obj_get _ _ _ _ Hnd Hin). congruence. }
    subst u. rewrite Hoff in Heq. rewrite Heq in Hi. discriminate.
  - assumption.
  - unfold on_leaveGroupCall. cbn [fst]. now rewrite users_socket_leave.
  - apply negb_eqb_true in Hi. unfold on_disconnect.
    change (users (transport_close (id s) st)) with (users st).
    destruct (obj_get (users st) (id s)) as [u|]; [|assumption].
    cbn [fst users with_users with_rooms]. rewrite obj_get_set_other; congruence.
  - apply negb_eqb_true in Hi. unfold deletion_timer.
    destruct (obj_get (users st) k) as [u|]; [|assumption].
    destruct (Status_eqb (status u) offline); [|assumption].
    cbn [users with_users]. rewrite obj_get_delete_other; congruence.
  - discriminate.
Qed.

Lemma run_keeps_session sid uid off later : forall st,
  users_wf (users st) -> one_session_per_user (users st) ->
  obj_get (users st) sid = Some off -> userId off = uid ->
  Forall (fun i => leaves_session sid uid i = true) later ->
  users_wf (users (run st later)) /\
  one_session_per_user (users (run st later)) /\
  obj_get (users (run st later)) sid = Some off.
Proof.
  induction later as [|i l IH]; intros st Hwf Huniq Hget Hoff Hall.
  - auto.
  - inversion Hall as [|? ? Hi Hl]; subst. simpl.
    destruct (step_registry_update st i Hwf Huniq) as [Hwf' Huniq'].
    apply IH; auto.
    now apply step_keeps_session with (uid := userId off).
Qed.

Lemma obj_get_filter_map (V : Type) (f : string -> V -> option V) (o : obj V) k v :
  NoDup (obj_keys o) -> In (k, v) o ->
  obj_get (obj_filter_map f o) k = f k v.
Proof.
  intros Hnd Hin. destruct (f k v) as [v'|] eqn:Hf.
  - apply In_obj_get; [now apply NoDup_keys_filter_map|].
    apply In_obj_filter_map. now exists v.
  - apply obj_get_None. intros Hk. unfold obj_keys in Hk.
    apply in_map_iff in Hk as [[k' w] [Hfst Hw]]. simpl in Hfst. subst k'.
    apply In_obj_filter_map in Hw as [v0 [Hin0 Hf0]].
    pose proof (In_obj_get _ _ _ _ Hnd Hin).
    pose proof (In_obj_get _ _ _ _ Hnd Hin0). congruence.
Qed.

(** C6 (as amended). When a registered connection disconnects: its user id
    is removed from every room that held it, a room whose member set becomes
    empty is deleted, other rooms are untouched; the handler broadcasts
    [userStatusChange] offline for that user once and schedules the deletion
    timer at five minutes; a lookup by user id returns the session with
    status offline and [lastActive] set to the disconnect time, and keeps
    returning it across any later inputs that are none of: the deletion timer
    of that connection, an admission for the same user id (or reusing the
    connection id), the periodic sweep, a direct call to that user, or an
    event of the closed connection itself. *)
Theorem disconnect_cleanup :
  forall (socket : Socket) (now : Z) (st : State) (u : Session)
         (later : list Input),
    users_wf (users st) ->
    one_session_per_user (users st) ->
    NoDup (obj_keys (rooms st)) ->
    obj_get (users st) (id socket) = Some u ->
    userId u = c_userId (user socket) ->
    Forall (fun i => leaves_session (id socket) (c_userId (user socket)) i = true)
           later ->
    let uid := c_userId (user socket) in
    let st' := fst (step st (Disconnect socket now)) in
    (forall roomId s, In (roomId, s) (rooms st') -> ~ In uid s) /\
    (forall roomId s, In (roomId, s) (rooms st) -> In uid s ->
        obj_get (rooms st') roomId =
        match set_delete s uid with
        | [] => None
        | s' => Some s'
        end) /\
    (forall roomId s, In (roomId, s) (rooms st) -> ~ In uid s ->
        obj_get (rooms st') roomId = Some s) /\
    snd (step st (Disconnect socket now)) =
      [Emit (Broadcast (id socket)) (userStatusChange uid offline);
       SetTimeout five_minutes (id socket)] /\
    status (gone_offline u now) = offline /\
    lastActive (gone_offline u now) = now /\
    findUserByUserId (users st') (Some uid) = Some (gone_offline u now) /\
    findUserByUserId (users (run st' later)) (Some uid) =
      Some (gone_offline u now).
Proof.
  intros socket now st u later Hwf Huniq Hrooms Hget Hu Hlater uid st'.
  assert (Hstep : step st (Disconnect socket now) =
                  (with_rooms
                     (with_users (transport_close (id socket) st)
                        (obj_set (users st) (id socket) (gone_offline u now)))
                     (remove_from_rooms uid (rooms st)),
                   [Emit (Broadcast (id socket)) (userStatusChange uid offline);
                    SetTimeout five_minutes (id socket)])).
  { cbn [step]. unfold on_disconnect.
    change (users (transport_close (id socket) st)) with (users st).
    rewrite Hget. reflexivity. }
  assert (Hr : rooms st' = obj_filter_map (without_member uid) (rooms st)).
  { unfold st'. rewrite Hstep. cbn [fst rooms with_rooms].
    now apply remove_from_rooms_spec. }
  assert (Hus : users st' = obj_set (users st) (id socket) (gone_offline u now)).
  { unfold st'. now rewrite Hstep. }
  assert (Hupd : registry_update (users st) (users st')).
  { rewrite Hus. destruct Hwf. now apply registry_update_set with (u := u). }
  destruct (registry_update_wf _ _ Hwf Huniq Hupd) as [Hwf' Huniq'].
  assert (Hget' : obj_get (users st') (id socket) = Some (gone_offline u now))
    by (rewrite Hus; apply obj_get_set_same).
  assert (Hid : userId (gone_offline u now) = uid) by exact Hu.
  split; [|split; [|split; [|split; [|split; [|split; [|split]]]]]].
  - intros r s Hin. rewrite Hr in Hin.
    apply In_obj_filter_map in Hin as [s0 [_ Hf]].
    unfold without_member in Hf. destruct (set_has s0 uid) eqn:Hhas.
    + destruct (set_delete s0 uid) eqn:Hdel; [discriminate|].
      injection Hf as <-. rewrite <- Hdel, In_set_delete. tauto.
    + injection Hf as <-. rewrite <- set_has_In. congruence.
  - intros r s Hin Hmem. rewrite Hr.
    rewrite (obj_get_filter_map _ _ _ r s Hrooms Hin).
    unfold without_member. apply set_has_In in Hmem. now rewrite Hmem.
  - intros r s Hin Hmem. rewrite Hr.
    rewrite (obj_get_filter_map _ _ _ r s Hrooms Hin).
    unfold without_member.
    destruct (set_has s uid) eqn:Hhas; [|reflexivity].
    apply set_has_In in Hhas. contradiction.
  - now rewrite Hstep.
  - reflexivity.
  - reflexivity.
  - rewrite <- Hid. now apply findUserByUserId_stored with (sid := id socket).
  - destruct (run_keeps_session (id socket) uid (gone_offline u now) later st'
                Hwf' Huniq' Hget' Hid Hlater) as [Hw [Hq Hg]].
    rewrite <- Hid. now apply findUserByUserId_stored with (sid := id socket).
Qed.

Lemma alice_and_bob_one_session : one_session_per_user (users alice_and_bob).
Proof.
  intros k1 u1 k2 u2 H1 H2 Hu. simpl in H1, H2.
  sample_entries; simpl in Hu; congruence.
Qed.

Lemma disconnect_cleanup_witness :
  obj_get (rooms (fst (step chatting (Disconnect alice1 900)))) "solo" = None /\
  obj_get (rooms (fst (step chatting (Disconnect alice1 900)))) "lobby" =
    Some ["bob"] /\
  findUserByUserId
    (users (run (fst (step chatting (Disconnect alice1 900)))
                [SendMessage bob1 (mkSendMessageData (Some "alice") (Some "hi") None) 950;
                 Connection carol1 960;
                 DeletionTimer "s2"]))
    (Some "alice") = Some (mkSession "s1" "alice" "Alice" offline 900 "en").
Proof.
  destruct (disconnect_cleanup alice1 900 chatting
              (mkSession "s1" "alice" "Alice" online 100 "en")
              [SendMessage bob1 (mkSendMessageData (Some "alice") (Some "hi") None) 950;
               Connection carol1 960;
               DeletionTimer "s2"])
    as [_ [Hdel [_ [_ [_ [_ [_ Hfind]]]]]]].
  - exact alice_and_bob_wf.
  - exact alice_and_bob_one_session.
  - repeat constructor; simpl; intuition discriminate.
  - reflexivity.
  - reflexivity.
  - repeat constructor.
  - split; [|split].
    + apply (Hdel "solo" ["alice"]); simpl; auto.
    + apply (Hdel "lobby" ["alice"; "bob"]); simpl; auto.
    + exact Hfind.
Defined.

(** C6 (counterexample). Alice connects and disconnects; the lookup returns
    her offline session.  A sweep follows, with no deletion timer fired and
    no new admission: the channel is closed, the sweep deletes the entry and
    the lookup finds nothing. *)
Lemma offline_session_swept_early :
  let st := run init [Connection alice1 100; Disconnect alice1 200] in
  Forall (fun i => timer_or_readmission "s1" "alice" i = false) [Sweep] /\
  findUserByUserId (users st) (Some "alice") =
    Some (mkSession "s1" "alice" "Alice" offline 200 "en") /\
  findUserByUserId (users (run st [Sweep])) (Some "alice") = None.
Proof. split; [repeat constructor | split; reflexivity]. Qed.

(** * Further properties of the handlers *)

(** ** Where the entries of the registry come from *)

Lemma findUserByUserId_none us v :
  (forall k u, In (k, u) us -> JS.strict_eq (userId u) v = false) ->
  findUserByUserId us v = None.
Proof.
  intros H. destruct (findUserByUserId us v) as [u|] eqn:E; [|reflexivity].
  apply findUserByUserId_In in E as [k [Hin Heq]].
  rewrite (H k u Hin) in Heq. discriminate.
Qed.

Lemma is_live_In st k : is_live st k = true <-> In k (sockets st).
Proof. apply existsb_eqb_In. Qed.

(** Every entry found after one input is an untouched entry of the state
    before, the session just admitted, or the stored session of the acting
    connection with its language or its status rewritten. *)
Lemma step_entry_origin st i k u' :
  NoDup (obj_keys (users st)) ->
  In (k, u') (users (fst (step st i))) ->
  (In (k, u') (users st) /\
   (forall s t, i = Connection s t -> k <> id s) /\
   (forall s t, i = Disconnect s t -> k <> id s)) \/
  (exists s t, i = Connection s t /\ k = id s /\ u' = new_session s t) \/
  (exists s d l u, i = UpdateLanguagePreference s d /\ language d = Some l /\
                   JS.truthy_str l = true /\ k = id s /\
                   In (k, u) (users st) /\ u' = set_preferredLanguage u l) \/
  (exists s now u, i = Disconnect s now /\ k = id s /\
                   In (k, u) (users st) /\ u' = gone_offline u now).
Proof.
  intros Hnd.
  assert (Hold : In (k, u') (users st) ->
                 (forall s t, i = Connection s t -> k <> id s) ->
                 (forall s t, i = Disconnect s t -> k <> id s) ->
                 (In (k, u') (users st) /\
                  (forall s t, i = Connection s t -> k <> id s) /\
                  (forall s t, i = Disconnect s t -> k <> id s)) \/
                 (exists s t, i = Connection s t /\ k = id s /\
                              u' = new_session s t) \/
                 (exists s d l u, i = UpdateLanguagePreference s d /\
                                  language d = Some l /\
                                  JS.truthy_str l = true /\ k = id s /\
                                  In (k, u) (users st) /\
                                  u' = set_preferredLanguage u l) \/
                 (exists s now u, i = Disconnect s now /\ k = id s /\
                                  In (k, u) (users st) /\
                                  u' = gone_offline u now))
    by (intros; left; auto).
  destruct i as [s t|s d|s r|s r|s d t|s d|s d|s r|s t|sid|]; cbn [step fst];
    intros Hin.
  - apply (In_on_connection s t (transport_open (id s) st)) in Hin;
      [|exact Hnd].
    destruct Hin as [[-> ->]|[Hk [_ Hin]]].
    + right. left. now exists s, t.
    + apply Hold; [exact Hin | intros ? ? [= <- _]; exact Hk | discriminate].
  - unfold on_updateLanguagePreference in Hin.
    destruct (language d) as [l|] eqn:Hl;
      [|apply Hold; [exact Hin | discriminate | discriminate]].
    destruct (obj_get (users st) (id s)) as [u|] eqn:Hget;
      [|apply Hold; [exact Hin | discriminate | discriminate]].
    destruct (JS.truthy_str l) eqn:Ht;
      [|apply Hold; [exact Hin | discriminate | discriminate]].
    cbn [fst users with_users] in Hin.
    apply In_obj_set in Hin; [|assumption].
    destruct Hin as [[-> ->]|[_ Hin]].
    + right. right. left. exists s, d, l, u.
      repeat split; auto using obj_get_In.
    + apply Hold; [exact Hin | discriminate | discriminate].
  - rewrite users_on_joinRoom in Hin.
    apply Hold; [exact Hin | discriminate | discriminate].
  - rewrite users_on_leaveRoom in Hin.
    apply Hold; [exact Hin | discriminate | discriminate].
  - apply Hold; [exact Hin | discriminate | discriminate].
  - assert (Hsub : In (k, u') (users st)).
    { unfold on_callUser in Hin.
      destruct (JS.truthy (cu_roomId d)); [exact Hin|].
      destruct (findUserByUserId (users st) (to d)) as [u|]; [|exact Hin].
      destruct (is_live st (socketId u)); [exact Hin|].
      cbn [fst users with_users] in Hin.
      now apply In_obj_delete in Hin. }
    apply Hold; [exact Hsub | discriminate | discriminate].
  - apply Hold; [exact Hin | discriminate | discriminate].
  - unfold on_leaveGroupCall in Hin. cbn [fst] in Hin.
    rewrite users_socket_leave in Hin.
    apply Hold; [exact Hin | discriminate | discriminate].
  - unfold on_disconnect in Hin.
    change (users (transport_close (id s) st)) with (users st) in Hin.
    destruct (obj_get (users st) (id s)) as [u|] eqn:Hget.
    + cbn [fst users with_users with_rooms] in Hin.
      apply In_obj_set in Hin; [|assumption].
      destruct Hin as [[-> ->]|[Hk Hin]].
      * right. right. right. exists s, t, u.
        repeat split; auto using obj_get_In.
      * apply Hold; [exact Hin | discriminate | intros ? ? [= <- _]; exact Hk].
    + apply Hold; [exact Hin | discriminate |].
      intros ? ? [= <- _] ->.
      apply obj_get_None in Hget. apply Hget. eapply In_keys; eauto.
  - assert (Hsub : In (k, u') (users st)).
    { unfold deletion_timer in Hin.
      destruct (obj_get (users st) sid) as [u|]; [|exact Hin].
      destruct (Status_eqb (status u) offline); [|exact Hin].
      cbn [users with_users] in Hin. now apply In_obj_delete in Hin. }
    apply Hold; [exact Hsub | discriminate | discriminate].
  - rewrite sweep_spec in Hin by assumption.
    apply filter_In in Hin as [Hin _].
    apply Hold; [exact Hin | discriminate | discriminate].
Qed.

Lemma step_sockets st i :
  sockets (fst (step st i)) =
  match i with
  | Connection s _ => set_add (sockets st) (id s)
  | Disconnect s _ => set_delete (sockets st) (id s)
  | _ => sockets st
  end.
Proof.
  destruct i as [s t|s d|s r|s r|s d t|s d|s d|s r|s t|sid|]; cbn [step fst];
    try reflexivity.
  - unfold on_updateLanguagePreference.
    destruct (language d) as [l|]; [|reflexivity].
    destruct (obj_get (users st) (id s)); [|reflexivity].
    now destruct (JS.truthy_str l).
  - unfold on_joinRoom. cbv zeta. now destruct (rooms_ref _ r).
  - unfold on_leaveRoom, socket_leave. cbv zeta.
    destruct (obj_get (adapter st) r); now destruct (rooms_ref _ r).
  - unfold on_callUser. destruct (JS.truthy (cu_roomId d)); [reflexivity|].
    destruct (findUserByUserId (users st) (to d)) as [u|]; [|reflexivity].
    now destruct (is_live st (socketId u)).
  - unfold on_leaveGroupCall, socket_leave. cbn [fst].
    now destruct (obj_get (adapter st) r).
  - unfold on_disconnect.
    change (users (transport_close (id s) st)) with (users st).
    now destruct (obj_get (users st) (id s)).
  - unfold deletion_timer. destruct (obj_get (users st) sid) as [u|];
      [|reflexivity].
    now destruct (Status_eqb (status u) offline).
Qed.

Lemma Status_eqb_online u : Status_eqb (status u) online = true <-> status u = online.
Proof. destruct (status u); simpl; split; congruence. Qed.

(** In every state reached from the initial one, a stored session is online
    exactly when its channel is open. *)
Lemma online_iff_live inputs : forall st,
  NoDup (obj_keys (users st)) ->
  (forall k u, In (k, u) (users st) ->
               (status u = online <-> In k (sockets st))) ->
  forall k u, In (k, u) (users (run st inputs)) ->
              (status u = online <-> In k (sockets (run st inputs))).
Proof.
  induction inputs as [|i l IH]; intros st Hnd Hinv; [exact Hinv|].
  simpl. apply IH.
  - destruct i as [s t|s d|s r|s r|s d t|s d|s d|s r|s t|sid|];
      try (cbn [step fst]; exact Hnd).
    + now apply (on_connection_NoDup s t (transport_open (id s) st)).
    + cbn [step fst]. unfold on_updateLanguagePreference.
      destruct (language d) as [l0|]; [|exact Hnd].
      destruct (obj_get (users st) (id s)); [|exact Hnd].
      destruct (JS.truthy_str l0); [|exact Hnd]. now apply NoDup_keys_set.
    + cbn [step fst]. now rewrite users_on_joinRoom.
    + cbn [step fst]. now rewrite users_on_leaveRoom.
    + cbn [step fst]. unfold on_callUser.
      destruct (JS.truthy (cu_roomId d)); [exact Hnd|].
      destruct (findUserByUserId (users st) (to d)) as [u0|]; [|exact Hnd].
      destruct (is_live st (socketId u0)); [exact Hnd|].
      now apply NoDup_keys_delete.
    + cbn [step fst]. unfold on_leaveGroupCall. cbn [fst].
      now rewrite users_socket_leave.
    + cbn [step fst]. unfold on_disconnect.
      change (users (transport_close (id s) st)) with (users st).
      destruct (obj_get (users st) (id s)); [|exact Hnd].
      now apply NoDup_keys_set.
    + cbn [step fst]. unfold deletion_timer.
      destruct (obj_get (users st) sid) as [u0|]; [|exact Hnd].
      destruct (Status_eqb (status u0) offline); [|exact Hnd].
      now apply NoDup_keys_delete.
    + cbn [step fst]. rewrite sweep_spec by assumption.
      now apply NoDup_keys_filter.
  - intros k u Hin. rewrite step_sockets.
    apply step_entry_origin in Hin; [|assumption].
    destruct Hin as [[Hin [Hc Hd]]|[[s [t [-> [-> ->]]]]|
                     [[s [d [l0 [u0 [-> [_ [_ [-> [Hin ->]]]]]]]]]|
                      [s [now [u0 [-> [-> [Hin ->]]]]]]]]].
    + rewrite (Hinv k u Hin).
      destruct i as [s t|s d|s r|s r|s d t|s d|s d|s r|s t|sid|];
        try reflexivity.
      * rewrite In_set_add. specialize (Hc s t eq_refl). tauto.
      * rewrite In_set_delete. specialize (Hd s t eq_refl). tauto.
    + simpl. rewrite In_set_add. tauto.
    + simpl. apply (Hinv _ _ Hin).
    + simpl. rewrite In_set_delete. split; [discriminate | tauto].
Qed.

Lemma reachable_online_iff_live inputs k u :
  In (k, u) (users (run init inputs)) ->
  (status u = online <-> is_live (run init inputs) k = true).
Proof.
  intros Hin. rewrite is_live_In.
  apply (online_iff_live inputs init); [constructor | intros ? ? [] | exact Hin].
Qed.

(** ** The periodic sweep *)

Lemma filter_filter_same (A : Type) (p : A -> bool) (l : list A) :
  filter p (filter p l) = filter p l.
Proof.
  induction l as [|x t IH]; simpl; [reflexivity|].
  destruct (p x) eqn:E; simpl; [rewrite E; f_equal|]; assumption.
Qed.

(** X1. The sweep keeps, in their order, exactly the entries whose
    connection id is an open channel and deletes every other entry; it
    leaves [rooms] and the transport alone, and sweeping twice is sweeping
    once. *)
Theorem sweep_reconciles :
  forall st : State,
    NoDup (obj_keys (users st)) ->
    users (sweep st) = filter (fun kv => is_live st (fst kv)) (users st) /\
    (forall k u, In (k, u) (users (sweep st)) <->
                 In (k, u) (users st) /\ is_live st k = true) /\
    (forall k, is_live st k = false -> obj_get (users (sweep st)) k = None) /\
    rooms (sweep st) = rooms st /\
    sockets (sweep st) = sockets st /\
    adapter (sweep st) = adapter st /\
    sweep (sweep st) = sweep st.
Proof.
  intros st Hnd. pose proof (sweep_spec st Hnd) as Hs.
  split; [exact Hs|]. split; [|split].
  - intros k u. rewrite Hs, filter_In. reflexivity.
  - intros k Hk. apply obj_get_None. intros Hin. unfold obj_keys in Hin.
    apply in_map_iff in Hin as [[k' u] [Hfst Hin]]. simpl in Hfst. subst k'.
    rewrite Hs in Hin. apply filter_In in Hin as [_ Hlive]. simpl in Hlive.
    congruence.
  - repeat split; try reflexivity.
    assert (Hnd' : NoDup (obj_keys (users (sweep st)))).
    { rewrite Hs. now apply NoDup_keys_filter. }
    pose proof (sweep_spec (sweep st) Hnd') as Hs2.
    change (fun kv : string * Session => is_live (sweep st) (fst kv))
      with (fun kv : string * Session => is_live st (fst kv)) in Hs2.
    rewrite Hs, filter_filter_same, <- Hs in Hs2.
    change (sweep (sweep st))
      with (with_users (sweep st) (users (sweep (sweep st)))).
    rewrite Hs2. reflexivity.
Qed.

Lemma sweep_reconciles_witness :
  users (sweep (with_sockets alice_and_bob ["s2"])) =
  [("s2", mkSession "s2" "bob" "Bob" online 200 "en")].
Proof.
  rewrite (proj1 (sweep_reconciles (with_sockets alice_and_bob ["s2"])
                    (proj1 alice_and_bob_wf))).
  reflexivity.
Defined.

(** X2. In every state reached from the initial one by handled inputs (the
    transport reporting each closed channel by its disconnect event), the
    sweep deletes exactly the offline sessions and keeps the online ones; in
    particular the first sweep after a disconnect removes what the registry
    holds under the closed connection, whether or not the deletion timer has
    fired. *)
Theorem sweep_deletes_offline_sessions :
  forall (inputs : list Input),
    users (sweep (run init inputs)) =
      filter (fun kv => Status_eqb (status (snd kv)) online)
             (users (run init inputs)) /\
    forall socket now,
      obj_get (users (run init (inputs ++ [Disconnect socket now; Sweep])))
              (id socket) = None.
Proof.
  intros inputs.
  destruct (reachable_registry_wf inputs) as [[Hnd _] _]. split.
  - rewrite sweep_spec by assumption. apply filter_ext_in.
    intros [k u] Hin. simpl.
    pose proof (reachable_online_iff_live inputs k u Hin) as H.
    rewrite <- Status_eqb_online in H.
    destruct (Status_eqb (status u) online), (is_live (run init inputs) k);
      intuition congruence.
  - intros socket now.
    change (inputs ++ [Disconnect socket now; Sweep])
      with (inputs ++ [Disconnect socket now] ++ [Sweep]).
    rewrite app_assoc, run_app.
    set (st1 := run init (inputs ++ [Disconnect socket now])).
    destruct (reachable_registry_wf (inputs ++ [Disconnect socket now]))
      as [[Hnd1 _] _].
    change (run st1 [Sweep]) with (sweep st1).
    assert (Hdead : is_live st1 (id socket) = false).
    { destruct (is_live st1 (id socket)) eqn:E; [|reflexivity].
      apply is_live_In in E. unfold st1 in E. rewrite run_app in E.
      change (run (run init inputs) [Disconnect socket now])
        with (fst (step (run init inputs) (Disconnect socket now))) in E.
      rewrite step_sockets in E. apply In_set_delete in E. tauto. }
    apply obj_get_None. intros Hin. unfold obj_keys in Hin.
    apply in_map_iff in Hin as [[k' u] [Hfst Hin]]. simpl in Hfst. subst k'.
    rewrite sweep_spec in Hin by exact Hnd1.
    apply filter_In in Hin as [_ Hlive]. simpl in Hlive. congruence.
Qed.

(** ** The deletion timer *)

Lemma disconnect_registered socket now st u :
  users_wf (users st) -> one_session_per_user (users st) ->
  obj_get (users st) (id socket) = Some u ->
  let st' := fst (step st (Disconnect socket now)) in
  users st' = obj_set (users st) (id socket) (gone_offline u now) /\
  users_wf (users st') /\ one_session_per_user (users st') /\
  obj_get (users st') (id socket) = Some (gone_offline u now).
Proof.
  intros Hwf Huniq Hget st'.
  assert (Hus : users st' = obj_set (users st) (id socket) (gone_offline u now)).
  { unfold st'. cbn [step]. unfold on_disconnect.
    change (users (transport_close (id socket) st)) with (users st).
    rewrite Hget. reflexivity. }
  assert (Hupd : registry_update (users st) (users st')).
  { rewrite Hus. destruct Hwf. now apply registry_update_set with (u := u). }
  destruct (registry_update_wf _ _ Hwf Huniq Hupd) as [Hwf' Huniq'].
  repeat split; try assumption; try apply Hwf'.
  rewrite Hus. apply obj_get_set_same.
Qed.

(** X3. When the deletion timer of a disconnected connection fires and none
    of the other evictions has happened since the disconnect, the session is
    deleted: nothing is stored under the connection id any more, a lookup by
    the user id finds nothing, and every other entry and [rooms] are
    untouched. *)
Theorem deletion_timer_removes_offline_session :
  forall (socket : Socket) (now : Z) (st : State) (u : Session)
         (later : list Input),
    users_wf (users st) ->
    one_session_per_user (users st) ->
    obj_get (users st) (id socket) = Some u ->
    userId u = c_userId (user socket) ->
    Forall (fun i => leaves_session (id socket) (c_userId (user socket)) i = true)
           later ->
    let st2 := run (fst (step st (Disconnect socket now))) later in
    let st3 := deletion_timer (id socket) st2 in
    obj_get (users st3) (id socket) = None /\
    findUserByUserId (users st3) (Some (c_userId (user socket))) = None /\
    (forall k, k <> id socket ->
               obj_get (users st3) k = obj_get (users st2) k) /\
    rooms st3 = rooms st2.
Proof.
  intros socket now st u later Hwf Huniq Hget Hu Hlater st2 st3.
  destruct (disconnect_registered socket now st u Hwf Huniq Hget)
    as [_ [Hwf1 [Huniq1 Hget1]]].
  destruct (run_keeps_session (id socket) (c_userId (user socket))
              (gone_offline u now) later _ Hwf1 Huniq1 Hget1 Hu Hlater)
    as [[Hnd2 Hkey2] [Huniq2 Hget2]].
  fold st2 in Hnd2, Hkey2, Huniq2, Hget2.
  assert (Hst3 : st3 = with_users st2 (obj_delete (users st2) (id socket))).
  { unfold st3, deletion_timer. now rewrite Hget2. }
  rewrite Hst3. cbn [users rooms with_users].
  split; [apply obj_get_delete_same|]. split; [|split; [|reflexivity]].
  - apply findUserByUserId_none. intros k v Hin. simpl.
    apply In_obj_delete in Hin as [Hin Hk].
    destruct (String.eqb_spec (userId v) (c_userId (user socket))) as [E|];
      [|reflexivity].
    exfalso. apply Hk.
    apply (Huniq2 k v (id socket) (gone_offline u now));
      [exact Hin | now apply obj_get_In | simpl; congruence].
  - intros k Hk. now apply obj_get_delete_other.
Qed.

Lemma deletion_timer_removes_offline_session_witness :
  findUserByUserId
    (users (deletion_timer "s1"
              (run (fst (step chatting (Disconnect alice1 900)))
                   [Connection carol1 960])))
    (Some "alice") = None.
Proof.
  apply (deletion_timer_removes_offline_session alice1 900 chatting
           (mkSession "s1" "alice" "Alice" online 100 "en")
           [Connection carol1 960]).
  - exact alice_and_bob_wf.
  - exact alice_and_bob_one_session.
  - reflexivity.
  - reflexivity.
  - repeat constructor.
Defined.

(** X4. If the user is admitted again on a new connection after the
    disconnect, the old connection's deletion timer changes nothing when it
    fires, and the lookup keeps returning the new, online session. *)
Theorem deletion_timer_after_readmission_noop :
  forall (old new : Socket) (now t : Z) (st : State) (u : Session),
    NoDup (obj_keys (users st)) ->
    obj_get (users st) (id old) = Some u ->
    userId u = c_userId (user old) ->
    id new <> id old ->
    c_userId (user new) = c_userId (user old) ->
    let st2 := run st [Disconnect old now; Connection new t] in
    deletion_timer (id old) st2 = st2 /\
    findUserByUserId (users st2) (Some (c_userId (user old))) =
      Some (new_session new t).
Proof.
  intros old new now t st u Hnd Hget Hu Hid Huid st2.
  set (st1 := fst (step st (Disconnect old now))).
  assert (Hus1 : users st1 = obj_set (users st) (id old) (gone_offline u now)).
  { unfold st1. cbn [step]. unfold on_disconnect.
    change (users (transport_close (id old) st)) with (users st).
    rewrite Hget. reflexivity. }
  assert (Hnd1 : NoDup (obj_keys (users (transport_open (id new) st1)))).
  { change (users (transport_open (id new) st1)) with (users st1).
    rewrite Hus1. now apply NoDup_keys_set. }
  assert (Hst2 : st2 = fst (on_connection new t (transport_open (id new) st1)))
    by reflexivity.
  assert (Hgone : obj_get (users st2) (id old) = None).
  { rewrite Hst2. apply superseded_entry_evicted; auto.
    change (users (transport_open (id new) st1)) with (users st1).
    rewrite Hus1, obj_get_set_same. intros v [= <-]. exact Hu. }
  split.
  - unfold deletion_timer. now rewrite Hgone.
  - rewrite Hst2. apply findUserByUserId_unique with (k0 := id new).
    + apply In_on_connection; [exact Hnd1 | now left].
    + simpl. exact Huid.
    + intros k v Hin Hv. apply In_on_connection in Hin; [|exact Hnd1].
      destruct Hin as [[_ ->]|[_ [Hne _]]]; [reflexivity | congruence].
Qed.

Lemma deletion_timer_after_readmission_noop_witness :
  findUserByUserId
    (users (deletion_timer "s1"
              (run alice_and_bob [Disconnect alice1 900; Connection alice2 950])))
    (Some "alice") = Some (mkSession "s3" "alice" "Alice" online 950 "en").
Proof.
  destruct (deletion_timer_after_readmission_noop alice1 alice2 900 950
              alice_and_bob (mkSession "s1" "alice" "Alice" online 100 "en"))
    as [Hnoop Hfind].
  - exact (proj1 alice_and_bob_wf).
  - reflexivity.
  - reflexivity.
  - discriminate.
  - reflexivity.
  - exact (eq_trans
             (f_equal (fun s => findUserByUserId (users s) (Some "alice")) Hnoop)
             Hfind).
Defined.

(** ** What the registry stores *)

Lemma truthy_str_nonempty s : JS.truthy_str s = true <-> s <> "".
Proof.
  unfold JS.truthy_str. destruct (String.eqb_spec s ""); simpl;
    intuition congruence.
Qed.

Lemma or_else_truthy a d :
  JS.truthy_str d = true -> JS.truthy_str (JS.or_else a d) = true.
Proof.
  intros Hd. unfold JS.or_else. destruct a as [s|]; [|assumption].
  now destruct (JS.truthy_str s) eqn:E.
Qed.

Lemma resolve_username_truthy c : JS.truthy_str (resolve_username c) = true.
Proof. unfold resolve_username. now apply or_else_truthy, or_else_truthy. Qed.

Lemma run_sessions_filled inputs : forall st,
  users_wf (users st) -> one_session_per_user (users st) ->
  (forall k u, In (k, u) (users st) ->
               JS.truthy_str (username u) = true /\
               JS.truthy_str (preferredLanguage u) = true) ->
  forall k u, In (k, u) (users (run st inputs)) ->
              JS.truthy_str (username u) = true /\
              JS.truthy_str (preferredLanguage u) = true.
Proof.
  induction inputs as [|i l IH]; intros st Hwf Huniq Hinv; [exact Hinv|].
  simpl. destruct (step_registry_update st i Hwf Huniq) as [Hwf' Huniq'].
  apply IH; try assumption.
  intros k u Hin. apply step_entry_origin in Hin; [|apply Hwf].
  destruct Hin as [[Hin _]|[[s [t [_ [_ ->]]]]|
                   [[s [d [l0 [u0 [_ [_ [Hl [_ [Hin ->]]]]]]]]]|
                    [s [now [u0 [_ [_ [Hin ->]]]]]]]]].
  - now apply (Hinv k u).
  - simpl. split; [apply resolve_username_truthy | reflexivity].
  - simpl. split; [apply (Hinv _ _ Hin) | exact Hl].
  - simpl. apply (Hinv _ _ Hin).
Qed.

(** X5. In every state reached from the initial one, each registry entry is
    stored under its own [socketId], and neither its display name nor its
    preferred language is the empty string: the name falls back to
    ["Unknown"], the language starts as ["en"] and is only ever replaced by a
    truthy one. *)
Theorem stored_sessions_filled :
  forall (inputs : list Input) (k : string) (u : Session),
    In (k, u) (users (run init inputs)) ->
    socketId u = k /\ username u <> "" /\ preferredLanguage u <> "".
Proof.
  intros inputs k u Hin.
  destruct (reachable_registry_wf inputs) as [[_ Hkey] _].
  split; [now apply Hkey|].
  rewrite <- !truthy_str_nonempty.
  apply (run_sessions_filled inputs init) with (k := k).
  - split; [constructor | intros ? ? []].
  - intros ? ? ? ? [].
  - intros ? ? [].
  - exact Hin.
Qed.

Lemma stored_sessions_filled_witness :
  username (mkSession "s4" "carol" "Unknown" online 300 "hi") <> "" /\
  preferredLanguage (mkSession "s4" "carol" "Unknown" online 300 "hi") <> "".
Proof.
  apply (stored_sessions_filled
           [Connection carol1 300;
            UpdateLanguagePreference carol1 (mkLanguageData (Some "hi"));
            UpdateLanguagePreference carol1 (mkLanguageData (Some ""))]
           "s4").
  simpl. auto.
Defined.

(** ** Direct calls and presence *)

Lemma evicted_target_unresolved us v toUser :
  users_wf us -> one_session_per_user us ->
  findUserByUserId us v = Some toUser ->
  findUserByUserId (obj_delete us (socketId toUser)) v = None.
Proof.
  intros Hwf Huniq Hfind.
  apply findUserByUserId_In in Hfind as [k0 [Hin0 Heq0]].
  apply findUserByUserId_none. intros k u Hin.
  apply (delete_own_key us toUser k0 Hwf Hin0) in Hin as [Hin Hne].
  destruct (JS.strict_eq (userId u) v) eqn:E; [|reflexivity].
  exfalso. apply Hne.
  destruct v as [x|]; [|discriminate]. simpl in E, Heq0.
  apply String.eqb_eq in E, Heq0.
  assert (k = k0) by (apply (Huniq k u k0 toUser); congruence).
  subst k. destruct Hwf as [Hnd _].
  pose proof (In_obj_get _ _ _ _ Hnd Hin).
  pose proof (In_obj_get _ _ _ _ Hnd Hin0). congruence.
Qed.



(** X7. After the stale branch of [callUser] has evicted a session, the same
    call repeated emits nothing, not even [userUnavailable], and a chat
    message to that user is dropped with only the acknowledgement to the
    sender. *)
Theorem callUser_eviction_is_final :
  forall (socket : Socket) (data : CallUserData) (st : State)
         (toUser : Session),
    JS.truthy (cu_roomId data) = false ->
    users_wf (users st) ->
    one_session_per_user (users st) ->
    findUserByUserId (users st) (to data) = Some toUser ->
    is_live st (socketId toUser) = false ->
    let st' := fst (on_callUser socket data st) in
    (forall socket', on_callUser socket' data st' = (st', [])) /\
    (forall socket' content now,
        snd (on_sendMessage socket'
               (mkSendMessageData (to data) content None) now st') =
        [Emit (ToSocket (id socket'))
              (messageSent true
                 (message_of socket'
                    (mkSendMessageData (to data) content None) now))]).
Proof.
  intros socket data st toUser Hroom Hwf Huniq Hfind Hdead st'.
  assert (Hus : users st' = obj_delete (users st) (socketId toUser)).
  { unfold st', on_callUser. now rewrite Hroom, Hfind, Hdead. }
  assert (Hnone : findUserByUserId (users st') (to data) = None).
  { rewrite Hus. now apply evicted_target_unresolved. }
  split.
  - intros socket'. unfold on_callUser. now rewrite Hroom, Hnone.
  - intros socket' content now. unfold on_sendMessage. cbn [snd]. cbv zeta.
    cbn [receiverId sm_roomId]. rewrite Hnone. simpl.
    now destruct (JS.truthy (to data)).
Qed.

Lemma callUser_eviction_is_final_witness :
  on_callUser bob1 (mkCallUserData (Some "alice") None None None)
    (fst (on_callUser bob1 (mkCallUserData (Some "alice") None None None)
            (with_sockets alice_and_bob ["s2"]))) =
  (fst (on_callUser bob1 (mkCallUserData (Some "alice") None None None)
          (with_sockets alice_and_bob ["s2"])), []).
Proof.
  apply (proj1 (callUser_eviction_is_final bob1
                  (mkCallUserData (Some "alice") None None None)
                  (with_sockets alice_and_bob ["s2"])
                  (mkSession "s1" "alice" "Alice" online 100 "en")
                  eq_refl alice_and_bob_wf alice_and_bob_one_session
                  eq_refl eq_refl)).
Defined.

(** ** Chat rooms: joining and leaving *)

Lemma obj_set_same (V : Type) (o : obj V) k v :
  obj_get o k = Some v -> obj_set o k v = o.
Proof.
  induction o as [|[k' w] t IH]; simpl; [discriminate|].
  destruct (String.eqb_spec k' k) as [->|Hne].
  - now intros [= ->].
  - intros H. now rewrite IH.
Qed.

Lemma obj_set_set (V : Type) (o : obj V) k a b :
  obj_set (obj_set o k a) k b = obj_set o k b.
Proof.
  induction o as [|[k' w] t IH]; simpl.
  - now rewrite String.eqb_refl.
  - destruct (String.eqb_spec k' k) as [->|Hne]; simpl.
    + now rewrite String.eqb_refl.
    + destruct (String.eqb_spec k' k); [contradiction|]. now rewrite IH.
Qed.

Lemma obj_delete_set_fresh (V : Type) (o : obj V) k v :
  obj_get o k = None -> obj_delete (obj_set o k v) k = o.
Proof.
  intros Hnone. apply obj_get_None in Hnone.
  rewrite obj_set_fresh by assumption.
  rewrite obj_delete_app, obj_delete_fresh by assumption.
  simpl. rewrite String.eqb_refl. apply app_nil_r.
Qed.

Lemma set_delete_notin s x : ~ In x s -> set_delete s x = s.
Proof.
  induction s as [|y t IH]; simpl; [reflexivity|].
  intros Hni. destruct (String.eqb_spec y x) as [->|_]; [tauto|].
  simpl. f_equal. apply IH. tauto.
Qed.

Lemma set_delete_add_fresh s x : ~ In x s -> set_delete (set_add s x) x = s.
Proof.
  intros Hni. unfold set_add.
  destruct (set_has s x) eqn:E; [apply set_has_In in E; contradiction|].
  unfold set_delete. rewrite filter_app. simpl. rewrite String.eqb_refl.
  simpl. rewrite app_nil_r. now apply set_delete_notin.
Qed.

Lemma set_add_member s x : In x s -> set_add s x = s.
Proof. intros H. unfold set_add. apply set_has_In in H. now rewrite H. Qed.

(** X8. For a room id that is not the name of an [Object.prototype]
    property, [joinRoom] returns after one [userJoinedRoom] broadcast to the
    room except the sender; afterwards the member set of the room is the
    former one (empty if the room did not exist) with the user id added,
    every other room is as before, the registry is unchanged and the
    connection is in the transport group of the room. *)
Theorem joinRoom_adds_member :
  forall (socket : Socket) (roomId : string) (st : State),
    JS.inherited roomId = false ->
    exists st',
      on_joinRoom socket roomId st =
        Returned st'
          [Emit (SocketTo (id socket) roomId)
                (userJoinedRoom (c_userId (user socket))
                                (c_username (user socket)) roomId)] /\
      obj_get (rooms st') roomId =
        Some (set_add (members (rooms st) roomId) (c_userId (user socket))) /\
      In (c_userId (user socket)) (members (rooms st') roomId) /\
      (forall r, r <> roomId -> obj_get (rooms st') r = obj_get (rooms st) r) /\
      users st' = users st /\
      In (id socket) (members (adapter st') roomId).
Proof.
  intros socket roomId st Hproto.
  exists (state_of (on_joinRoom socket roomId st)).
  assert (Hret : on_joinRoom socket roomId st =
                 Returned (state_of (on_joinRoom socket roomId st))
                   [Emit (SocketTo (id socket) roomId)
                         (userJoinedRoom (c_userId (user socket))
                                         (c_username (user socket)) roomId)]).
  { unfold on_joinRoom, rooms_ref. cbv zeta.
    change (rooms (socket_join (id socket) roomId st)) with (rooms st).
    destruct (obj_get (rooms st) roomId) as [s|] eqn:Hget.
    - simpl. rewrite Hget. reflexivity.
    - rewrite Hproto. rewrite obj_get_set_same. reflexivity. }
  assert (Hget' : obj_get (rooms (state_of (on_joinRoom socket roomId st)))
                          roomId =
                  Some (set_add (members (rooms st) roomId)
                                (c_userId (user socket)))).
  { rewrite on_joinRoom_rooms. unfold members.
    destruct (obj_get (rooms st) roomId) as [s|]; [|rewrite Hproto];
      apply obj_get_set_same. }
  split; [exact Hret|]. split; [exact Hget'|]. split; [|split; [|split]].
  - unfold members at 1. rewrite Hget'. apply In_set_add. now right.
  - intros r Hr. rewrite on_joinRoom_rooms.
    destruct (obj_get (rooms st) roomId) as [s|]; [|rewrite Hproto];
      rewrite ?obj_get_set_other by assumption; reflexivity.
  - apply users_on_joinRoom.
  - assert (Had : adapter (state_of (on_joinRoom socket roomId st)) =
                  adapter (socket_join (id socket) roomId st)).
    { unfold on_joinRoom. cbv zeta. now destruct (rooms_ref _ roomId). }
    rewrite Had, members_socket_join. apply In_set_add. now right.
Qed.

Lemma joinRoom_adds_member_witness :
  obj_get (rooms (state_of (on_joinRoom bob1 "solo" chatting))) "solo" =
  Some ["alice"; "bob"].
Proof.
  destruct (joinRoom_adds_member bob1 "solo" chatting eq_refl)
    as [st' [Hret [Hget _]]].
  rewrite Hret. exact Hget.
Defined.

(** X9. Joining a room and then leaving it restores [rooms] exactly, for a
    user who was not a member before: an existing room gets its former
    member set back and a room created by the join is deleted again. *)
Theorem joinRoom_leaveRoom_round_trip :
  forall (socket : Socket) (roomId : string) (st : State),
    JS.inherited roomId = false ->
    rooms_nonempty (rooms st) ->
    ~ In (c_userId (user socket)) (members (rooms st) roomId) ->
    rooms (state_of (on_leaveRoom socket roomId
                       (state_of (on_joinRoom socket roomId st)))) =
    rooms st.
Proof.
  intros socket roomId st Hproto Hne Hni.
  rewrite on_leaveRoom_rooms, on_joinRoom_rooms. unfold members in Hni.
  destruct (obj_get (rooms st) roomId) as [s|] eqn:Hget.
  - rewrite obj_get_set_same, set_delete_add_fresh by assumption.
    pose proof (Hne roomId s (obj_get_In _ _ _ _ Hget)) as Hs.
    destruct s as [|y s']; [contradiction|].
    rewrite obj_set_set. now apply obj_set_same.
  - rewrite Hproto, obj_get_set_same.
    rewrite (set_delete_add_fresh [] (c_userId (user socket))) by tauto.
    rewrite !obj_set_set. now apply obj_delete_set_fresh.
Qed.

Lemma joinRoom_leaveRoom_round_trip_witness :
  rooms (state_of (on_leaveRoom bob1 "solo"
                     (state_of (on_joinRoom bob1 "solo" chatting)))) =
  rooms chatting.
Proof.
  apply (joinRoom_leaveRoom_round_trip bob1 "solo" chatting eq_refl).
  - intros r s H. simpl in H.
    repeat (destruct H as [H|H]; [injection H as <- <-; discriminate|]).
    destruct H.
  - simpl. intuition discriminate.
Defined.

(** X10. A user who is already a member of a room and joins it again leaves
    [rooms] unchanged, and the handler still broadcasts [userJoinedRoom]; a
    user who leaves a room they are not a member of (or a room that does not
    exist) leaves [rooms] unchanged, and the handler still broadcasts
    [userLeftRoom]. *)
Theorem room_membership_idempotent :
  forall (socket : Socket) (roomId : string) (st : State),
    rooms_nonempty (rooms st) ->
    JS.inherited roomId = false ->
    (In (c_userId (user socket)) (members (rooms st) roomId) ->
     rooms (state_of (on_joinRoom socket roomId st)) = rooms st /\
     out_of (on_joinRoom socket roomId st) =
       [Emit (SocketTo (id socket) roomId)
             (userJoinedRoom (c_userId (user socket))
                             (c_username (user socket)) roomId)]) /\
    (~ In (c_userId (user socket)) (members (rooms st) roomId) ->
     rooms (state_of (on_leaveRoom socket roomId st)) = rooms st /\
     out_of (on_leaveRoom socket roomId st) =
       [Emit (SocketTo (id socket) roomId)
             (userLeftRoom (c_userId (user socket))
                           (c_username (user socket)) roomId)]).
Proof.
  intros socket roomId st Hne Hproto. unfold members. split.
  - intros Hin. split.
    + rewrite on_joinRoom_rooms.
      destruct (obj_get (rooms st) roomId) as [s|] eqn:Hget; [|destruct Hin].
      rewrite set_add_member by assumption. now apply obj_set_same.
    + unfold on_joinRoom, rooms_ref. cbv zeta.
      change (rooms (socket_join (id socket) roomId st)) with (rooms st).
      destruct (obj_get (rooms st) roomId) as [s|] eqn:Hget; [|destruct Hin].
      simpl. rewrite Hget. reflexivity.
  - intros Hni. split.
    + rewrite on_leaveRoom_rooms.
      destruct (obj_get (rooms st) roomId) as [s|] eqn:Hget; [|reflexivity].
      rewrite set_delete_notin by assumption.
      pose proof (Hne roomId s (obj_get_In _ _ _ _ Hget)) as Hs.
      destruct s as [|y s']; [contradiction|]. now apply obj_set_same.
    + unfold on_leaveRoom, rooms_ref. cbv zeta. rewrite rooms_socket_leave.
      destruct (obj_get (rooms st) roomId) as [s|]; [reflexivity|].
      now rewrite Hproto.
Qed.

Lemma room_membership_idempotent_witness :
  rooms (state_of (on_joinRoom alice1 "lobby" chatting)) = rooms chatting /\
  rooms (state_of (on_leaveRoom bob1 "solo" chatting)) = rooms chatting.
Proof.
  assert (Hne : rooms_nonempty (rooms chatting)).
  { intros r s H. simpl in H.
    repeat (destruct H as [H|H]; [injection H as <- <-; discriminate|]).
    destruct H. }
  split.
  - apply (proj1 (room_membership_idempotent alice1 "lobby" chatting Hne eq_refl)).
    simpl. auto.
  - apply (proj2 (room_membership_idempotent bob1 "solo" chatting Hne eq_refl)).
    simpl. intuition discriminate.
Defined.

(** ** Room ids that name a property of [Object.prototype] *)

Lemma step_room_keys st i k s :
  NoDup (obj_keys (rooms st)) ->
  In (k, s) (rooms (fst (step st i))) ->
  In k (obj_keys (rooms st)) \/ JS.inherited k = false.
Proof.
  intros Hnd.
  assert (Hsub : forall v, In (k, v) (rooms st) ->
                 In k (obj_keys (rooms st)) \/ JS.inherited k = false)
    by (intros v H; left; eapply In_keys; eauto).
  destruct i as [sk t|sk d|sk r|sk r|sk d t|sk d|sk d|sk r|sk t|sid|];
    cbn [step fst]; intros Hin.
  - now apply (Hsub s).
  - rewrite rooms_on_updateLanguagePreference in Hin. now apply (Hsub s).
  - rewrite on_joinRoom_rooms in Hin.
    destruct (obj_get (rooms st) r) as [s0|] eqn:Hget.
    + apply In_obj_set in Hin; [|assumption].
      destruct Hin as [[-> _]|[_ Hin]]; [|now apply (Hsub s)].
      apply (Hsub s0). now apply obj_get_In.
    + destruct (JS.inherited r) eqn:Hproto; [now apply (Hsub s)|].
      rewrite obj_set_set in Hin. apply In_obj_set in Hin; [|assumption].
      destruct Hin as [[-> _]|[_ Hin]]; [now right | now apply (Hsub s)].
  - rewrite on_leaveRoom_rooms in Hin.
    destruct (obj_get (rooms st) r) as [s0|] eqn:Hget; [|now apply (Hsub s)].
    destruct (set_delete s0 (c_userId (user sk))) as [|y s1].
    + apply In_obj_delete in Hin as [Hin Hk].
      apply In_obj_set in Hin; [|assumption].
      destruct Hin as [[Hk' _]|[_ Hin]]; [contradiction | now apply (Hsub s)].
    + apply In_obj_set in Hin; [|assumption].
      destruct Hin as [[-> _]|[_ Hin]]; [|now apply (Hsub s)].
      apply (Hsub s0). now apply obj_get_In.
  - now apply (Hsub s).
  - rewrite rooms_on_callUser in Hin. now apply (Hsub s).
  - now apply (Hsub s).
  - unfold on_leaveGroupCall in Hin. cbn [fst] in Hin.
    rewrite rooms_socket_leave in Hin. now apply (Hsub s).
  - unfold on_disconnect in Hin.
    change (users (transport_close (id sk) st)) with (users st) in Hin.
    change (rooms (transport_close (id sk) st)) with (rooms st) in Hin.
    destruct (obj_get (users st) (id sk)); [|now apply (Hsub s)].
    cbn [fst rooms with_rooms] in Hin.
    rewrite remove_from_rooms_spec in Hin by assumption.
    apply In_obj_filter_map in Hin as [sm [Hin _]]. now apply (Hsub sm).
  - unfold deletion_timer in Hin. destruct (obj_get (users st) sid) as [u|];
      [|now apply (Hsub s)].
    destruct (Status_eqb (status u) offline); now apply (Hsub s).
  - now apply (Hsub s).
Qed.

Lemma run_room_keys inputs : forall st,
  NoDup (obj_keys (rooms st)) /\ rooms_nonempty (rooms st) ->
  (forall k s, In (k, s) (rooms st) -> JS.inherited k = false) ->
  forall k s, In (k, s) (rooms (run st inputs)) -> JS.inherited k = false.
Proof.
  induction inputs as [|i l IH]; intros st Hinv Hkeys; [exact Hkeys|].
  simpl. apply IH; [now apply rooms_inv_step|].
  intros k s Hin. apply step_room_keys in Hin; [|apply Hinv].
  destruct Hin as [Hin|Hin]; [|exact Hin].
  unfold obj_keys in Hin. apply in_map_iff in Hin as [[k' v] [Hf Hin]].
  simpl in Hf. subst k'. now apply (Hkeys k v).
Qed.

Lemma reachable_no_prototype_room inputs roomId :
  JS.inherited roomId = true ->
  obj_get (rooms (run init inputs)) roomId = None.
Proof.
  intros Hproto.
  destruct (obj_get (rooms (run init inputs)) roomId) as [s|] eqn:E;
    [|reflexivity].
  apply obj_get_In in E.
  apply (run_room_keys inputs init) in E; [congruence | |intros ? ? []].
  split; [constructor | intros ? ? []].
Qed.

(** X11. In every state reached from the initial one, [joinRoom] and
    [leaveRoom] with a room id that names a property of [Object.prototype]
    (such as ["constructor"] or ["toString"]) end in a [TypeError]: nothing
    is emitted and [rooms] and the registry are unchanged, although the
    connection has already been added to the transport group by
    [joinRoom]. *)
Theorem prototype_room_id_throws :
  forall (inputs : list Input) (socket : Socket) (roomId : string),
    JS.inherited roomId = true ->
    (exists st',
        on_joinRoom socket roomId (run init inputs) = Threw st' [] /\
        rooms st' = rooms (run init inputs) /\
        users st' = users (run init inputs) /\
        In (id socket) (members (adapter st') roomId)) /\
    (exists st',
        on_leaveRoom socket roomId (run init inputs) = Threw st' [] /\
        rooms st' = rooms (run init inputs) /\
        users st' = users (run init inputs)).
Proof.
  intros inputs socket roomId Hproto.
  pose proof (reachable_no_prototype_room inputs roomId Hproto) as Hnone.
  set (st := run init inputs) in *. split.
  - exists (with_rooms (socket_join (id socket) roomId st) (rooms st)).
    split; [|split; [reflexivity|split; [reflexivity|]]].
    + unfold on_joinRoom, rooms_ref. cbv zeta.
      change (rooms (socket_join (id socket) roomId st)) with (rooms st).
      rewrite Hnone, Hproto. simpl. rewrite Hnone. reflexivity.
    + change (adapter (with_rooms (socket_join (id socket) roomId st) (rooms st)))
        with (adapter (socket_join (id socket) roomId st)).
      rewrite members_socket_join. apply In_set_add. now right.
  - exists (socket_leave (id socket) roomId st).
    split; [|split; [apply rooms_socket_leave | apply users_socket_leave]].
    unfold on_leaveRoom, rooms_ref. cbv zeta.
    rewrite rooms_socket_leave, Hnone, Hproto. reflexivity.
Qed.

Lemma prototype_room_id_throws_witness :
  exists st',
    on_joinRoom alice1 "constructor" chatting = Threw st' [] /\
    rooms st' = rooms chatting.
Proof.
  destruct (proj1 (prototype_room_id_throws
                     [Connection alice1 100; Connection bob1 200;
                      JoinRoom alice1 "lobby"; JoinRoom bob1 "lobby";
                      JoinRoom alice1 "solo"]
                     alice1 "constructor" eq_refl))
    as [st' [H1 [H2 _]]].
  exists st'. split; [exact H1 | exact H2].
Defined.

(** ** Signalling relays *)

(** X12. On the direct path (no truthy room id; for [typing], a truthy
    receiver id), [typing], [answerCall], [iceCandidate], [endCall] and
    [incomingCallAck] emit exactly one event, addressed to the connection
    under which the target's session is stored, whether or not that channel
    is still open and whatever the session's status. *)
Theorem direct_relays_reach_stored_connection :
  forall (socket : Socket) (st : State) (sid : string) (b : Session),
    users_wf (users st) ->
    one_session_per_user (users st) ->
    obj_get (users st) sid = Some b ->
    JS.truthy_str (userId b) = true ->
    (forall roomId flag,
        on_typing socket (mkTypingData (Some (userId b)) roomId flag) st =
        [(IoTo sid, userTyping (c_userId (user socket))
                               (c_username (user socket)) flag)]) /\
    (forall data, JS.truthy (ac_roomId data) = false ->
        ac_to data = Some (userId b) ->
        on_answerCall socket data st =
        [(IoTo sid, callAnswered (c_userId (user socket)) (answer data) None)]) /\
    (forall data, JS.truthy (ic_roomId data) = false ->
        ic_to data = Some (userId b) ->
        on_iceCandidate socket data st =
        [(IoTo sid, iceCandidate (c_userId (user socket)) (candidate data) None)]) /\
    (forall data, JS.truthy (ec_roomId data) = false ->
        ec_to data = Some (userId b) ->
        on_endCall socket data st =
        [(IoTo sid, callEnded (c_userId (user socket)) None)]) /\
    (forall data, ack_from data = Some (userId b) ->
        on_incomingCallAck socket data st =
        [(IoTo sid, incomingCallAck (c_userId (user socket))
                                    (callSessionId data))]).
Proof.
  intros socket st sid b Hwf Huniq Hget Htruthy.
  pose proof (findUserByUserId_stored _ sid b Hwf Huniq Hget) as Hfind.
  assert (Hsid : socketId b = sid).
  { destruct Hwf as [_ Hkey]. apply Hkey. now apply obj_get_In. }
  repeat split.
  - intros roomId flag. unfold on_typing. cbn [ty_receiverId ty_roomId isTyping].
    cbn [JS.truthy]. rewrite Htruthy, Hfind, Hsid. reflexivity.
  - intros data Hr Hto. unfold on_answerCall. now rewrite Hr, Hto, Hfind, Hsid.
  - intros data Hr Hto. unfold on_iceCandidate. now rewrite Hr, Hto, Hfind, Hsid.
  - intros data Hr Hto. unfold on_endCall. now rewrite Hr, Hto, Hfind, Hsid.
  - intros data Hfrom. unfold on_incomingCallAck.
    now rewrite Hfrom, Hfind, Hsid.
Qed.

Lemma direct_relays_reach_stored_connection_witness :
  on_answerCall bob1 (mkAnswerCallData (Some "alice") (Some "sdp") None)
                (with_sockets alice_and_bob ["s2"]) =
  [(IoTo "s1", callAnswered "bob" (Some "sdp") None)].
Proof.
  apply (proj1 (proj2 (direct_relays_reach_stored_connection bob1
           (with_sockets alice_and_bob ["s2"]) "s1"
           (mkSession "s1" "alice" "Alice" online 100 "en")
           alice_and_bob_wf alice_and_bob_one_session eq_refl eq_refl))
         (mkAnswerCallData (Some "alice") (Some "sdp") None) eq_refl eq_refl).
Defined.

(** X13. When no stored session has the addressed user id (in particular
    when the id is missing from the payload), the direct path of [typing],
    [answerCall], [iceCandidate], [endCall] and [incomingCallAck] emits
    nothing at all: the sender gets no error event. *)
Theorem direct_relays_drop_unresolved :
  forall (socket : Socket) (st : State) (target : JS.value),
    (forall k u, In (k, u) (users st) ->
                 JS.strict_eq (userId u) target = false) ->
    (forall roomId flag, JS.truthy target = true ->
        on_typing socket (mkTypingData target roomId flag) st = []) /\
    (forall data, JS.truthy (ac_roomId data) = false -> ac_to data = target ->
        on_answerCall socket data st = []) /\
    (forall data, JS.truthy (ic_roomId data) = false -> ic_to data = target ->
        on_iceCandidate socket data st = []) /\
    (forall data, JS.truthy (ec_roomId data) = false -> ec_to data = target ->
        on_endCall socket data st = []) /\
    (forall data, ack_from data = target ->
        on_incomingCallAck socket data st = []).
Proof.
  intros socket st target Hnone.
  pose proof (findUserByUserId_none (users st) target Hnone) as Hfind.
  repeat split.
  - intros roomId flag Ht. unfold on_typing. cbn [ty_receiverId].
    now rewrite Ht, Hfind.
  - intros data Hr Hto. unfold on_answerCall. now rewrite Hr, Hto, Hfind.
  - intros data Hr Hto. unfold on_iceCandidate. now rewrite Hr, Hto, Hfind.
  - intros data Hr Hto. unfold on_endCall. now rewrite Hr, Hto, Hfind.
  - intros data Hfrom. unfold on_incomingCallAck. now rewrite Hfrom, Hfind.
Qed.

Lemma direct_relays_drop_unresolved_witness :
  on_endCall alice1 (mkEndCallData (Some "dave") None) alice_and_bob = [] /\
  on_incomingCallAck alice1 (mkIncomingCallAckData None (Some "c1"))
                     alice_and_bob = [].
Proof.
  split.
  - apply (proj1 (proj2 (proj2 (proj2 (direct_relays_drop_unresolved alice1
             alice_and_bob (Some "dave")
             ltac:(intros k u H; simpl in H; sample_entries; reflexivity)))))
           (mkEndCallData (Some "dave") None) eq_refl eq_refl).
  - apply (proj2 (proj2 (proj2 (proj2 (direct_relays_drop_unresolved alice1
             alice_and_bob None
             ltac:(intros k u H; reflexivity)))))
           (mkIncomingCallAckData None (Some "c1")) eq_refl).
Defined.

(** X14. The two families of relays resolve a payload that names both a user
    and a room in opposite ways.  [answerCall], [iceCandidate] and [endCall]
    with a truthy room id emit one broadcast to the room except the sender
    and never read the registry, whatever [to] holds; [typing] with a truthy
    receiver id never broadcasts to a room, whatever [roomId] holds, and the
    room is used only when the receiver id is falsy. *)
Theorem relay_target_precedence :
  forall (socket : Socket) (st : State),
    (forall data, JS.truthy (ac_roomId data) = true ->
        on_answerCall socket data st =
        [(SocketTo (id socket) (JS.to_string (ac_roomId data)),
          callAnswered (c_userId (user socket)) (answer data) (ac_roomId data))]) /\
    (forall data, JS.truthy (ic_roomId data) = true ->
        on_iceCandidate socket data st =
        [(SocketTo (id socket) (JS.to_string (ic_roomId data)),
          iceCandidate (c_userId (user socket)) (candidate data)
                       (ic_roomId data))]) /\
    (forall data, JS.truthy (ec_roomId data) = true ->
        on_endCall socket data st =
        [(SocketTo (id socket) (JS.to_string (ec_roomId data)),
          callEnded (c_userId (user socket)) (ec_roomId data))]) /\
    (forall data, JS.truthy (ty_receiverId data) = true ->
        (length (on_typing socket data st) <= 1)%nat /\
        forall d e, In (d, e) (on_typing socket data st) ->
                    is_room_broadcast d = false) /\
    (forall data, JS.truthy (ty_receiverId data) = false ->
        JS.truthy (ty_roomId data) = true ->
        on_typing socket data st =
        [(SocketTo (id socket) (JS.to_string (ty_roomId data)),
          userTyping (c_userId (user socket)) (c_username (user socket))
                     (isTyping data))]).
Proof.
  intros socket st. repeat split.
  - intros data Hr. unfold on_answerCall. now rewrite Hr.
  - intros data Hr. unfold on_iceCandidate. now rewrite Hr.
  - intros data Hr. unfold on_endCall. now rewrite Hr.
  - unfold on_typing. rewrite H.
    destruct (findUserByUserId (users st) (ty_receiverId data)); simpl; lia.
  - intros d e. unfold on_typing. rewrite H.
    destruct (findUserByUserId (users st) (ty_receiverId data));
      [|contradiction].
    intros [[= <- _]|[]]. reflexivity.
  - intros data Hr Hroom. unfold on_typing. now rewrite Hr, Hroom.
Qed.

Lemma relay_target_precedence_witness :
  on_endCall alice1 (mkEndCallData (Some "bob") (Some "lobby")) alice_and_bob =
  [(SocketTo "s1" "lobby", callEnded "alice" (Some "lobby"))] /\
  on_typing alice1 (mkTypingData (Some "bob") (Some "lobby") (Some true))
            alice_and_bob =
  [(IoTo "s2", userTyping "alice" (Some "Alice") (Some true))].
Proof.
  split.
  - apply (proj1 (proj2 (proj2 (relay_target_precedence alice1 alice_and_bob)))
             (mkEndCallData (Some "bob") (Some "lobby")) eq_refl).
  - reflexivity.
Defined.

(** X15. Whatever the payload, every event emitted by the relays [typing],
    [answerCall], [iceCandidate], [incomingCallAck], [endCall],
    [groupCallOffer], [groupCallAnswer], [groupCallIceCandidate] and
    [groupCallSpeaking] names the sender by the user id of the verified
    credential, carries the credential's own [username] field where it has a
    name, and for the three addressed group-call events names the sender's
    own connection id. *)
Theorem relays_carry_authenticated_sender :
  forall (socket : Socket) (st : State) (d : Dest) (e : Signal),
    (exists data, In (d, e) (on_typing socket data st)) \/
    (exists data, In (d, e) (on_answerCall socket data st)) \/
    (exists data, In (d, e) (on_iceCandidate socket data st)) \/
    (exists data, In (d, e) (on_incomingCallAck socket data st)) \/
    (exists data, In (d, e) (on_endCall socket data st)) \/
    (exists data, In (d, e) (on_groupCallOffer socket data)) \/
    (exists data, In (d, e) (on_groupCallAnswer socket data)) \/
    (exists data, In (d, e) (on_groupCallIceCandidate socket data)) \/
    (exists data, In (d, e) (on_groupCallSpeaking socket data)) ->
    signal_sender e = c_userId (user socket) /\
    (forall n, signal_username e = Some n -> n = c_username (user socket)) /\
    (forall s, signal_socket e = Some s -> s = id socket).
Proof.
  intros socket st d e H.
  assert (G : forall l : Relay,
             In (d, e) l ->
             Forall (fun de =>
                       signal_sender (snd de) = c_userId (user socket) /\
                       (forall n, signal_username (snd de) = Some n ->
                                  n = c_username (user socket)) /\
                       (forall s, signal_socket (snd de) = Some s ->
                                  s = id socket)) l ->
             signal_sender e = c_userId (user socket) /\
             (forall n, signal_username e = Some n ->
                        n = c_username (user socket)) /\
             (forall s, signal_socket e = Some s -> s = id socket)).
  { intros l Hin Hall. rewrite Forall_forall in Hall. apply (Hall _ Hin). }
  assert (One : forall (x : Dest * Signal) (P : Dest * Signal -> Prop),
             P x -> Forall P [x]) by (intros; now constructor).
  destruct H as [[data H]|[[data H]|[[data H]|[[data H]|[[data H]|
                 [[data H]|[[data H]|[[data H]|[data H]]]]]]]]];
    apply (G _ H); clear G H.
  - unfold on_typing. destruct (JS.truthy (ty_receiverId data)).
    + destruct (findUserByUserId _ _); [apply One|constructor].
      simpl. repeat split; congruence.
    + destruct (JS.truthy (ty_roomId data)); [apply One|constructor].
      simpl. repeat split; congruence.
  - unfold on_answerCall. destruct (JS.truthy (ac_roomId data)).
    + apply One. simpl. repeat split; congruence.
    + destruct (findUserByUserId _ _); [apply One|constructor].
      simpl. repeat split; congruence.
  - unfold on_iceCandidate. destruct (JS.truthy (ic_roomId data)).
    + apply One. simpl. repeat split; congruence.
    + destruct (findUserByUserId _ _); [apply One|constructor].
      simpl. repeat split; congruence.
  - unfold on_incomingCallAck.
    destruct (findUserByUserId _ _); [apply One|constructor].
    simpl. repeat split; congruence.
  - unfold on_endCall. destruct (JS.truthy (ec_roomId data)).
    + apply One. simpl. repeat split; congruence.
    + destruct (findUserByUserId _ _); [apply One|constructor].
      simpl. repeat split; congruence.
  - apply One. simpl. repeat split; congruence.
  - apply One. simpl. repeat split; congruence.
  - apply One. simpl. repeat split; congruence.
  - apply One. simpl. repeat split; congruence.
Qed.

Lemma relays_carry_authenticated_sender_witness :
  signal_sender (groupCallOffer "s1" "alice" (Some "Alice") (Some "sdp")
                                (Some "call-1")) = "alice".
Proof.
  apply (proj1 (relays_carry_authenticated_sender alice1 alice_and_bob
                  (IoTo "s2")
                  (groupCallOffer "s1" "alice" (Some "Alice") (Some "sdp")
                                  (Some "call-1"))
                  (or_intror (or_intror (or_intror (or_intror (or_intror
                     (or_introl
                        (ex_intro _ (mkGroupCallData "s2" (Some "sdp")
                                                     (Some "call-1"))
                                  (or_introl eq_refl)))))))))).
Defined.

(** ** Rooms and connection ids share the transport's group names *)

Lemma adapter_on_joinRoom socket roomId st :
  adapter (state_of (on_joinRoom socket roomId st)) =
  adapter (socket_join (id socket) roomId st).
Proof. unfold on_joinRoom. cbv zeta. now destruct (rooms_ref _ roomId). Qed.

(** X16. [joinRoom] accepts any room id, also the connection id of another
    client.  After a connection has joined the room named by the connection
    id under which a user's session is stored, every chat message sent
    directly to that user is also delivered to the joiner. *)
Theorem joinRoom_on_connection_id_receives_direct_messages :
  forall (joiner sender : Socket) (data : SendMessageData) (now : Z)
         (st : State) (sid : string) (b : Session),
    users_wf (users st) ->
    one_session_per_user (users st) ->
    obj_get (users st) sid = Some b ->
    receiverId data = Some (userId b) ->
    JS.truthy_str (userId b) = true ->
    let st1 := state_of (on_joinRoom joiner sid st) in
    snd (on_sendMessage sender data now st1) =
      [Emit (IoTo sid) (receiveMessage (message_of sender data now));
       Emit (ToSocket (id sender))
            (messageSent true (message_of sender data now))] /\
    In (id joiner) (recipients st1 (IoTo sid)) /\
    In (receiveMessage (message_of sender data now))
       (received st1 (snd (on_sendMessage sender data now st1)) (id joiner)).
Proof.
  intros joiner sender data now st sid b Hwf Huniq Hget Hrecv Htruthy st1.
  assert (Hus : users st1 = users st) by apply users_on_joinRoom.
  assert (Hout : snd (on_sendMessage sender data now st1) =
                 [Emit (IoTo sid) (receiveMessage (message_of sender data now));
                  Emit (ToSocket (id sender))
                       (messageSent true (message_of sender data now))]).
  { unfold on_sendMessage. cbn [snd]. cbv zeta. rewrite Hus, Hrecv.
    cbn [JS.truthy]. rewrite Htruthy.
    rewrite (findUserByUserId_stored _ sid b Hwf Huniq Hget).
    destruct Hwf as [_ Hkey].
    now rewrite (Hkey sid b (obj_get_In _ _ _ _ Hget)). }
  assert (Hmem : In (id joiner) (recipients st1 (IoTo sid))).
  { cbn [recipients]. unfold st1.
    rewrite adapter_on_joinRoom, members_socket_join.
    apply In_set_add. now right. }
  split; [exact Hout|]. split; [exact Hmem|].
  rewrite Hout. cbn [received].
  apply existsb_eqb_In in Hmem. rewrite Hmem. now left.
Qed.

Lemma joinRoom_on_connection_id_receives_direct_messages_witness :
  In (receiveMessage (mkMessage "alice" (Some "Alice") (Some "hi") 500 None))
     (received (state_of (on_joinRoom carol1 "s2" three_online))
        (snd (on_sendMessage alice1
                (mkSendMessageData (Some "bob") (Some "hi") None) 500
                (state_of (on_joinRoom carol1 "s2" three_online))))
        "s4").
Proof.
  apply (joinRoom_on_connection_id_receives_direct_messages carol1 alice1
           (mkSendMessageData (Some "bob") (Some "hi") None) 500
           three_online "s2" (mkSession "s2" "bob" "Bob" online 200 "en")).
  - split.
    + repeat constructor; simpl; intuition discriminate.
    + intros k u H. simpl in H. sample_entries; reflexivity.
  - intros k1 u1 k2 u2 H1 H2 Hu. simpl in H1, H2.
    sample_entries; simpl in Hu; congruence.
  - reflexivity.
  - reflexivity.
  - reflexivity.
Defined.

(** ** Leaving a group call *)

Lemma members_socket_leave sid room st :
  members (adapter (socket_leave sid room st)) room =
  set_delete (members (adapter st) room) sid.
Proof.
  unfold socket_leave, members at 2.
  destruct (obj_get (adapter st) room) as [s|] eqn:Hget.
  - cbn [adapter with_adapter].
    destruct (set_delete s sid) as [|y s'] eqn:Hdel; unfold members.
    + now rewrite obj_get_delete_same.
    + now rewrite obj_get_set_same.
  - unfold members. now rewrite Hget.
Qed.

(** X17. [leaveGroupCall] removes the connection from the transport group
    of the call room before it broadcasts: afterwards the connection is not
    a member, every remaining member receives exactly one
    [userLeftGroupCall] and the leaver receives none; [users] and [rooms]
    are untouched; and a connection that was not in the group before gets
    the former membership back by joining and then leaving. *)
Theorem leaveGroupCall_leaves_group :
  forall (socket : Socket) (room : string) (st : State),
    let st' := fst (on_leaveGroupCall socket room st) in
    let out := snd (on_leaveGroupCall socket room st) in
    let gone := userLeftGroupCall (c_userId (user socket))
                                  (c_username (user socket)) (id socket) in
    members (adapter st') room =
      set_delete (members (adapter st) room) (id socket) /\
    ~ In (id socket) (members (adapter st') room) /\
    (forall sid, In sid (members (adapter st) room) -> sid <> id socket ->
                 received st' out sid = [gone]) /\
    received st' out (id socket) = [] /\
    users st' = users st /\
    rooms st' = rooms st /\
    (forall j, ~ In (id socket) (members (adapter st) room) ->
       members
         (adapter
            (fst (on_leaveGroupCall socket room
                    (fst (on_joinGroupCall socket
                            (mkJoinGroupCallData room j) st)))))
         room = members (adapter st) room).
Proof.
  intros socket room st st' out gone.
  assert (Hmem : members (adapter st') room =
                 set_delete (members (adapter st) room) (id socket))
    by apply members_socket_leave.
  split; [exact Hmem|]. split; [|split; [|split; [|split; [|split]]]].
  - rewrite Hmem, In_set_delete. tauto.
  - intros sid Hin Hne. unfold out, on_leaveGroupCall.
    cbn [snd received recipients].
    change (socket_leave (id socket) room st) with st'.
    rewrite Hmem, existsb_eqb_filter_others.
    assert (E : existsb (String.eqb sid)
                  (set_delete (members (adapter st) room) (id socket)) = true).
    { apply existsb_eqb_In, In_set_delete. now split. }
    rewrite E. destruct (String.eqb_spec sid (id socket)); [contradiction|].
    reflexivity.
  - unfold out, on_leaveGroupCall. cbn [snd received recipients].
    rewrite existsb_eqb_filter_others, String.eqb_refl, andb_false_r.
    reflexivity.
  - apply users_socket_leave.
  - apply rooms_socket_leave.
  - intros j Hni. unfold on_leaveGroupCall at 1. cbn [fst].
    rewrite members_socket_leave.
    change (fst (on_joinGroupCall socket (mkJoinGroupCallData room j) st))
      with (socket_join (id socket) room st).
    rewrite members_socket_join. now apply set_delete_add_fresh.
Qed.

Lemma leaveGroupCall_leaves_group_witness :
  received (fst (on_leaveGroupCall bob1 "call-1" in_call))
           (snd (on_leaveGroupCall bob1 "call-1" in_call)) "s1" =
  [userLeftGroupCall "bob" (Some "Bob") "s2"].
Proof.
  apply (proj1 (proj2 (proj2 (leaveGroupCall_leaves_group bob1 "call-1"
                                 in_call)))).
  - simpl. auto.
  - discriminate.
Defined.

(** ** Authentication middleware *)

Lemma split_on_spaceless s :
  spaceless s = true -> split_on Ascii.Space s = [s].
Proof.
  induction s as [|c t IH]; simpl; [reflexivity|].
  intros H. apply andb_true_iff in H as [Hc Ht].
  apply negb_true_iff in Hc. rewrite Hc, (IH Ht). reflexivity.
Qed.

Lemma split_on_field a b :
  spaceless a = true ->
  split_on Ascii.Space (a ++ String Ascii.Space b)%string =
  a :: split_on Ascii.Space b.
Proof.
  induction a as [|c t IH]; simpl; [reflexivity|].
  intros H. apply andb_true_iff in H as [Hc Ht].
  apply negb_true_iff in Hc. rewrite Hc, (IH Ht). reflexivity.
Qed.

(** X18. The token of a handshake is [auth.token] whenever that is truthy,
    whatever the [Authorization] header holds.  Otherwise it is the second
    space-separated field of the header: for a header made of a scheme, one
    space and a token, it is the token, for any scheme (the scheme is never
    compared with ["Bearer"]), and anything after a further space is
    ignored. *)
Theorem handshake_token_sources :
  forall (auth header : JS.value) (scheme tok rest : string),
    spaceless scheme = true ->
    spaceless tok = true ->
    (JS.truthy auth = true ->
     handshake_token (mkHandshake auth header) = auth) /\
    (JS.truthy auth = false ->
     handshake_token
       (mkHandshake auth (Some (scheme ++ " " ++ tok)%string)) = Some tok /\
     handshake_token
       (mkHandshake auth (Some (scheme ++ " " ++ tok ++ " " ++ rest)%string)) =
       Some tok).
Proof.
  intros auth header scheme tok rest Hs Ht. split.
  - intros Ha. unfold handshake_token. cbn [auth_token]. now rewrite Ha.
  - intros Ha. unfold handshake_token. cbn [auth_token authorization].
    rewrite Ha. split.
    + change (scheme ++ " " ++ tok)%string
        with (scheme ++ String Ascii.Space tok)%string.
      rewrite split_on_field, split_on_spaceless by assumption. reflexivity.
    + change (scheme ++ " " ++ tok ++ " " ++ rest)%string
        with (scheme ++ String Ascii.Space
                          (tok ++ String Ascii.Space rest))%string.
      rewrite !split_on_field by assumption. reflexivity.
Qed.

Lemma handshake_token_sources_witness :
  handshake_token (mkHandshake None (Some "Bearer abc.def.ghi")) =
    Some "abc.def.ghi" /\
  handshake_token (mkHandshake (Some "tok-1") (Some "Bearer abc.def.ghi")) =
    Some "tok-1".
Proof.
  destruct (handshake_token_sources None (Some "Bearer abc.def.ghi")
              "Bearer" "abc.def.ghi" "" eq_refl eq_refl) as [_ H].
  destruct (handshake_token_sources (Some "tok-1") (Some "Bearer abc.def.ghi")
              "Bearer" "abc.def.ghi" "" eq_refl eq_refl) as [H' _].
  split; [apply (proj1 (H eq_refl)) | apply (H' eq_refl)].
Defined.

(** X19. With no truthy [auth.token], a handshake is rejected with the
    no-token error, without the verifier being asked, when the
    [Authorization] header is absent, holds a single field (no space), or
    has two spaces after the scheme (the second field is then empty). *)
Theorem malformed_credentials_rejected :
  forall (jwt_verify : string -> option Claims) (auth : JS.value)
         (scheme tok : string),
    JS.truthy auth = false ->
    spaceless scheme = true ->
    authenticate jwt_verify (mkHandshake auth None) =
      AuthError no_token_message /\
    authenticate jwt_verify (mkHandshake auth (Some scheme)) =
      AuthError no_token_message /\
    authenticate jwt_verify
      (mkHandshake auth (Some (scheme ++ "  " ++ tok)%string)) =
      AuthError no_token_message.
Proof.
  intros jwt_verify auth scheme tok Ha Hs.
  unfold authenticate, handshake_token. cbn [auth_token authorization].
  rewrite Ha. repeat split.
  - rewrite split_on_spaceless by assumption. reflexivity.
  - change (scheme ++ "  " ++ tok)%string
      with (scheme ++ String Ascii.Space (String Ascii.Space tok))%string.
    rewrite split_on_field by assumption. reflexivity.
Qed.

Lemma malformed_credentials_rejected_witness :
  authenticate (fun _ => Some (mkClaims "alice" None None))
               (mkHandshake None (Some "abc.def.ghi")) =
  AuthError no_token_message.
Proof.
  apply (proj1 (proj2 (malformed_credentials_rejected
                         (fun _ => Some (mkClaims "alice" None None))
                         None "abc.def.ghi" "" eq_refl eq_refl))).
Defined.

(** X20. The middleware has three outcomes, told apart by what the client
    sees: the connection is admitted with the decoded claims exactly when
    the handshake yields a non-empty token that the verifier accepts; it is
    rejected with the invalid-token error exactly when the token is
    non-empty and the verifier fails; and with the no-token error exactly
    when no truthy token is found.  The two error messages differ. *)
Theorem authenticate_outcomes :
  forall (jwt_verify : string -> option Claims) (h : Handshake),
    (forall decoded,
        authenticate jwt_verify h = Authenticated decoded <->
        exists token, handshake_token h = Some token /\ token <> "" /\
                      jwt_verify token = Some decoded) /\
    (authenticate jwt_verify h = AuthError invalid_token_message <->
     exists token, handshake_token h = Some token /\ token <> "" /\
                   jwt_verify token = None) /\
    (authenticate jwt_verify h = AuthError no_token_message <->
     JS.truthy (handshake_token h) = false) /\
    no_token_message <> invalid_token_message.
Proof.
  intros jwt_verify h. unfold authenticate.
  destruct (handshake_token h) as [token|] eqn:Htok; cbn [JS.truthy JS.to_string].
  - destruct (JS.truthy_str token) eqn:Ht.
    + pose proof (proj1 (truthy_str_nonempty token) Ht) as Hne.
      destruct (jwt_verify token) as [c|] eqn:Hv; repeat split;
        try discriminate.
      * intros [= <-]. now exists token.
      * intros [t [[= <-] [_ Hv']]]. congruence.
      * intros [t [[= <-] [_ Hv']]]. congruence.
      * intros [t [[= <-] [_ Hv']]]. congruence.
      * intros _. now exists token.
    + assert (Hempty : token = "").
      { destruct (String.eqb_spec token "") as [E|E]; [exact E|].
        apply truthy_str_nonempty in E. congruence. }
      repeat split; try discriminate; try reflexivity.
      * intros [t [[= <-] [Hne _]]]. contradiction.
      * intros [t [[= <-] [Hne _]]]. contradiction.
  - repeat split; try discriminate; try reflexivity.
    + intros [t [Habs _]]. discriminate.
    + intros [t [Habs _]]. discriminate.
Qed.

(** ** The API-route server *)

Lemma route_cleanup_old_filter uid sock (us : obj Route.Session) :
  NoDup (obj_keys us) ->
  Route.cleanup_old uid sock us =
  filter (fun kv => negb ((Route.userId (snd kv) =? uid) &&
                          negb (fst kv =? sock))) us.
Proof.
  intros Hnd. unfold Route.cleanup_old.
  rewrite (fold_keys_spec _ (Route.cleanup_step uid sock)
             (fun k v => if (Route.userId v =? uid) && negb (k =? sock)
                         then None else Some v)).
  - clear Hnd. induction us as [|[k v] t IH]; simpl; [reflexivity|].
    destruct ((Route.userId v =? uid) && negb (k =? sock)); simpl;
      now rewrite IH.
  - intros o1 k v o2 H1 H2. unfold Route.cleanup_step.
    rewrite obj_get_app_fresh by assumption. simpl. rewrite String.eqb_refl.
    destruct ((Route.userId v =? uid) && negb (k =? sock)).
    + now apply obj_delete_middle.
    + reflexivity.
  - assumption.
Qed.

Lemma route_In_on_connection socket now st k u :
  NoDup (obj_keys (Route.users st)) ->
  In (k, u) (Route.users (fst (Route.on_connection socket now st))) <->
  (k = id socket /\ u = Route.new_session socket now) \/
  (k <> id socket /\ Route.userId u <> c_userId (user socket) /\
   In (k, u) (Route.users st)).
Proof.
  intros Hnd. unfold Route.on_connection. cbn [fst Route.users].
  rewrite route_cleanup_old_filter by assumption.
  rewrite In_obj_set by now apply NoDup_keys_filter.
  rewrite filter_In. simpl.
  destruct (String.eqb_spec (Route.userId u) (c_userId (user socket)));
    destruct (String.eqb_spec k (id socket)); simpl; intuition congruence.
Qed.

Lemma route_sweep_spec st :
  NoDup (obj_keys (Route.users st)) ->
  Route.users (Route.sweep st) =
  filter (fun kv => existsb (String.eqb (fst kv)) (Route.sockets st))
         (Route.users st).
Proof.
  intros Hnd. unfold Route.sweep. cbn [Route.users].
  rewrite (fold_keys_spec _ (Route.sweep_step st)
             (fun k v => if existsb (String.eqb k) (Route.sockets st)
                         then Some v else None)).
  - generalize (Route.users st) as us.
    induction us as [|[k v] t IH]; simpl; [reflexivity|].
    destruct (existsb (String.eqb k) (Route.sockets st)); simpl; now rewrite IH.
  - intros o1 k v o2 H1 H2. unfold Route.sweep_step.
    destruct (existsb (String.eqb k) (Route.sockets st)); [reflexivity|].
    now apply obj_delete_middle.
  - assumption.
Qed.

Lemma route_step_NoDup st i :
  NoDup (obj_keys (Route.users st)) ->
  NoDup (obj_keys (Route.users (Route.step st i))).
Proof.
  intros Hnd. destruct i as [s t|s d|s|]; cbn [Route.step].
  - unfold Route.on_connection. cbn [fst Route.users].
    rewrite route_cleanup_old_filter by assumption.
    now apply NoDup_keys_set, NoDup_keys_filter.
  - unfold Route.on_updateLanguagePreference.
    destruct (obj_get (Route.users st) (id s)); [|assumption].
    now apply NoDup_keys_set.
  - unfold Route.on_disconnect. cbn [Route.users].
    destruct (obj_get (Route.users st) (id s)); [|assumption].
    now apply NoDup_keys_delete.
  - rewrite route_sweep_spec by assumption. now apply NoDup_keys_filter.
Qed.

(** The invariant of the route's registry. *)
Lemma route_step_invariant st i :
  NoDup (obj_keys (Route.users st)) ->
  (forall k u, In (k, u) (Route.users st) ->
     Route.socketId u = k /\ Route.status u = online /\
     In k (Route.sockets st) /\
     forall k2 u2, In (k2, u2) (Route.users st) ->
                   Route.userId u2 = Route.userId u -> k2 = k) ->
  forall k u, In (k, u) (Route.users (Route.step st i)) ->
     Route.socketId u = k /\ Route.status u = online /\
     In k (Route.sockets (Route.step st i)) /\
     forall k2 u2, In (k2, u2) (Route.users (Route.step st i)) ->
                   Route.userId u2 = Route.userId u -> k2 = k.
Proof.
  intros Hnd Hinv. destruct i as [s t|s d|s|]; cbn [Route.step]; intros k u Hin.
  - apply route_In_on_connection in Hin; [|exact Hnd].
    assert (Hsock : forall x, In x (Route.sockets
                      (fst (Route.on_connection s t
                         (Route.mkState (Route.users st)
                            (set_add (Route.sockets st) (id s)))))) <->
                    In x (Route.sockets st) \/ x = id s).
    { intros x. cbn [fst Route.on_connection Route.sockets]. apply In_set_add. }
    destruct Hin as [[-> ->]|[Hk [Hu Hin]]].
    + repeat split; try reflexivity.
      * apply Hsock. now right.
      * intros k2 u2 H2 Hu2. apply route_In_on_connection in H2; [|exact Hnd].
        destruct H2 as [[-> _]|[_ [Hne _]]]; [reflexivity|].
        simpl in Hu2. congruence.
    + destruct (Hinv k u Hin) as [H1 [H2 [H3 H4]]].
      repeat split; try assumption.
      * apply Hsock. now left.
      * intros k2 u2 H5 Hu2. apply route_In_on_connection in H5; [|exact Hnd].
        destruct H5 as [[-> ->]|[_ [_ H5]]].
        -- simpl in Hu2. congruence.
        -- now apply (H4 k2 u2).
  - unfold Route.on_updateLanguagePreference in *.
    destruct (obj_get (Route.users st) (id s)) as [u0|] eqn:Hget;
      [|now apply Hinv].
    cbn [Route.users Route.sockets] in *.
    assert (Horig : forall k' u', In (k', u') (obj_set (Route.users st) (id s)
                       (Route.mkSession (Route.socketId u0) (Route.userId u0)
                          (Route.username u0) (Route.status u0)
                          (Route.lastActive u0) (language d))) ->
                    exists v, In (k', v) (Route.users st) /\
                              Route.socketId u' = Route.socketId v /\
                              Route.status u' = Route.status v /\
                              Route.userId u' = Route.userId v).
    { intros k' u' H. apply In_obj_set in H; [|assumption].
      destruct H as [[-> ->]|[_ H]].
      - exists u0. auto using obj_get_In.
      - now exists u'. }
    destruct (Horig _ _ Hin) as [v [Hv [E1 [E2 E3]]]].
    destruct (Hinv k v Hv) as [H1 [H2 [H3 H4]]].
    repeat split; try congruence.
    intros k2 u2 H5 Hu2. destruct (Horig _ _ H5) as [v2 [Hv2 [_ [_ E4]]]].
    apply (H4 k2 v2 Hv2). congruence.
  - unfold Route.on_disconnect in *. cbn [Route.users Route.sockets] in *.
    destruct (obj_get (Route.users st) (id s)) as [u0|] eqn:Hget;
      cbn [fst Route.users Route.sockets] in *.
    + apply In_obj_delete in Hin as [Hin Hk].
      destruct (Hinv k u Hin) as [H1 [H2 [H3 H4]]].
      repeat split; try assumption.
      * apply In_set_delete. now split.
      * intros k2 u2 H5 Hu2. apply In_obj_delete in H5 as [H5 _].
        now apply (H4 k2 u2).
    + destruct (Hinv k u Hin) as [H1 [H2 [H3 H4]]].
      repeat split; try assumption.
      apply In_set_delete. split; [assumption|].
      intros ->. apply obj_get_None in Hget. apply Hget.
      eapply In_keys; eauto.
  - rewrite route_sweep_spec in * by assumption.
    apply filter_In in Hin as [Hin _].
    destruct (Hinv k u Hin) as [H1 [H2 [H3 H4]]].
    repeat split; try assumption.
    intros k2 u2 H5 Hu2.
    apply filter_In in H5 as [H5 _]. now apply (H4 k2 u2).
Qed.

Lemma route_run_invariant inputs : forall st,
  NoDup (obj_keys (Route.users st)) ->
  (forall k u, In (k, u) (Route.users st) ->
     Route.socketId u = k /\ Route.status u = online /\
     In k (Route.sockets st) /\
     forall k2 u2, In (k2, u2) (Route.users st) ->
                   Route.userId u2 = Route.userId u -> k2 = k) ->
  NoDup (obj_keys (Route.users (Route.run st inputs))) /\
  forall k u, In (k, u) (Route.users (Route.run st inputs)) ->
     Route.socketId u = k /\ Route.status u = online /\
     In k (Route.sockets (Route.run st inputs)) /\
     forall k2 u2, In (k2, u2) (Route.users (Route.run st inputs)) ->
                   Route.userId u2 = Route.userId u -> k2 = k.
Proof.
  induction inputs as [|i l IH]; intros st Hnd Hinv; [now split|].
  simpl. apply IH.
  - now apply route_step_NoDup.
  - now apply route_step_invariant.
Qed.

(** X21. In every state the route's server reaches from its initial one by
    handled inputs (the transport reporting each closed channel by its
    disconnect event), each registry entry is stored under its own [socketId], is online, has
    an open channel, and is the only entry of its user id: this registry
    never holds an offline or stale session, so its sweep finds nothing to
    delete. *)
Theorem route_registry_holds_live_sessions_only :
  forall (inputs : list Route.Input) (k : string) (u : Route.Session),
    In (k, u) (Route.users (Route.run Route.init inputs)) ->
    Route.socketId u = k /\
    Route.status u = online /\
    In k (Route.sockets (Route.run Route.init inputs)) /\
    (forall k2 u2, In (k2, u2) (Route.users (Route.run Route.init inputs)) ->
                   Route.userId u2 = Route.userId u -> k2 = k) /\
    Route.users (Route.sweep (Route.run Route.init inputs)) =
      Route.users (Route.run Route.init inputs).
Proof.
  intros inputs k u Hin.
  destruct (route_run_invariant inputs Route.init) as [Hnd Hinv].
  { constructor. }
  { intros ? ? []. }
  destruct (Hinv k u Hin) as [H1 [H2 [H3 H4]]].
  repeat split; try assumption.
  rewrite route_sweep_spec by assumption.
  apply forallb_filter_id. apply forallb_forall.
  intros [k' u'] Hin'. simpl. apply existsb_eqb_In.
  now destruct (Hinv k' u' Hin') as [_ [_ [H _]]].
Qed.

Lemma route_registry_holds_live_sessions_only_witness :
  Route.status (Route.mkSession "s3" "alice" "Alice" online 300 None) = online.
Proof.
  apply (route_registry_holds_live_sessions_only
           [Route.Connection alice1 100; Route.Connection bob1 200;
            Route.Connection alice2 300; Route.Disconnect bob1;
            Route.UpdateLanguagePreference alice2 (mkLanguageData None)]
           "s3").
  simpl. auto.
Defined.

(** X22. In every state the route's server reaches, a disconnect deletes at
    once: afterwards nothing is stored under the disconnecting connection
    and every other entry is as before.  If the connection was still
    registered, its entry is gone, no entry carries that entry's user id
    any more, and one offline [userStatusChange] is broadcast; if it was not
    (a newer admission of the user had evicted it), the registry is
    unchanged, the newer session stays, and nothing is broadcast. *)
Theorem route_disconnect_deletes_at_once :
  forall (inputs : list Route.Input) (socket : Socket),
    let st := Route.run Route.init inputs in
    let st' := Route.step st (Route.Disconnect socket) in
    obj_get (Route.users st') (id socket) = None /\
    (forall k, k <> id socket ->
               obj_get (Route.users st') k = obj_get (Route.users st) k) /\
    (forall u, obj_get (Route.users st) (id socket) = Some u ->
       (forall k v, In (k, v) (Route.users st') ->
                    Route.userId v <> Route.userId u) /\
       snd (Route.on_disconnect socket st) =
         [Emit (Broadcast (id socket))
               (userStatusChange (c_userId (user socket)) offline)]) /\
    (obj_get (Route.users st) (id socket) = None ->
       Route.users st' = Route.users st /\
       snd (Route.on_disconnect socket st) = []).
Proof.
  intros inputs socket st st'.
  destruct (route_run_invariant inputs Route.init) as [Hnd Hinv].
  { constructor. }
  { intros ? ? []. }
  fold st in Hnd, Hinv.
  assert (Hus : Route.users st' =
                match obj_get (Route.users st) (id socket) with
                | Some _ => obj_delete (Route.users st) (id socket)
                | None => Route.users st
                end).
  { unfold st'. cbn [Route.step]. unfold Route.on_disconnect.
    cbn [Route.users].
    now destruct (obj_get (Route.users st) (id socket)). }
  split; [|split; [|split]].
  - rewrite Hus. destruct (obj_get (Route.users st) (id socket)) eqn:E;
      [apply obj_get_delete_same | exact E].
  - intros k Hk. rewrite Hus.
    destruct (obj_get (Route.users st) (id socket));
      [now apply obj_get_delete_other | reflexivity].
  - intros u Hget. split.
    + intros k v Hin Hv. rewrite Hus, Hget in Hin.
      apply In_obj_delete in Hin as [Hin Hk]. apply Hk.
      destruct (Hinv (id socket) u (obj_get_In _ _ _ _ Hget))
        as [_ [_ [_ Honly]]].
      now apply (Honly k v).
    + unfold Route.on_disconnect. now rewrite Hget.
  - intros Hget. split.
    + now rewrite Hus, Hget.
    + unfold Route.on_disconnect. now rewrite Hget.
Qed.

Lemma route_disconnect_deletes_at_once_witness :
  obj_get
    (Route.users
       (Route.run Route.init
          [Route.Connection alice1 100; Route.Connection alice2 200;
           Route.Disconnect alice1])) "s3" =
    Some (Route.mkSession "s3" "alice" "Alice" online 200 (Some "en")) /\
  obj_get
    (Route.users
       (Route.run Route.init
          [Route.Connection alice1 100; Route.Connection alice2 200;
           Route.Disconnect alice2])) "s3" = None.
Proof.
  split.
  - exact (eq_trans
             (proj1 (proj2 (route_disconnect_deletes_at_once
                [Route.Connection alice1 100; Route.Connection alice2 200]
                alice1)) "s3" ltac:(discriminate))
             eq_refl).
  - apply (proj1 (route_disconnect_deletes_at_once
               [Route.Connection alice1 100; Route.Connection alice2 200]
               alice2)).
Defined.

(** ** Room messages and superseded connections *)

Lemma adapter_on_leaveRoom socket roomId st :
  adapter (state_of (on_leaveRoom socket roomId st)) =
  adapter (socket_leave (id socket) roomId st).
Proof. unfold on_leaveRoom. cbv zeta. now destruct (rooms_ref _ roomId). Qed.

(** X23. A chat message sent to a room is delivered exactly once to a
    connection that has joined the room and is not the sender, the sender
    receives only the [messageSent] acknowledgement and never its own
    message, and once the connection has left the room it receives
    nothing. *)
Theorem room_message_delivery :
  forall (joiner sender : Socket) (data : SendMessageData) (now : Z)
         (st : State) (roomId : string),
    id joiner <> id sender ->
    JS.truthy (receiverId data) = false ->
    sm_roomId data = Some roomId ->
    JS.truthy_str roomId = true ->
    let st1 := state_of (on_joinRoom joiner roomId st) in
    let st2 := state_of (on_leaveRoom joiner roomId st1) in
    received st1 (snd (on_sendMessage sender data now st1)) (id joiner) =
      [receiveMessage (message_of sender data now)] /\
    received st1 (snd (on_sendMessage sender data now st1)) (id sender) =
      [messageSent true (message_of sender data now)] /\
    received st2 (snd (on_sendMessage sender data now st2)) (id joiner) = [].
Proof.
  intros joiner sender data now st roomId Hne Hrecv Hroom Htruthy st1 st2.
  assert (Hout : forall s, snd (on_sendMessage sender data now s) =
                 [Emit (SocketTo (id sender) roomId)
                       (receiveMessage (message_of sender data now));
                  Emit (ToSocket (id sender))
                       (messageSent true (message_of sender data now))]).
  { intros s. unfold on_sendMessage. cbn [snd]. cbv zeta.
    rewrite Hrecv, Hroom. cbn [JS.truthy JS.to_string]. rewrite Htruthy.
    unfold message_of. rewrite Hroom. reflexivity. }
  assert (Hm1 : members (adapter st1) roomId =
                set_add (members (adapter st) roomId) (id joiner)).
  { unfold st1. rewrite adapter_on_joinRoom. apply members_socket_join. }
  assert (Hm2 : members (adapter st2) roomId =
                set_delete (members (adapter st1) roomId) (id joiner)).
  { unfold st2. rewrite adapter_on_leaveRoom. apply members_socket_leave. }
  assert (Hself : (id sender =? id joiner) = false).
  { destruct (String.eqb_spec (id sender) (id joiner)); congruence. }
  assert (Hother : (id joiner =? id sender) = false).
  { destruct (String.eqb_spec (id joiner) (id sender)); congruence. }
  rewrite !Hout. cbn [received recipients existsb].
  rewrite !existsb_eqb_filter_others, String.eqb_refl, Hother.
  rewrite !andb_false_r. cbn [negb andb orb].
  rewrite Hm2, Hm1.
  assert (E1 : existsb (String.eqb (id joiner))
                 (set_add (members (adapter st) roomId) (id joiner)) = true).
  { apply existsb_eqb_In, In_set_add. now right. }
  assert (E2 : existsb (String.eqb (id joiner))
                 (set_delete
                    (set_add (members (adapter st) roomId) (id joiner))
                    (id joiner)) = false).
  { apply not_true_is_false. intros E.
    apply existsb_eqb_In, In_set_delete in E. tauto. }
  rewrite E1, E2. repeat split; reflexivity.
Qed.

Lemma room_message_delivery_witness :
  received (state_of (on_joinRoom bob1 "lobby" alice_and_bob))
    (snd (on_sendMessage alice1
            (mkSendMessageData None (Some "hi") (Some "lobby")) 500
            (state_of (on_joinRoom bob1 "lobby" alice_and_bob))))
    "s2" =
  [receiveMessage (mkMessage "alice" (Some "Alice") (Some "hi") 500
                             (Some "lobby"))].
Proof.
  apply (room_message_delivery bob1 alice1
           (mkSendMessageData None (Some "hi") (Some "lobby")) 500
           alice_and_bob "lobby").
  - discriminate.
  - reflexivity.
  - reflexivity.
  - reflexivity.
Defined.

(** X24. Admitting a newer connection of a user evicts the older entry from
    the registry but leaves the older channel in the transport: the older
    connection id stops resolving by user id, while an event addressed to
    that connection id, as [groupCallOffer] does, is still delivered to
    it. *)
Theorem superseded_connection_still_addressable :
  forall (old new : Socket) (t : Z) (st : State) (data : GroupCallData)
         (sender : Socket),
    NoDup (obj_keys (users st)) ->
    id old <> id new ->
    c_userId (user old) = c_userId (user new) ->
    (forall u, obj_get (users st) (id old) = Some u ->
               userId u = c_userId (user old)) ->
    In (id old) (members (adapter st) (id old)) ->
    targetSocketId data = id old ->
    let st' := fst (step st (Connection new t)) in
    obj_get (users st') (id old) = None /\
    findUserByUserId (users st') (Some (c_userId (user old))) =
      Some (new_session new t) /\
    forall d e, In (d, e) (on_groupCallOffer sender data) ->
                In (id old) (recipients st' d).
Proof.
  intros old new t st data sender Hnd Hid Huid Hown Hmem Htarget st'.
  assert (Hst' : st' = fst (on_connection new t (transport_open (id new) st)))
    by reflexivity.
  split; [|split].
  - rewrite Hst'. now apply superseded_entry_evicted.
  - rewrite Hst', Huid. apply findUserByUserId_unique with (k0 := id new).
    + apply In_on_connection; [exact Hnd | now left].
    + reflexivity.
    + intros k v Hin Hv. apply In_on_connection in Hin; [|exact Hnd].
      destruct Hin as [[_ ->]|[_ [Hne _]]]; [reflexivity | contradiction].
  - intros d e [[= <- _]|[]]. cbn [recipients]. rewrite Htarget.
    assert (Had : members (adapter st') (id old) = members (adapter st) (id old)).
    { rewrite Hst'. unfold on_connection, transport_open, socket_join, members.
      cbn [fst adapter with_users with_adapter with_sockets].
      now rewrite obj_get_set_other. }
    now rewrite Had.
Qed.

Lemma superseded_connection_still_addressable_witness :
  obj_get (users (fst (step alice_and_bob (Connection alice2 300)))) "s1" = None /\
  In "s1" (recipients (fst (step alice_and_bob (Connection alice2 300)))
                      (IoTo "s1")).
Proof.
  destruct (superseded_connection_still_addressable alice1 alice2 300
              alice_and_bob (mkGroupCallData "s1" (Some "sdp") (Some "call-1"))
              bob1) as [H1 [_ H3]].
  - exact (proj1 alice_and_bob_wf).
  - discriminate.
  - reflexivity.
  - intros u [= <-]. reflexivity.
  - simpl. auto.
  - reflexivity.
  - split; [exact H1|].
    apply (H3 (IoTo "s1")
              (groupCallOffer "s2" "bob" (Some "Bob") (Some "sdp")
                              (Some "call-1"))).
    simpl. auto.
Defined.

(** ** The group-call snapshot in reachable states *)

Lemma In_obj_set_weak (V : Type) (o : obj V) k v k0 v0 :
  In (k, v) (obj_set o k0 v0) -> (k = k0 /\ v = v0) \/ In (k, v) o.
Proof.
  induction o as [|[k' w] t IH]; simpl.
  - intros [[= <- <-]|[]]. now left.
  - destruct (k' =? k0); simpl.
    + intros [[= <- <-]|H]; [now left | right; now right].
    + intros [H|H]; [right; now left|].
      destruct (IH H) as [E|E]; [now left | right; now right].
Qed.

Lemma NoDup_set_add s x : NoDup s -> NoDup (set_add s x).
Proof.
  intros Hnd. unfold set_add. destruct (set_has s x) eqn:E; [assumption|].
  apply NoDup_app; [assumption | repeat constructor; simpl; tauto |].
  intros y Hy [<-|[]]. apply set_has_In in Hy. congruence.
Qed.

Lemma groups_NoDup_members (a : obj sset) room :
  (forall r s, In (r, s) a -> NoDup s) -> NoDup (members a room).
Proof.
  intros H. unfold members. destruct (obj_get a room) as [s|] eqn:E.
  - apply (H room). now apply obj_get_In.
  - constructor.
Qed.

Lemma groups_NoDup_join sid room st :
  (forall r s, In (r, s) (adapter st) -> NoDup s) ->
  forall r s, In (r, s) (adapter (socket_join sid room st)) -> NoDup s.
Proof.
  intros H r s Hin. unfold socket_join in Hin. cbn [adapter with_adapter] in Hin.
  apply In_obj_set_weak in Hin as [[_ ->]|Hin]; [|eauto].
  now apply NoDup_set_add, groups_NoDup_members.
Qed.

Lemma groups_NoDup_leave sid room st :
  (forall r s, In (r, s) (adapter st) -> NoDup s) ->
  forall r s, In (r, s) (adapter (socket_leave sid room st)) -> NoDup s.
Proof.
  intros H r s Hin. unfold socket_leave in Hin.
  destruct (obj_get (adapter st) room) as [s0|] eqn:E; [|eauto].
  cbn [adapter with_adapter] in Hin.
  destruct (set_delete s0 sid) as [|y s1] eqn:Hdel.
  - apply In_obj_delete in Hin as [Hin _]. eauto.
  - apply In_obj_set_weak in Hin as [[_ ->]|Hin]; [|eauto].
    rewrite <- Hdel. apply NoDup_filter. apply (H room).
    now apply obj_get_In.
Qed.

Lemma groups_NoDup_close sid st :
  (forall r s, In (r, s) (adapter st) -> NoDup s) ->
  forall r s, In (r, s) (adapter (transport_close sid st)) -> NoDup s.
Proof.
  intros H r s Hin. unfold transport_close in Hin.
  cbn [adapter with_adapter] in Hin.
  apply filter_In in Hin as [Hin _].
  apply in_map_iff in Hin as [[r0 s0] [[= <- <-] Hin]]. simpl.
  apply NoDup_filter. eauto.
Qed.

Lemma step_adapter st i :
  adapter (fst (step st i)) =
  match i with
  | Connection s _ => adapter (socket_join (id s) (id s) st)
  | JoinRoom s r => adapter (socket_join (id s) r st)
  | LeaveRoom s r => adapter (socket_leave (id s) r st)
  | JoinGroupCall s d => adapter (socket_join (id s) (callRoomId d) st)
  | LeaveGroupCall s r => adapter (socket_leave (id s) r st)
  | Disconnect s _ => adapter (transport_close (id s) st)
  | _ => adapter st
  end.
Proof.
  destruct i as [s t|s d|s r|s r|s d t|s d|s d|s r|s t|sid|]; cbn [step fst];
    try reflexivity.
  - unfold on_updateLanguagePreference.
    destruct (language d) as [l|]; [|reflexivity].
    destruct (obj_get (users st) (id s)); [|reflexivity].
    now destruct (JS.truthy_str l).
  - apply adapter_on_joinRoom.
  - apply adapter_on_leaveRoom.
  - unfold on_callUser. destruct (JS.truthy (cu_roomId d)); [reflexivity|].
    destruct (findUserByUserId (users st) (to d)) as [u|]; [|reflexivity].
    now destruct (is_live st (socketId u)).
  - unfold on_disconnect.
    change (users (transport_close (id s) st)) with (users st).
    now destruct (obj_get (users st) (id s)).
  - unfold deletion_timer. destruct (obj_get (users st) sid) as [u|];
      [|reflexivity].
    now destruct (Status_eqb (status u) offline).
Qed.

(** The transport groups of every reachable state are sets. *)
Lemma reachable_groups_NoDup inputs room :
  NoDup (members (adapter (run init inputs)) room).
Proof.
  apply groups_NoDup_members.
  enough (G : forall l st,
             (forall r s, In (r, s) (adapter st) -> NoDup s) ->
             forall r s, In (r, s) (adapter (run st l)) -> NoDup s)
    by (apply (G inputs init); intros ? ? []).
  induction l as [|i l IH]; intros st H; [exact H|].
  simpl. apply IH. rewrite step_adapter.
  destruct i as [s t|s d|s r|s r|s d t|s d|s d|s r|s t|sid|];
    first [ exact H
          | apply groups_NoDup_join; exact H
          | apply groups_NoDup_leave; exact H
          | apply groups_NoDup_close; exact H ].
Qed.

(** C4 (as amended). In every state reached from the initial one, when a
    connection joins a group call whose transport group holds the
    connections [ms], the handler emits one [userJoinedGroupCall] to the
    group except the sender and one [existingParticipants] to the sender.
    The participants are exactly the connections of [ms] other than the
    joiner's that the registry resolves to a truthy user id, each once and
    each with the registry's user id and name: a registered prior member is
    listed, the joiner's connection never is, and, when the joiner's
    connection is the registered one, no participant carries its user id.
    Every prior member other than the joiner receives exactly the one
    [userJoinedGroupCall]; it names the joiner's connection and the
    credential's [username], and its user id is the payload's [userId] when
    that is truthy and the joiner's authenticated user id otherwise.  The
    joiner receives exactly the one [existingParticipants]. *)
Theorem joinGroupCall_snapshot :
  forall (inputs : list Input) (socket : Socket) (data : JoinGroupCallData),
    let st := run init inputs in
    let ms := members (adapter st) (callRoomId data) in
    let st' := fst (on_joinGroupCall socket data st) in
    let out := snd (on_joinGroupCall socket data st) in
    let joined :=
      userJoinedGroupCall (JS.or_else (joinUserId data) (c_userId (user socket)))
                          (c_username (user socket)) (id socket) in
    exists ps,
      out = [Emit (SocketTo (id socket) (callRoomId data)) joined;
             Emit (ToSocket (id socket))
                  (existingParticipants (callRoomId data) ps)] /\
      ps = map (participant_of (users st))
             (filter (fun sid => negb (sid =? id socket) &&
                                 resolves (users st) sid) ms) /\
      (forall sid, In sid (map p_socketId ps) <->
                   In sid ms /\ sid <> id socket /\
                   resolves (users st) sid = true) /\
      NoDup (map p_socketId ps) /\
      (forall sid u, In sid ms -> sid <> id socket ->
                     obj_get (users st) sid = Some u ->
                     JS.truthy_str (userId u) = true ->
                     In (mkParticipant sid (Some (userId u)) (Some (username u)))
                        ps) /\
      (forall p, In p ps ->
                 exists u, obj_get (users st) (p_socketId p) = Some u /\
                           p = mkParticipant (socketId u) (Some (userId u))
                                             (Some (username u))) /\
      (forall p, In p ps -> p_socketId p <> id socket) /\
      (forall p u, In p ps -> obj_get (users st) (id socket) = Some u ->
                   p_userId p <> Some (userId u)) /\
      (JS.truthy (joinUserId data) = true ->
       joined = userJoinedGroupCall (JS.to_string (joinUserId data))
                                    (c_username (user socket)) (id socket)) /\
      (JS.truthy (joinUserId data) = false ->
       joined = userJoinedGroupCall (c_userId (user socket))
                                    (c_username (user socket)) (id socket)) /\
      (forall sid, In sid ms -> sid <> id socket ->
                   received st' out sid = [joined]) /\
      received st' out (id socket) =
        [existingParticipants (callRoomId data) ps].
Proof.
  intros inputs socket data st ms st' out joined.
  destruct (reachable_registry_wf inputs) as [[Hnd Hkey] Huniq].
  destruct (joinGroupCall_snapshot_from socket data st
              (reachable_groups_NoDup inputs (callRoomId data)) Huniq)
    as [ps [Hout [Hps [Hids [Hnd' [Hself [Huser [Hcred [Hrecv Hown]]]]]]]]].
  exists ps.
  split; [exact Hout|]. split; [exact Hps|]. split; [exact Hids|].
  split; [exact Hnd'|]. split; [|split; [|split; [exact Hself|]]].
  - intros sid u Hin Hne Hget Htruthy. rewrite Hps.
    replace (mkParticipant sid (Some (userId u)) (Some (username u)))
      with (participant_of (users st) sid)
      by (unfold participant_of; now rewrite Hget).
    apply in_map. apply filter_In. split; [exact Hin|].
    unfold resolves. rewrite Hget, Htruthy.
    destruct (String.eqb_spec sid (id socket)); [contradiction | reflexivity].
  - intros p Hp. rewrite Hps in Hp.
    apply in_map_iff in Hp as [sid [<- Hin]].
    apply filter_In in Hin as [_ Hres]. apply andb_true_iff in Hres as [_ Hres].
    unfold resolves in Hres. unfold participant_of. simpl.
    destruct (obj_get (users st) sid) as [u|] eqn:Hget; [|discriminate].
    exists u. split; [reflexivity|]. simpl.
    now rewrite (Hkey sid u (obj_get_In _ _ _ _ Hget)).
  - split; [exact Huser|]. split; [|split; [exact Hcred|]].
    + intros Hj. unfold joined. f_equal. unfold JS.or_else.
      destruct (joinUserId data) as [j|]; [|discriminate].
      simpl in Hj. now rewrite Hj.
    + split; [exact Hrecv | exact Hown].
Qed.

Lemma joinGroupCall_snapshot_witness :
  exists ps,
    snd (on_joinGroupCall carol1 (mkJoinGroupCallData "call-1" None) in_call) =
    [Emit (SocketTo "s4" "call-1") (userJoinedGroupCall "carol" None "s4");
     Emit (ToSocket "s4") (existingParticipants "call-1" ps)] /\
    ps = [mkParticipant "s1" (Some "alice") (Some "Alice");
          mkParticipant "s2" (Some "bob") (Some "Bob")].
Proof.
  destruct (joinGroupCall_snapshot
              [Connection alice1 100; Connection bob1 200; Connection carol1 300;
               JoinGroupCall alice1 (mkJoinGroupCallData "call-1" None);
               JoinGroupCall bob1 (mkJoinGroupCallData "call-1" None)]
              carol1 (mkJoinGroupCallData "call-1" None))
    as [ps [Hout [Hps _]]].
  exists ps. split; [exact Hout | rewrite Hps; reflexivity].
Defined.

(** C4 (counterexample). First, Carol joins the call of Alice and Bob with a
    payload that carries [userId: "alice"]: what Bob receives announces the
    user id ["alice"], not Carol's.  Second, Alice's older connection [s1]
    has been superseded by [s3], which is in the call; when [s1] joins, the
    snapshot it receives lists a participant with Alice's own user id. *)
Lemma joinGroupCall_names_other_user :
  received
    (fst (on_joinGroupCall carol1 (mkJoinGroupCallData "call-1" (Some "alice"))
                           in_call))
    (snd (on_joinGroupCall carol1 (mkJoinGroupCallData "call-1" (Some "alice"))
                           in_call))
    "s2" = [userJoinedGroupCall "alice" None "s4"] /\
  let st := run init [Connection alice1 100; Connection alice2 200;
                      JoinGroupCall alice2 (mkJoinGroupCallData "call-1" None)] in
  received
    (fst (on_joinGroupCall alice1 (mkJoinGroupCallData "call-1" None) st))
    (snd (on_joinGroupCall alice1 (mkJoinGroupCallData "call-1" None) st))
    "s1" =
  [existingParticipants "call-1"
     [mkParticipant "s3" (Some "alice") (Some "Alice")]].
Proof. split; reflexivity. Qed.
